(** * go-apiclient: maintenance windows, annotations and users

    A shallow embedding of [maintenance.go], [annotation.go] and [user.go]
    of the vendored [github.com/circonus-labs/go-apiclient] package.

    Every exported function of the three files is a method on the shared
    client handle [*API].  A method is embedded as a state transformer on
    the handle: it receives the handle, may call the transport (which may
    change the remote service) and may write debug lines to the log, and
    returns the Go result tuple together with the handle afterwards.
    Pointers that may be nil are [option]s, Go's [(value, error)] results
    are pairs whose second component is an [option error]. *)

From Stdlib Require Import String Ascii NArith Bool List Lia.
From stdpp Require Import base option list sorting gmap strings.

Set Default Proof Using "Type".
Set Warnings "-register-all".

(** ** Errors ([github.com/pkg/errors]) *)

(** [errors.New] and [errors.Errorf] build a fresh error from a message,
    [errors.Wrap] puts a message in front of a cause.  [Foreign] stands for
    the errors made outside this package: by the transport, by
    [encoding/json] and by [regexp]. *)
Inductive error : Type :=
| errors_New (msg : string)
| errors_Wrap (cause : error) (msg : string)
| Foreign (msg : string).

(** [errors.Cause]: the innermost error of a chain of wraps. *)
Fixpoint errors_Cause (e : error) : error :=
  match e with
  | errors_Wrap cause _ => errors_Cause cause
  | _ => e
  end.

(** The [Error()] text: a wrapped error prints as [msg: cause]. *)
Fixpoint error_Error (e : error) : string :=
  match e with
  | errors_New msg => msg
  | errors_Wrap cause msg => msg +:+ ": " +:+ error_Error cause
  | Foreign msg => msg
  end.

(** [fmt.Sprintf("%s/%s", a, b)] *)
Definition Sprintf_slash (a b : string) : string := a +:+ "/" +:+ b.

(** [errors.Errorf(pre ++ "(%s)", arg)], the only format used in the three
    files: a text that ends with the argument between parentheses. *)
Definition errors_Errorf (pre arg : string) : error :=
  errors_New (pre +:+ "(" +:+ arg +:+ ")").

(** [strings.HasPrefix(s, prefix)] *)
Definition strings_HasPrefix (s prefix : string) : bool := String.prefix prefix s.

(** ** Regular expressions ([regexp])

    The identifier patterns of the package are anchored at both ends, so
    [regexp.MatchString] decides whether the whole text is in the language of
    the pattern's body.  The body is kept as a syntax tree and matched with
    derivatives. *)

Inductive Regexp : Type :=
| Void
| Eps
| Chr (p : ascii -> bool)
| Seq (r1 r2 : Regexp)
| Alt (r1 r2 : Regexp)
| Star (r : Regexp).

Fixpoint nullable (r : Regexp) : bool :=
  match r with
  | Void => false
  | Eps => true
  | Chr _ => false
  | Seq r1 r2 => nullable r1 && nullable r2
  | Alt r1 r2 => nullable r1 || nullable r2
  | Star _ => true
  end.

Fixpoint deriv (c : ascii) (r : Regexp) : Regexp :=
  match r with
  | Void => Void
  | Eps => Void
  | Chr p => if p c then Eps else Void
  | Seq r1 r2 =>
      if nullable r1 then Alt (Seq (deriv c r1) r2) (deriv c r2)
      else Seq (deriv c r1) r2
  | Alt r1 r2 => Alt (deriv c r1) (deriv c r2)
  | Star r1 => Seq (deriv c r1) (Star r1)
  end.

Fixpoint full_match (r : Regexp) (s : string) : bool :=
  match s with
  | EmptyString => nullable r
  | String c s' => full_match (deriv c r) s'
  end.

(** Literal text. *)
Fixpoint Lit (s : string) : Regexp :=
  match s with
  | EmptyString => Eps
  | String c s' => Seq (Chr (Ascii.eqb c)) (Lit s')
  end.

(** [r+] *)
Definition Plus (r : Regexp) : Regexp := Seq r (Star r).

Definition byte_between (lo hi c : ascii) : bool :=
  (N_of_ascii lo <=? N_of_ascii c)%N && (N_of_ascii c <=? N_of_ascii hi)%N.

Definition is_digit (c : ascii) : bool := byte_between "0" "9" c.
Definition is_lower (c : ascii) : bool := byte_between "a" "z" c.
Definition is_upper (c : ascii) : bool := byte_between "A" "Z" c.
(** [[A-Za-z0-9]] *)
Definition is_alnum (c : ascii) : bool := is_upper c || is_lower c || is_digit c.

(** A pattern as handed to [regexp.MatchString]: either [^body$], or a text
    that does not compile, for which [MatchString] returns an error. *)
Inductive Pattern : Type :=
| Anchored (body : Regexp)
| Malformed (msg : string).

(** [regexp.MatchString(pattern, s)] *)
Definition regexp_MatchString (pattern : Pattern) (s : string) : bool * option error :=
  match pattern with
  | Anchored body => (full_match body s, None)
  | Malformed msg => (false, Some (Foreign msg))
  end.

(** ** Resource constants ([go-apiclient/config]) *)

(** The prefixes and identifier patterns the three files read from the
    [config] package. *)
Record Config : Type := {
  MaintenancePrefix : string;
  MaintenanceCIDRegex : Pattern;
  AnnotationPrefix : string;
  AnnotationCIDRegex : Pattern;
  UserPrefix : string;
  UserCIDRegex : Pattern
}.

(** Modelled from the spec: the pattern of a resource identifier,
    [^<prefix>/[A-Za-z0-9]+$], as the spec's scenario writes it for the
    maintenance resource ([^/maintenance/[A-Za-z0-9]+$]); the constants
    themselves are declared in [config], which is not among the sources. *)
Definition cid_pattern (prefix : string) : Pattern :=
  Anchored (Seq (Lit (prefix +:+ "/")) (Plus (Chr is_alnum))).

(** Modelled from the spec: the constants of package [config], which is not
    among the sources.  The prefixes are the ones the spec names
    ([/maintenance], [/annotation], and [/user] of [/user/current]); each
    pattern is [cid_pattern] of its prefix. *)
Definition spec_config : Config := {|
  MaintenancePrefix := "/maintenance";
  MaintenanceCIDRegex := cid_pattern "/maintenance";
  AnnotationPrefix := "/annotation";
  AnnotationCIDRegex := cid_pattern "/annotation";
  UserPrefix := "/user";
  UserCIDRegex := cid_pattern "/user"
|}.


(** ** JSON documents ([encoding/json]) *)

(** A slice: [None] is Go's nil slice, [Some l] a slice of the elements of
    [l].  Both have length 0 when empty, but [encoding/json] writes the nil
    slice as [null] and the empty one as [[]]. *)
Definition slice (A : Type) : Type := option (list A).

Definition len {A : Type} (s : slice A) : nat :=
  match s with
  | None => 0
  | Some l => length l
  end.

(** The document a value encodes to.  Object members keep the order in
    which they are written. *)
Inductive JSON : Type :=
| JNull
| JString (s : string)
| JNumber (n : N)
| JArray (elems : list JSON)
| JObject (members : list (string * JSON)).

(** The member named [name] of an object. *)
Definition member (name : string) (doc : JSON) : option JSON :=
  match doc with
  | JObject members => snd <$> List.find (fun kv => String.eqb (fst kv) name) members
  | _ => None
  end.

(** A struct field without [omitempty]. *)
Definition field (name : string) (v : JSON) : list (string * JSON) := [(name, v)].

(** A struct field tagged [omitempty]: left out when the Go value is empty. *)
Definition field_omitempty (name : string) (empty : bool) (v : JSON) : list (string * JSON) :=
  if empty then [] else [(name, v)].

Definition encode_strings (s : slice string) : JSON :=
  match s with
  | None => JNull
  | Some l => JArray (JString <$> l)
  end.

(** ** The records *)

(** The dynamic value of [Maintenance.Severities] ([interface{}]).  The
    source documents a CSV string or a [[]string]; [iface_unsupported] is a
    dynamic value of a type [encoding/json] refuses (a channel, a func). *)
Inductive Interface : Type :=
| iface_nil
| iface_string (s : string)
| iface_strings (l : slice string)
| iface_unsupported (type_name : string).

Record Maintenance : Type := {
  Maintenance_Severities : Interface;   (* json:"severities,omitempty" *)
  Maintenance_CID : string;             (* json:"_cid,omitempty" *)
  Maintenance_Item : string;            (* json:"item,omitempty" *)
  Maintenance_Notes : string;           (* json:"notes,omitempty" *)
  Maintenance_Type : string;            (* json:"type,omitempty" *)
  Maintenance_Tags : slice string;      (* json:"tags,omitempty" *)
  Maintenance_Start : N;                (* json:"start,omitempty" *)
  Maintenance_Stop : N                  (* json:"stop,omitempty" *)
}.

Record Annotation : Type := {
  Annotation_Category : string;               (* json:"category" *)
  Annotation_CID : string;                    (* json:"_cid,omitempty" *)
  Annotation_Description : string;            (* json:"description" *)
  Annotation_LastModifiedBy : string;         (* json:"_last_modified_by,omitempty" *)
  Annotation_Title : string;                  (* json:"title" *)
  Annotation_RelatedMetrics : slice string;   (* json:"rel_metrics" *)
  Annotation_LastModified : N;                (* json:"_last_modified,omitempty" *)
  Annotation_Created : N;                     (* json:"_created,omitempty" *)
  Annotation_Start : N;                       (* json:"start" *)
  Annotation_Stop : N                         (* json:"stop" *)
}.

Record UserContactInfo : Type := {
  UserContactInfo_SMS : string;    (* json:"sms,omitempty" *)
  UserContactInfo_XMPP : string    (* json:"xmpp,omitempty" *)
}.

Record User : Type := {
  User_CID : string;                    (* json:"_cid,omitempty" *)
  User_ContactInfo : UserContactInfo;   (* json:"contact_info,omitempty" *)
  User_Email : string;                  (* json:"email" *)
  User_Firstname : string;              (* json:"firstname" *)
  User_Lastname : string                (* json:"lastname" *)
}.

(** [NewMaintenanceWindow] returns [&Maintenance{}]: every field zero. *)
Definition NewMaintenanceWindow : Maintenance := {|
  Maintenance_Severities := iface_nil;
  Maintenance_CID := "";
  Maintenance_Item := "";
  Maintenance_Notes := "";
  Maintenance_Type := "";
  Maintenance_Tags := None;
  Maintenance_Start := 0;
  Maintenance_Stop := 0
|}.

(** [NewAnnotation] returns [&Annotation{}]. *)
Definition NewAnnotation : Annotation := {|
  Annotation_Category := "";
  Annotation_CID := "";
  Annotation_Description := "";
  Annotation_LastModifiedBy := "";
  Annotation_Title := "";
  Annotation_RelatedMetrics := None;
  Annotation_LastModified := 0;
  Annotation_Created := 0;
  Annotation_Start := 0;
  Annotation_Stop := 0
|}.

(** *** What [json.Marshal] writes for each record

    Fields are written in the order of the struct declaration, under the
    name of their tag; a field tagged [omitempty] is left out when it is the
    empty string, 0, a slice of length 0 or a nil interface.  The only value
    of these records that [encoding/json] cannot encode is an unsupported
    dynamic value in [Severities]. *)

Definition Interface_document (v : Interface) : JSON + error :=
  match v with
  | iface_nil => inl JNull
  | iface_string s => inl (JString s)
  | iface_strings l => inl (encode_strings l)
  | iface_unsupported t => inr (Foreign ("json: unsupported type: " +:+ t))
  end.

Definition Maintenance_document (cfg : Maintenance) : JSON + error :=
  match Interface_document (Maintenance_Severities cfg) with
  | inr e => inr e
  | inl severities =>
      inl (JObject (
        field_omitempty "severities"
          (match Maintenance_Severities cfg with iface_nil => true | _ => false end)
          severities
        ++ field_omitempty "_cid" (String.eqb (Maintenance_CID cfg) "") (JString (Maintenance_CID cfg))
        ++ field_omitempty "item" (String.eqb (Maintenance_Item cfg) "") (JString (Maintenance_Item cfg))
        ++ field_omitempty "notes" (String.eqb (Maintenance_Notes cfg) "") (JString (Maintenance_Notes cfg))
        ++ field_omitempty "type" (String.eqb (Maintenance_Type cfg) "") (JString (Maintenance_Type cfg))
        ++ field_omitempty "tags" (Nat.eqb (len (Maintenance_Tags cfg)) 0) (encode_strings (Maintenance_Tags cfg))
        ++ field_omitempty "start" (N.eqb (Maintenance_Start cfg) 0) (JNumber (Maintenance_Start cfg))
        ++ field_omitempty "stop" (N.eqb (Maintenance_Stop cfg) 0) (JNumber (Maintenance_Stop cfg))))
  end.

Definition Annotation_document (cfg : Annotation) : JSON + error :=
  inl (JObject (
    field "category" (JString (Annotation_Category cfg))
    ++ field_omitempty "_cid" (String.eqb (Annotation_CID cfg) "") (JString (Annotation_CID cfg))
    ++ field "description" (JString (Annotation_Description cfg))
    ++ field_omitempty "_last_modified_by" (String.eqb (Annotation_LastModifiedBy cfg) "")
         (JString (Annotation_LastModifiedBy cfg))
    ++ field "title" (JString (Annotation_Title cfg))
    ++ field "rel_metrics" (encode_strings (Annotation_RelatedMetrics cfg))
    ++ field_omitempty "_last_modified" (N.eqb (Annotation_LastModified cfg) 0)
         (JNumber (Annotation_LastModified cfg))
    ++ field_omitempty "_created" (N.eqb (Annotation_Created cfg) 0) (JNumber (Annotation_Created cfg))
    ++ field "start" (JNumber (Annotation_Start cfg))
    ++ field "stop" (JNumber (Annotation_Stop cfg)))).

Definition UserContactInfo_document (c : UserContactInfo) : JSON :=
  JObject (
    field_omitempty "sms" (String.eqb (UserContactInfo_SMS c) "") (JString (UserContactInfo_SMS c))
    ++ field_omitempty "xmpp" (String.eqb (UserContactInfo_XMPP c) "") (JString (UserContactInfo_XMPP c))).

(** [omitempty] never leaves out a struct: [contact_info] is always written. *)
Definition User_document (cfg : User) : JSON + error :=
  inl (JObject (
    field_omitempty "_cid" (String.eqb (User_CID cfg) "") (JString (User_CID cfg))
    ++ field "contact_info" (UserContactInfo_document (User_ContactInfo cfg))
    ++ field "email" (JString (User_Email cfg))
    ++ field "firstname" (JString (User_Firstname cfg))
    ++ field "lastname" (JString (User_Lastname cfg)))).

(** The records [json.Marshal] is applied to. *)
Class Encodable (T : Type) : Type := { document : T -> JSON + error }.
#[global] Instance Maintenance_Encodable : Encodable Maintenance := {| document := Maintenance_document |}.
#[global] Instance Annotation_Encodable : Encodable Annotation := {| document := Annotation_document |}.
#[global] Instance User_Encodable : Encodable User := {| document := User_document |}.

(** ** Query strings and URLs ([net/url]) *)

(** Go compares strings byte by byte; [sort.Strings] sorts ascending. *)
Definition string_le (s1 s2 : string) : Prop := String.leb s1 s2 = true.

#[global] Instance string_le_dec : RelDecision string_le :=
  fun s1 s2 => decide (String.leb s1 s2 = true).

Inductive encoding : Type := encodePath | encodeQueryComponent.

Definition byte_in (c : ascii) (set : string) : bool :=
  existsb (Ascii.eqb c) (list_ascii_of_string set).

(** [shouldEscape(c, mode)] for the two modes used here. *)
Definition shouldEscape (c : ascii) (mode : encoding) : bool :=
  if is_alnum c then false
  else if byte_in c "-_.~" then false
  else if byte_in c "$&+,/:;=?@" then
    match mode with
    | encodePath => Ascii.eqb c "?"
    | encodeQueryComponent => true
    end
  else true.

Definition upperhex : string := "0123456789ABCDEF".

Definition hex_digit (n : N) : ascii :=
  match String.get (N.to_nat n) upperhex with
  | Some d => d
  | None => "0"%char
  end.

(** [escape(s, mode)]: a space of a query component becomes [+], any other
    byte to escape becomes [%XX]. *)
Fixpoint escape (s : string) (mode : encoding) : string :=
  match s with
  | EmptyString => EmptyString
  | String c s' =>
      (if Ascii.eqb c " " && (match mode with encodeQueryComponent => true | _ => false end) then "+"
       else if shouldEscape c mode then
         String "%" (String (hex_digit (N_of_ascii c / 16)) (String (hex_digit (N_of_ascii c mod 16)) ""))
       else String c "")
      +:+ escape s' mode
  end.

Definition QueryEscape (s : string) : string := escape s encodeQueryComponent.

(** [url.Values] is [map[string][]string]; [SearchFilterType] is the same
    map type. *)
Abbreviation Values := (gmap string (list string)) (only parsing).
Abbreviation SearchFilterType := (gmap string (list string)) (only parsing).

(** [v.Set(key, value)] *)
Definition Values_Set (key value : string) (v : Values) : Values :=
  <[key := [value]]> v.

(** [v.Add(key, value)]: [v[key] = append(v[key], value)] *)
Definition Values_Add (key value : string) (v : Values) : Values :=
  <[key := default [] (v !! key) ++ [value]]> v.

(** The text before the first [/] of a path. *)
Fixpoint first_segment (path : string) : string :=
  match path with
  | EmptyString => EmptyString
  | String c rest => if Ascii.eqb c "/" then EmptyString else String c (first_segment rest)
  end.

(** [u.EscapedPath()] of a URL whose [RawPath] is empty. *)
Definition URL_EscapedPath (Path : string) : string :=
  if String.eqb Path "*" then "*" else escape Path encodePath.

(** [u.String()] of [url.URL{Path: Path, RawQuery: RawQuery}]: no scheme, no
    host, no fragment. *)
Definition URL_String (Path RawQuery : string) : string :=
  let path := URL_EscapedPath Path in
  (if byte_in ":" (first_segment path) then "./" else "")
  +:+ path
  +:+ (if String.eqb RawQuery "" then "" else "?" +:+ RawQuery).

(** ** The transport *)

Section Transport.
Context {bytes : Type}.

(** A request handed to the transport: [a.Get(path)], [a.Put(path, body)],
    [a.Post(path, body)], [a.Delete(path)]. *)
Inductive Call : Type :=
| HTTP_Get (path : string)
| HTTP_Put (path : string) (body : bytes)
| HTTP_Post (path : string) (body : bytes)
| HTTP_Delete (path : string).

(** The client handle.  [service] is the state of the remote side, [sent]
    the requests handed to the transport so far, oldest first; [Log] holds
    the lines printed, each as its format and its argument. *)
Record API {World : Type} : Type := {
  Debug : bool;
  Log : list (string * bytes);
  service : World;
  sent : list Call
}.
End Transport.
Arguments Call : clear implicits.
Arguments API : clear implicits.

(** The types [json.Unmarshal] decodes into. *)
Class Decodable (bytes T : Type) : Type := { json_Unmarshal : bytes -> T + error }.

(** [CIDType] is [*string], [SearchQueryType] is [string]. *)
Abbreviation CIDType := (option string) (only parsing).
Abbreviation SearchQueryType := string (only parsing).

(** ** The client *)

Section Client.
(** What the three files take from outside: the bytes on the wire, the
    remote service behind the transport, the serialisation of a JSON
    document, the decoders of [json.Unmarshal], the constants of [config],
    and the order in which a [range] over a map visits its entries. *)
Context {bytes World : Type}.
Variable transport : Call bytes -> World -> (bytes + error) * World.
Variable json_render : JSON -> bytes.
Context `{!Decodable bytes Maintenance, !Decodable bytes (slice Maintenance),
          !Decodable bytes Annotation, !Decodable bytes (slice Annotation),
          !Decodable bytes User, !Decodable bytes (slice User)}.
Variable config : Config.
Variable range_map : gmap string (list string) -> list (string * list string).

(** A method of [*API]: from the handle before to a result and the handle
    after. *)
Definition M (A : Type) : Type := API bytes World -> A * API bytes World.

#[local] Instance M_ret : MRet M := fun A x a => (x, a).
#[local] Instance M_bind : MBind M := fun A B f m a => let '(x, a') := m a in f x a'.

Definition request (c : Call bytes) : M (bytes + error) := fun a =>
  let '(reply, w) := transport c (service a) in
  (reply, {| Debug := Debug a; Log := Log a; service := w; sent := sent a ++ [c] |}).

Definition API_Get (path : string) : M (bytes + error) := request (HTTP_Get path).
Definition API_Put (path : string) (body : bytes) : M (bytes + error) := request (HTTP_Put path body).
Definition API_Post (path : string) (body : bytes) : M (bytes + error) := request (HTTP_Post path body).
Definition API_Delete (path : string) : M (bytes + error) := request (HTTP_Delete path).

(** [if a.Debug { a.Log.Printf(format, string(data)) }] *)
Definition debug_Printf (format : string) (data : bytes) : M unit := fun a =>
  if Debug a
  then (tt, {| Debug := Debug a; Log := Log a ++ [(format, data)]; service := service a; sent := sent a |})
  else (tt, a).

(** [json.Marshal(cfg)] *)
Definition json_Marshal {T : Type} `{!Encodable T} (cfg : T) : bytes + error :=
  match document cfg with
  | inl doc => inl (json_render doc)
  | inr e => inr e
  end.

(** [v.Encode()]: nothing for an empty map; otherwise the keys are
    collected by a [range] over the map, sorted, and every value of every
    key is written as [key=value], with [&] between two pairs. *)
Definition Values_Encode (v : Values) : string :=
  if Nat.eqb (size v) 0 then ""
  else
    let keys := merge_sort string_le (fst <$> range_map v) in
    fold_left (fun buf k =>
      let vs := default [] (v !! k) in
      let keyEscaped := QueryEscape k in
      fold_left (fun buf val =>
        (if Nat.ltb 0 (String.length buf) then buf +:+ "&" else buf)
        +:+ keyEscaped +:+ "=" +:+ QueryEscape val) vs buf) keys "".

(** The two loops of every Search function:
    [for filter, criteria := range *filterCriteria { for _, val := range criteria { q.Add(filter, val) } }] *)
Definition add_filters (filterCriteria : SearchFilterType) (q : Values) : Values :=
  fold_left (fun q '(filter, criteria) =>
    fold_left (fun q val => Values_Add filter val q) criteria q) (range_map filterCriteria) q.

(** *** maintenance.go *)

Definition FetchMaintenanceWindow (cid : CIDType) : M (option Maintenance * option error) :=
  match cid with
  | None => mret (None, Some (errors_New "invalid maintenance window CID (none)"))
  | Some cid =>
      if String.eqb cid "" then mret (None, Some (errors_New "invalid maintenance window CID (none)"))
      else
        let maintenanceCID :=
          if negb (strings_HasPrefix cid (MaintenancePrefix config))
          then Sprintf_slash (MaintenancePrefix config) cid
          else cid in
        match regexp_MatchString (MaintenanceCIDRegex config) maintenanceCID with
        | (_, Some err) => mret (None, Some err)
        | (false, None) => mret (None, Some (errors_Errorf "invalid maintenance window CID " maintenanceCID))
        | (true, None) =>
            reply ← API_Get maintenanceCID;
            match reply with
            | inr err => mret (None, Some (errors_Wrap err "fetching maitenance window"))
            | inl result =>
                debug_Printf "fetch maintenance window, received JSON: %s" result;;
                match json_Unmarshal result with
                | inr err => mret (None, Some (errors_Wrap err "parsing maintenance window"))
                | inl window => mret (Some window, None)
                end
            end
        end
  end.

Definition FetchMaintenanceWindows : M (option (slice Maintenance) * option error) :=
  reply ← API_Get (MaintenancePrefix config);
  match reply with
  | inr err => mret (None, Some (errors_Wrap err "fetching maintenance windows"))
  | inl result =>
      match json_Unmarshal result with
      | inr err => mret (None, Some (errors_Wrap err "parsing maintenance windows"))
      | inl windows => mret (Some windows, None)
      end
  end.

Definition UpdateMaintenanceWindow (cfg : option Maintenance) : M (option Maintenance * option error) :=
  match cfg with
  | None => mret (None, Some (errors_New "invalid maintenance window config (nil)"))
  | Some cfg =>
      let maintenanceCID := Maintenance_CID cfg in
      match regexp_MatchString (MaintenanceCIDRegex config) maintenanceCID with
      | (_, Some err) => mret (None, Some err)
      | (false, None) => mret (None, Some (errors_Errorf "invalid maintenance window CID " maintenanceCID))
      | (true, None) =>
          match json_Marshal cfg with
          | inr err => mret (None, Some err)
          | inl jsonCfg =>
              debug_Printf "update maintenance window, sending JSON: %s" jsonCfg;;
              reply ← API_Put maintenanceCID jsonCfg;
              match reply with
              | inr err => mret (None, Some (errors_Wrap err "parsing maintenance window"))
              | inl result =>
                  match json_Unmarshal result with
                  | inr err => mret (None, Some err)
                  | inl window => mret (Some window, None)
                  end
              end
          end
      end
  end.

Definition CreateMaintenanceWindow (cfg : option Maintenance) : M (option Maintenance * option error) :=
  match cfg with
  | None => mret (None, Some (errors_New "invalid maintenance window config (nil)"))
  | Some cfg =>
      match json_Marshal cfg with
      | inr err => mret (None, Some err)
      | inl jsonCfg =>
          debug_Printf "create maintenance window, sending JSON: %s" jsonCfg;;
          reply ← API_Post (MaintenancePrefix config) jsonCfg;
          match reply with
          | inr err => mret (None, Some (errors_Wrap err "creating maintenance window"))
          | inl result =>
              match json_Unmarshal result with
              | inr err => mret (None, Some (errors_Wrap err "parsing maintenance window"))
              | inl window => mret (Some window, None)
              end
          end
      end
  end.

Definition DeleteMaintenanceWindowByCID (cid : CIDType) : M (bool * option error) :=
  match cid with
  | None => mret (false, Some (errors_New "invalid maintenance window CID (none)"))
  | Some cid =>
      if String.eqb cid "" then mret (false, Some (errors_New "invalid maintenance window CID (none)"))
      else
        let maintenanceCID :=
          if negb (strings_HasPrefix cid (MaintenancePrefix config))
          then Sprintf_slash (MaintenancePrefix config) cid
          else cid in
        match regexp_MatchString (MaintenanceCIDRegex config) maintenanceCID with
        | (_, Some err) => mret (false, Some err)
        | (false, None) => mret (false, Some (errors_Errorf "invalid maintenance window CID " maintenanceCID))
        | (true, None) =>
            reply ← API_Delete maintenanceCID;
            match reply with
            | inr err => mret (false, Some (errors_Wrap err "deleting maintenance window"))
            | inl _ => mret (true, None)
            end
        end
  end.

Definition DeleteMaintenanceWindow (cfg : option Maintenance) : M (bool * option error) :=
  match cfg with
  | None => mret (false, Some (errors_New "invalid maintenance window config (nil)"))
  | Some cfg => DeleteMaintenanceWindowByCID (Some (Maintenance_CID cfg))
  end.

Definition SearchMaintenanceWindows (searchCriteria : option SearchQueryType)
    (filterCriteria : option SearchFilterType) : M (option (slice Maintenance) * option error) :=
  let q : Values := ∅ in
  let q :=
    match searchCriteria with
    | Some s => if negb (String.eqb s "") then Values_Set "search" s q else q
    | None => q
    end in
  let q :=
    match filterCriteria with
    | Some f => if Nat.ltb 0 (size f) then add_filters f q else q
    | None => q
    end in
  if String.eqb (Values_Encode q) "" then FetchMaintenanceWindows
  else
    let reqURL := URL_String (MaintenancePrefix config) (Values_Encode q) in
    reply ← API_Get reqURL;
    match reply with
    | inr err => mret (None, Some (errors_Wrap err "searching maintenance windows"))
    | inl result =>
        match json_Unmarshal result with
        | inr err => mret (None, Some (errors_Wrap err "parsing maintenance windows"))
        | inl windows => mret (Some windows, None)
        end
    end.

(** *** annotation.go *)

Definition FetchAnnotation (cid : CIDType) : M (option Annotation * option error) :=
  match cid with
  | None => mret (None, Some (errors_New "invalid annotation CID (none)"))
  | Some cid =>
      if String.eqb cid "" then mret (None, Some (errors_New "invalid annotation CID (none)"))
      else
        let annotationCID :=
          if negb (strings_HasPrefix cid (AnnotationPrefix config))
          then Sprintf_slash (AnnotationPrefix config) cid
          else cid in
        match regexp_MatchString (AnnotationCIDRegex config) annotationCID with
        | (_, Some err) => mret (None, Some err)
        | (false, None) => mret (None, Some (errors_Errorf "invalid annotation CID " annotationCID))
        | (true, None) =>
            reply ← API_Get annotationCID;
            match reply with
            | inr err => mret (None, Some (errors_Wrap err "fetching annotation"))
            | inl result =>
                debug_Printf "fetch annotation, received JSON: %s" result;;
                match json_Unmarshal result with
                | inr err => mret (None, Some (errors_Wrap err "parsing annotation"))
                | inl annotation => mret (Some annotation, None)
                end
            end
        end
  end.

Definition FetchAnnotations : M (option (slice Annotation) * option error) :=
  reply ← API_Get (AnnotationPrefix config);
  match reply with
  | inr err => mret (None, Some (errors_Wrap err "fetching annotations"))
  | inl result =>
      match json_Unmarshal result with
      | inr err => mret (None, Some (errors_Wrap err "parsing annotations"))
      | inl annotations => mret (Some annotations, None)
      end
  end.

Definition UpdateAnnotation (cfg : option Annotation) : M (option Annotation * option error) :=
  match cfg with
  | None => mret (None, Some (errors_New "invalid annotation config (nil)"))
  | Some cfg =>
      let annotationCID := Annotation_CID cfg in
      match regexp_MatchString (AnnotationCIDRegex config) annotationCID with
      | (_, Some err) => mret (None, Some err)
      | (false, None) => mret (None, Some (errors_Errorf "invalid annotation CID " annotationCID))
      | (true, None) =>
          match json_Marshal cfg with
          | inr err => mret (None, Some err)
          | inl jsonCfg =>
              debug_Printf "update annotation, sending JSON: %s" jsonCfg;;
              reply ← API_Put annotationCID jsonCfg;
              match reply with
              | inr err => mret (None, Some (errors_Wrap err "updating annotation"))
              | inl result =>
                  match json_Unmarshal result with
                  | inr err => mret (None, Some (errors_Wrap err "parsing annotation"))
                  | inl annotation => mret (Some annotation, None)
                  end
              end
          end
      end
  end.

Definition CreateAnnotation (cfg : option Annotation) : M (option Annotation * option error) :=
  match cfg with
  | None => mret (None, Some (errors_New "invalid annotation config (nil)"))
  | Some cfg =>
      match json_Marshal cfg with
      | inr err => mret (None, Some err)
      | inl jsonCfg =>
          debug_Printf "create annotation, sending JSON: %s" jsonCfg;;
          reply ← API_Post (AnnotationPrefix config) jsonCfg;
          match reply with
          | inr err => mret (None, Some (errors_Wrap err "creating annotation"))
          | inl result =>
              match json_Unmarshal result with
              | inr err => mret (None, Some (errors_Wrap err "parsing annotation"))
              | inl annotation => mret (Some annotation, None)
              end
          end
      end
  end.

Definition DeleteAnnotationByCID (cid : CIDType) : M (bool * option error) :=
  match cid with
  | None => mret (false, Some (errors_New "invalid annotation CID (none)"))
  | Some cid =>
      if String.eqb cid "" then mret (false, Some (errors_New "invalid annotation CID (none)"))
      else
        let annotationCID :=
          if negb (strings_HasPrefix cid (AnnotationPrefix config))
          then Sprintf_slash (AnnotationPrefix config) cid
          else cid in
        match regexp_MatchString (AnnotationCIDRegex config) annotationCID with
        | (_, Some err) => mret (false, Some err)
        | (false, None) => mret (false, Some (errors_Errorf "invalid annotation CID " annotationCID))
        | (true, None) =>
            reply ← API_Delete annotationCID;
            match reply with
            | inr err => mret (false, Some (errors_Wrap err "deleting annotation"))
            | inl _ => mret (true, None)
            end
        end
  end.

Definition DeleteAnnotation (cfg : option Annotation) : M (bool * option error) :=
  match cfg with
  | None => mret (false, Some (errors_New "invalid annotation config (nil)"))
  | Some cfg => DeleteAnnotationByCID (Some (Annotation_CID cfg))
  end.

Definition SearchAnnotations (searchCriteria : option SearchQueryType)
    (filterCriteria : option SearchFilterType) : M (option (slice Annotation) * option error) :=
  let q : Values := ∅ in
  let q :=
    match searchCriteria with
    | Some s => if negb (String.eqb s "") then Values_Set "search" s q else q
    | None => q
    end in
  let q :=
    match filterCriteria with
    | Some f => if Nat.ltb 0 (size f) then add_filters f q else q
    | None => q
    end in
  if String.eqb (Values_Encode q) "" then FetchAnnotations
  else
    let reqURL := URL_String (AnnotationPrefix config) (Values_Encode q) in
    reply ← API_Get reqURL;
    match reply with
    | inr err => mret (None, Some (errors_Wrap err "searching annotations"))
    | inl result =>
        match json_Unmarshal result with
        | inr err => mret (None, Some (errors_Wrap err "parsing annotations"))
        | inl annotations => mret (Some annotations, None)
        end
    end.

(** *** user.go *)

Definition FetchUser (cid : CIDType) : M (option User * option error) :=
  let userCID :=
    match cid with
    | None => UserPrefix config +:+ "/current"
    | Some cid =>
        if String.eqb cid "" then UserPrefix config +:+ "/current"
        else if negb (strings_HasPrefix cid (UserPrefix config))
        then Sprintf_slash (UserPrefix config) cid
        else cid
    end in
  match regexp_MatchString (UserCIDRegex config) userCID with
  | (_, Some err) => mret (None, Some err)
  | (false, None) => mret (None, Some (errors_Errorf "invalid user CID " userCID))
  | (true, None) =>
      reply ← API_Get userCID;
      match reply with
      | inr err => mret (None, Some (errors_Wrap err "fetching user"))
      | inl result =>
          debug_Printf "fetch user, received JSON: %s" result;;
          match json_Unmarshal result with
          | inr err => mret (None, Some (errors_Wrap err "parsing user"))
          | inl user => mret (Some user, None)
          end
      end
  end.

Definition FetchUsers : M (option (slice User) * option error) :=
  reply ← API_Get (UserPrefix config);
  match reply with
  | inr err => mret (None, Some (errors_Wrap err "fetching users"))
  | inl result =>
      match json_Unmarshal result with
      | inr err => mret (None, Some (errors_Wrap err "parsing users"))
      | inl users => mret (Some users, None)
      end
  end.

Definition UpdateUser (cfg : option User) : M (option User * option error) :=
  match cfg with
  | None => mret (None, Some (errors_New "invalid user config (nil)"))
  | Some cfg =>
      let userCID := User_CID cfg in
      match regexp_MatchString (UserCIDRegex config) userCID with
      | (_, Some err) => mret (None, Some err)
      | (false, None) => mret (None, Some (errors_Errorf "invalid user CID " userCID))
      | (true, None) =>
          match json_Marshal cfg with
          | inr err => mret (None, Some err)
          | inl jsonCfg =>
              debug_Printf "update user, sending JSON: %s" jsonCfg;;
              reply ← API_Put userCID jsonCfg;
              match reply with
              | inr err => mret (None, Some (errors_Wrap err "updating user"))
              | inl result =>
                  match json_Unmarshal result with
                  | inr err => mret (None, Some (errors_Wrap err "parsing user"))
                  | inl user => mret (Some user, None)
                  end
              end
          end
      end
  end.

Definition SearchUsers (filterCriteria : option SearchFilterType)
    : M (option (slice User) * option error) :=
  let q : Values := ∅ in
  let q :=
    match filterCriteria with
    | Some f => if Nat.ltb 0 (size f) then add_filters f q else q
    | None => q
    end in
  if String.eqb (Values_Encode q) "" then FetchUsers
  else
    let reqURL := URL_String (UserPrefix config) (Values_Encode q) in
    reply ← API_Get reqURL;
    match reply with
    | inr err => mret (None, Some (errors_Wrap err "searching users"))
    | inl result =>
        match json_Unmarshal result with
        | inr err => mret (None, Some (errors_Wrap err "parsing user"))
        | inl users => mret (Some users, None)
        end
    end.
End Client.

(** ** The contract of the identifier resolver *)

(** The three kinds of error of the validating prologue.  The code tells
    them apart by their text only; [kind] is the resource's name in the
    messages ("maintenance window", "annotation", "user"). *)
Definition MissingIdentifier (kind : string) : error :=
  errors_New ("invalid " +:+ kind +:+ " CID (none)").
Definition InvalidIdentifier (kind path : string) : error :=
  errors_New ("invalid " +:+ kind +:+ " CID (" +:+ path +:+ ")").
Definition InvalidConfig (kind : string) : error :=
  errors_New ("invalid " +:+ kind +:+ " config (nil)").

(** The path a non-empty raw identifier stands for: itself when it starts
    with the prefix, [prefix/rawID] otherwise. *)
Definition normalize (prefix rawID : string) : string :=
  if strings_HasPrefix rawID prefix then rawID else prefix +:+ "/" +:+ rawID.

(** [resolve(rawID, prefix, pattern) -> fullPath | ValidationError], written
    after the contract of the resolver; the functions of the client inline
    these steps, and the theorems below compare them with it.  The error is
    the one the resource of name [kind] reports; an error of the matcher
    itself is passed on as it is. *)
Definition resolve (kind : string) (rawID : CIDType) (prefix : string) (pattern : Pattern)
    : string + error :=
  match rawID with
  | None => inr (MissingIdentifier kind)
  | Some id =>
      if String.eqb id "" then inr (MissingIdentifier kind)
      else
        match regexp_MatchString pattern (normalize prefix id) with
        | (_, Some err) => inr err
        | (true, None) => inl (normalize prefix id)
        | (false, None) => inr (InvalidIdentifier kind (normalize prefix id))
        end
  end.

(** The words a regular expression denotes; [full_match] is proved to decide
    this relation. *)
Inductive Matches : Regexp -> string -> Prop :=
| Matches_Eps : Matches Eps ""
| Matches_Chr (p : ascii -> bool) c : p c = true -> Matches (Chr p) (String c "")
| Matches_Seq r1 r2 s1 s2 : Matches r1 s1 -> Matches r2 s2 -> Matches (Seq r1 r2) (s1 +:+ s2)
| Matches_Alt_l r1 r2 s : Matches r1 s -> Matches (Alt r1 r2) s
| Matches_Alt_r r1 r2 s : Matches r2 s -> Matches (Alt r1 r2) s
| Matches_Star_nil r : Matches (Star r) ""
| Matches_Star_cons r s1 s2 : Matches r s1 -> Matches (Star r) s2 -> Matches (Star r) (s1 +:+ s2).

(** A pattern that accepts only paths that start with [prefix]: any other
    text is a plain mismatch. *)
Definition below_prefix (prefix : string) (pattern : Pattern) : Prop :=
  forall s, strings_HasPrefix s prefix = false -> regexp_MatchString pattern s = (false, None).

(** A method that returns [r] and leaves the handle as it was: nothing is
    handed to the transport and nothing is logged. *)
Definition returns_untouched {bytes World A : Type}
    (m : API bytes World -> A * API bytes World) (a : API bytes World) (r : A) : Prop :=
  m a = (r, a).

(** A method that hands exactly one request, [c], to the transport. *)
Definition sends_just {bytes World A : Type}
    (m : API bytes World -> A * API bytes World) (a : API bytes World) (c : Call bytes) : Prop :=
  sent (snd (m a)) = sent a ++ [c].

(** An order in which [range] may visit the entries of a map: each entry
    once. *)
Definition visits_each_entry_once (range_map : gmap string (list string) -> list (string * list string)) : Prop :=
  forall m, range_map m ≡ₚ map_to_list m.

(** What the filter loops leave under a key that held [old] when the filter
    has the values [vs] for it. *)
Definition appended (old : option (list string)) (vs : list string) : option (list string) :=
  match vs with
  | [] => old
  | _ :: _ => Some (default [] old ++ vs)
  end.

(** ** A scripted service

    A stand-in for the collaborators, used to run the client on concrete
    inputs: the wire carries documents as they are, the service answers the
    requests from a script, one reply per request, and the decoders read the
    string members of an object. *)

Definition on_the_wire (doc : JSON) : JSON := doc.

Definition scripted_transport (c : Call JSON) (script : list (JSON + error))
    : (JSON + error) * list (JSON + error) :=
  match script with
  | [] => (inr (Foreign "transport: no reply"), [])
  | reply :: rest => (reply, rest)
  end.

Definition string_member (name : string) (doc : JSON) : string :=
  match member name doc with
  | Some (JString s) => s
  | _ => ""
  end.

Definition read_Maintenance (doc : JSON) : Maintenance + error :=
  match doc with
  | JObject _ =>
      inl {| Maintenance_Severities := iface_nil;
             Maintenance_CID := string_member "_cid" doc;
             Maintenance_Item := string_member "item" doc;
             Maintenance_Notes := string_member "notes" doc;
             Maintenance_Type := string_member "type" doc;
             Maintenance_Tags := None;
             Maintenance_Start := 0;
             Maintenance_Stop := 0 |}
  | _ => inr (Foreign "json: cannot unmarshal into Go value of type apiclient.Maintenance")
  end.

Definition read_Annotation (doc : JSON) : Annotation + error :=
  match doc with
  | JObject _ =>
      inl {| Annotation_Category := string_member "category" doc;
             Annotation_CID := string_member "_cid" doc;
             Annotation_Description := string_member "description" doc;
             Annotation_LastModifiedBy := string_member "_last_modified_by" doc;
             Annotation_Title := string_member "title" doc;
             Annotation_RelatedMetrics := None;
             Annotation_LastModified := 0;
             Annotation_Created := 0;
             Annotation_Start := 0;
             Annotation_Stop := 0 |}
  | _ => inr (Foreign "json: cannot unmarshal into Go value of type apiclient.Annotation")
  end.

Definition read_User (doc : JSON) : User + error :=
  match doc with
  | JObject _ =>
      inl {| User_CID := string_member "_cid" doc;
             User_ContactInfo := {| UserContactInfo_SMS := ""; UserContactInfo_XMPP := "" |};
             User_Email := string_member "email" doc;
             User_Firstname := string_member "firstname" doc;
             User_Lastname := string_member "lastname" doc |}
  | _ => inr (Foreign "json: cannot unmarshal into Go value of type apiclient.User")
  end.

Fixpoint read_all {T : Type} (read : JSON -> T + error) (docs : list JSON) : list T + error :=
  match docs with
  | [] => inl []
  | doc :: rest =>
      match read doc, read_all read rest with
      | inl x, inl xs => inl (x :: xs)
      | inr e, _ => inr e
      | _, inr e => inr e
      end
  end.

Definition read_slice {T : Type} (read : JSON -> T + error) (doc : JSON) : slice T + error :=
  match doc with
  | JNull => inl None
  | JArray docs =>
      match read_all read docs with
      | inl xs => inl (Some xs)
      | inr e => inr e
      end
  | _ => inr (Foreign "json: cannot unmarshal into Go value of type []T")
  end.

#[global] Instance scripted_Maintenance : Decodable JSON Maintenance :=
  {| json_Unmarshal := read_Maintenance |}.
#[global] Instance scripted_Maintenances : Decodable JSON (slice Maintenance) :=
  {| json_Unmarshal := read_slice read_Maintenance |}.
#[global] Instance scripted_Annotation : Decodable JSON Annotation :=
  {| json_Unmarshal := read_Annotation |}.
#[global] Instance scripted_Annotations : Decodable JSON (slice Annotation) :=
  {| json_Unmarshal := read_slice read_Annotation |}.
#[global] Instance scripted_User : Decodable JSON User :=
  {| json_Unmarshal := read_User |}.
#[global] Instance scripted_Users : Decodable JSON (slice User) :=
  {| json_Unmarshal := read_slice read_User |}.

(** A fresh handle on a service that will answer with [script]. *)
Definition scripted_api (script : list (JSON + error)) : API JSON (list (JSON + error)) :=
  {| Debug := false; Log := []; service := script; sent := [] |}.

(** Records for the scenarios. *)
Definition window_of (cid : string) : Maintenance := {|
  Maintenance_Severities := iface_string "1,2";
  Maintenance_CID := cid;
  Maintenance_Item := "";
  Maintenance_Notes := "upgrade";
  Maintenance_Type := "account";
  Maintenance_Tags := Some [];
  Maintenance_Start := 10;
  Maintenance_Stop := 0
|}.

Definition annotation_of (cid : string) : Annotation := {|
  Annotation_Category := "deploy";
  Annotation_CID := cid;
  Annotation_Description := "";
  Annotation_LastModifiedBy := "";
  Annotation_Title := "release";
  Annotation_RelatedMetrics := Some ["m1"];
  Annotation_LastModified := 0;
  Annotation_Created := 0;
  Annotation_Start := 5;
  Annotation_Stop := 6
|}.

Definition user_of (cid : string) : User := {|
  User_CID := cid;
  User_ContactInfo := {| UserContactInfo_SMS := ""; UserContactInfo_XMPP := "" |};
  User_Email := "a@example.com";
  User_Firstname := "A";
  User_Lastname := "B"
|}.

(** Two orders of visiting a map. *)
Definition range_forward (m : gmap string (list string)) : list (string * list string) :=
  map_to_list m.
Definition range_backward (m : gmap string (list string)) : list (string * list string) :=
  reverse (map_to_list m).

(** ** What a run of a method may be asked about *)

(** The four requests of the transport. *)
Inductive Verb : Type := GET | PUT | POST | DELETE.

Definition Call_verb {bytes : Type} (c : Call bytes) : Verb :=
  match c with
  | HTTP_Get _ => GET
  | HTTP_Put _ _ => PUT
  | HTTP_Post _ _ => POST
  | HTTP_Delete _ => DELETE
  end.

Definition Call_path {bytes : Type} (c : Call bytes) : string :=
  match c with
  | HTTP_Get path => path
  | HTTP_Put path _ => path
  | HTTP_Post path _ => path
  | HTTP_Delete path => path
  end.

Definition Call_body {bytes : Type} (c : Call bytes) : option bytes :=
  match c with
  | HTTP_Put _ body => Some body
  | HTTP_Post _ body => Some body
  | _ => None
  end.

(** A run that hands the transport nothing, or one request of the given
    verb; the requests sent before stay as they were, and the remote service
    is what the transport made of it on that one request. *)
Definition one_request_at_most {bytes World A : Type}
    (transport : Call bytes -> World -> (bytes + error) * World) (verb : Verb)
    (m : API bytes World -> A * API bytes World) (a : API bytes World) : Prop :=
  (sent (snd (m a)) = sent a /\ service (snd (m a)) = service a)
  \/ exists c, Call_verb c = verb
       /\ sent (snd (m a)) = sent a ++ [c]
       /\ service (snd (m a)) = snd (transport c (service a)).

(** Go's convention for a result of a pointer and an error: a value and no
    error, or no value and an error. *)
Definition value_or_error {T : Type} (r : option T * option error) : Prop :=
  (exists v, r = (Some v, None)) \/ (exists e, r = (None, Some e)).

(** The same for a result of a boolean and an error. *)
Definition done_or_error (r : bool * option error) : Prop :=
  r = (true, None) \/ exists e, r = (false, Some e).

(** What a method returns when the transport fails on the request it sent. *)
Definition on_transport_error {bytes World A : Type}
    (transport : Call bytes -> World -> (bytes + error) * World)
    (m : API bytes World -> A * API bytes World) (a : API bytes World)
    (answer : error -> A) : Prop :=
  forall c err,
    sends_just m a c -> fst (transport c (service a)) = inr err -> fst (m a) = answer err.

(** What a method returns when the transport answers the request it sent. *)
Definition on_reply {bytes World A : Type}
    (transport : Call bytes -> World -> (bytes + error) * World)
    (m : API bytes World -> A * API bytes World) (a : API bytes World)
    (answer : bytes -> A) : Prop :=
  forall c result,
    sends_just m a c -> fst (transport c (service a)) = inl result -> fst (m a) = answer result.

(** What a method returns when the reply to its request does not decode. *)
Definition on_undecodable {bytes World T : Type} `{!Decodable bytes T}
    (transport : Call bytes -> World -> (bytes + error) * World)
    (m : API bytes World -> (option T * option error) * API bytes World) (a : API bytes World)
    (answer : error -> option T * option error) : Prop :=
  forall c result err,
    sends_just m a c -> fst (transport c (service a)) = inl result ->
    json_Unmarshal result = inr err -> fst (m a) = answer err.

(** A method that returns what the reply to its request decodes to. *)
Definition returns_decoded {bytes World T : Type} `{!Decodable bytes T}
    (transport : Call bytes -> World -> (bytes + error) * World)
    (m : API bytes World -> (option T * option error) * API bytes World) (a : API bytes World) : Prop :=
  forall c result v,
    sends_just m a c -> fst (transport c (service a)) = inl result ->
    json_Unmarshal result = inl v -> fst (m a) = (Some v, None).

(** A run that leaves the debug flag alone, and the log too when debugging
    is off or when it sends nothing. *)
Definition quiet_unless_debugging {bytes World A : Type}
    (m : API bytes World -> A * API bytes World) (a : API bytes World) : Prop :=
  Debug (snd (m a)) = Debug a
  /\ (Debug a = false -> Log (snd (m a)) = Log a)
  /\ (sent (snd (m a)) = sent a -> Log (snd (m a)) = Log a).

(** A run that never writes to the log. *)
Definition never_logs {bytes World A : Type}
    (m : API bytes World -> A * API bytes World) (a : API bytes World) : Prop :=
  Debug (snd (m a)) = Debug a /\ Log (snd (m a)) = Log a.

(** A write that, with debugging on, logs the body it sends under [format],
    whatever the transport then answers. *)
Definition logs_body_sent {bytes World A : Type}
    (m : API bytes World -> A * API bytes World) (a : API bytes World) (format : string) : Prop :=
  Debug a = true ->
  forall c body,
    sends_just m a c -> Call_body c = Some body ->
    Log (snd (m a)) = Log a ++ [(format, body)].

(** A read that, with debugging on, logs the reply it got under [format],
    and nothing when the transport failed. *)
Definition logs_reply_received {bytes World A : Type}
    (transport : Call bytes -> World -> (bytes + error) * World)
    (m : API bytes World -> A * API bytes World) (a : API bytes World) (format : string) : Prop :=
  Debug a = true ->
  forall c,
    sends_just m a c ->
    Log (snd (m a))
    = match fst (transport c (service a)) with
      | inl result => Log a ++ [(format, result)]
      | inr _ => Log a
      end.

(** A run whose request, if it sends one, goes to a path with property [P]. *)
Definition requests_only {bytes World A : Type} (P : string -> Prop)
    (m : API bytes World -> A * API bytes World) (a : API bytes World) : Prop :=
  forall c, sends_just m a c -> P (Call_path c).

(** A path that starts with [prefix] and that [pattern] accepts. *)
Definition accepted_below (prefix : string) (pattern : Pattern) (path : string) : Prop :=
  strings_HasPrefix path prefix = true /\ regexp_MatchString pattern path = (true, None).

(** A path that [pattern] accepts. *)
Definition accepted (pattern : Pattern) (path : string) : Prop :=
  regexp_MatchString pattern path = (true, None).

(** The query values a Search builds before it encodes them: the query under
    [search] when it is there and not empty, then the filters. *)
Definition search_values (range_map : gmap string (list string) -> list (string * list string))
    (searchCriteria : option string) (filterCriteria : option (gmap string (list string)))
    : gmap string (list string) :=
  let q : Values := ∅ in
  let q :=
    match searchCriteria with
    | Some s => if negb (String.eqb s "") then Values_Set "search" s q else q
    | None => q
    end in
  match filterCriteria with
  | Some f => if Nat.ltb 0 (size f) then add_filters range_map f q else q
  | None => q
  end.

(** A filter none of whose keys has a value. *)
Definition no_filter_values (f : gmap string (list string)) : Prop :=
  forall k vs, f !! k = Some vs -> vs = [].
(** A Search that asks for nothing: no query, or the empty one, and no
    filter, or one none of whose keys has a value. *)
Definition asks_nothing (searchCriteria : option string)
    (filterCriteria : option (gmap string (list string))) : Prop :=
  (searchCriteria = None \/ searchCriteria = Some "")
  /\ (forall f, filterCriteria = Some f -> no_filter_values f).
(** A delete on the identifier that resolved to [resolved]: when the resolver
    refused, the refusal is returned and the handle is untouched; otherwise
    the one request is the delete of the resolved path, the service is left
    as the transport left it after that delete, nothing is logged, and the
    result is [true] without an error if the transport answered and [false]
    with the error of the transport, wrapped under [context], if it failed. *)
Definition deletes_resolved {bytes World : Type}
    (transport : Call bytes -> World -> (bytes + error) * World)
    (m : API bytes World -> (bool * option error) * API bytes World) (a : API bytes World)
    (resolved : string + error) (context : string) : Prop :=
  match resolved with
  | inr e => returns_untouched m a (false, Some e)
  | inl path =>
      sends_just m a (HTTP_Delete path)
      /\ service (snd (m a)) = snd (transport (HTTP_Delete path) (service a))
      /\ never_logs m a
      /\ fst (m a)
         = match fst (transport (HTTP_Delete path) (service a)) with
           | inl _ => (true, None)
           | inr err => (false, Some (errors_Wrap err context))
           end
  end.

(** ** The query string a Search is to send

    Stated from the arguments of the Search alone: no map is built and no
    order of visit is involved. *)

(** The values asked for under the key [k]: the query, under [search], when
    it is there and not empty; then the values the filter has for [k], in
    the order in which the caller gave them. *)
Definition asked_values (searchCriteria : option string)
    (filterCriteria : option (gmap string (list string))) (k : string) : list string :=
  match searchCriteria with
  | Some s => if negb (String.eqb s "") && String.eqb k "search" then [s] else []
  | None => []
  end
  ++ match filterCriteria with
     | Some f => default [] (f !! k)
     | None => []
     end.

(** The values a map of query values holds under [k]. *)
Definition held_values (q : gmap string (list string)) (k : string) : list string :=
  default [] (q !! k).

(** The keys that have a value, in ascending order, each once. *)
Definition keys_in_order (values : string -> list string) (keys : list string) : Prop :=
  Sorted string_le keys /\ NoDup keys /\ forall k, k ∈ keys <-> values k <> [].

(** One pair [key=value] of a query string, both sides escaped. *)
Definition query_pair (k v : string) : string := QueryEscape k +:+ "=" +:+ QueryEscape v.

(** The pairs under [keys], key after key, and under each key value after
    value. *)
Definition query_pairs (keys : list string) (values : string -> list string) : list string :=
  flat_map (fun k => query_pair k <$> values k) keys.

(** The query string: the pairs, with [&] between two of them. *)
Definition query_string (keys : list string) (values : string -> list string) : string :=
  String.concat "&" (query_pairs keys values).

(** The path and query of the request of a Search: the collection prefix
    alone when there is no query string, the URL of the prefix and the
    query string otherwise. *)
Definition search_url (prefix query : string) : string :=
  if String.eqb query "" then prefix else URL_String prefix query.

(** * Properties *)

#[local] Arguments String.append !_ _ / : simpl nomatch.

(** ** The matcher decides the language of the pattern *)

Lemma append_empty_inv (s1 s2 : string) : s1 +:+ s2 = "" -> s1 = "" /\ s2 = "".
Proof. destruct s1; simpl; [tauto | discriminate]. Qed.

Lemma nullable_Matches (r : Regexp) : nullable r = true <-> Matches r "".
Proof.
  split.
  - induction r as [| |p|r1 IH1 r2 IH2|r1 IH1 r2 IH2|r IH]; simpl; intros Hn;
      try discriminate.
    + constructor.
    + apply andb_true_iff in Hn as [H1 H2].
      apply (Matches_Seq r1 r2 "" ""); auto.
    + apply orb_true_iff in Hn as [H1 | H2];
        [apply Matches_Alt_l | apply Matches_Alt_r]; auto.
    + constructor.
  - intros Hm. remember EmptyString as w eqn:Ew.
    induction Hm as [|p c Hp|r1 r2 s1 s2 H1 IH1 H2 IH2|r1 r2 s H IH|r1 r2 s H IH| |r s1 s2 H1 IH1 H2 IH2];
      simpl; auto; try discriminate.
    + apply append_empty_inv in Ew as [-> ->]. rewrite IH1, IH2; auto.
    + rewrite IH; auto.
    + rewrite IH; auto using orb_true_r.
Qed.

Lemma deriv_sound (c : ascii) (r : Regexp) :
  forall s, Matches (deriv c r) s -> Matches r (String c s).
Proof.
  induction r as [| |p|r1 IH1 r2 IH2|r1 IH1 r2 IH2|r IH]; simpl; intros s Hm.
  - inversion Hm.
  - inversion Hm.
  - destruct (p c) eqn:Hp; inversion Hm; subst. by constructor.
  - assert (Hseq : forall w, Matches (Seq (deriv c r1) r2) w -> Matches (Seq r1 r2) (String c w)).
    { intros w Hw. inversion Hw as [| |? ? s1 s2 Ha Hb| | | |]; subst.
      apply (Matches_Seq r1 r2 (String c s1) s2); auto. }
    destruct (nullable r1) eqn:Hn; [|auto].
    inversion Hm; subst; [auto|].
    apply (Matches_Seq r1 r2 "" (String c s)); [by apply nullable_Matches | auto].
  - inversion Hm; subst; [apply Matches_Alt_l | apply Matches_Alt_r]; auto.
  - inversion Hm as [| |? ? s1 s2 Ha Hb| | | |]; subst.
    apply (Matches_Star_cons r (String c s1) s2); auto.
Qed.

Lemma deriv_complete (c : ascii) (r : Regexp) (w : string) :
  Matches r w -> forall s, w = String c s -> Matches (deriv c r) s.
Proof.
  induction 1 as [|p c' Hp|r1 r2 s1 s2 H1 IH1 H2 IH2|r1 r2 s' H IH|r1 r2 s' H IH| |r s1 s2 H1 IH1 H2 IH2];
    intros s Ew; simpl.
  - discriminate.
  - injection Ew as -> <-. rewrite Hp. constructor.
  - destruct s1 as [|c1 s1]; simpl in Ew.
    + subst s2. apply nullable_Matches in H1. rewrite H1.
      apply Matches_Alt_r; auto.
    + injection Ew as -> <-.
      assert (Matches (Seq (deriv c r1) r2) (s1 +:+ s2)) by (constructor; auto).
      destruct (nullable r1); [by apply Matches_Alt_l | done].
  - apply Matches_Alt_l; auto.
  - apply Matches_Alt_r; auto.
  - discriminate.
  - destruct s1 as [|c1 s1]; simpl in Ew.
    + subst s2. apply (IH2 s eq_refl).
    + injection Ew as -> <-. constructor; auto.
Qed.

Lemma full_match_Matches (r : Regexp) (s : string) : full_match r s = true <-> Matches r s.
Proof.
  revert r. induction s as [|c s IH]; intros r; simpl.
  - apply nullable_Matches.
  - rewrite IH. split; [apply deriv_sound | intros H; by apply (deriv_complete c r _ H)].
Qed.

Lemma Matches_Lit (p s : string) : Matches (Lit p) s -> s = p.
Proof.
  revert s. induction p as [|c p IH]; simpl; intros s Hm.
  - by inversion Hm.
  - inversion Hm as [| |? ? s1 s2 Ha Hb| | | |]; subst.
    inversion Ha; subst. apply IH in Hb as ->.
    simpl. f_equal. symmetry. by apply Ascii.eqb_eq.
Qed.

Lemma prefix_append (p s : string) : String.prefix p (p +:+ s) = true.
Proof.
  induction p as [|c p IH]; simpl; [by destruct s|].
  destruct (ascii_dec c c); [done | congruence].
Qed.

Lemma append_assoc (s1 s2 s3 : string) : (s1 +:+ s2) +:+ s3 = s1 +:+ (s2 +:+ s3).
Proof. induction s1 as [|c s1 IH]; simpl; [done | by rewrite IH]. Qed.

Lemma String_length_append (s1 s2 : string) :
  String.length (s1 +:+ s2) = String.length s1 + String.length s2.
Proof. induction s1 as [|c s1 IH]; simpl; [done | by rewrite IH]. Qed.

(** The patterns modelled from the spec accept only paths that start with
    the prefix. *)
Lemma cid_pattern_below_prefix (prefix : string) : below_prefix prefix (cid_pattern prefix).
Proof.
  intros s Hs. unfold cid_pattern, regexp_MatchString. f_equal.
  apply not_true_is_false. intros Hm. apply full_match_Matches in Hm.
  inversion Hm as [| |? ? s1 s2 Ha Hb| | | |]; subst.
  apply Matches_Lit in Ha as ->.
  unfold strings_HasPrefix in Hs. rewrite append_assoc, prefix_append in Hs. done.
Qed.

(** They never accept a path that does not continue after the slash; the
    empty text in particular. *)
Lemma cid_pattern_empty (prefix : string) : regexp_MatchString (cid_pattern prefix) "" = (false, None).
Proof.
  unfold cid_pattern, regexp_MatchString. f_equal.
  apply not_true_is_false. intros Hm. apply full_match_Matches in Hm.
  assert (Hseq : forall r1 r2 w, Matches (Seq r1 r2) w -> w = "" -> Matches r1 "").
  { intros r1 r2 w Hw Ew. inversion Hw as [| |? ? s1 s2 Ha Hb [E1 E2] Es| | | |].
    rewrite Ew in Es. by apply append_empty_inv in Es as [-> _]. }
  apply Hseq in Hm; [|done]. apply Matches_Lit in Hm.
  destruct prefix; discriminate.
Qed.

Example spec_pattern_examples :
  regexp_MatchString (cid_pattern "/maintenance") "/maintenance/abc123" = (true, None)
  /\ regexp_MatchString (cid_pattern "/maintenance") "/maintenance/abc 123" = (false, None)
  /\ regexp_MatchString (cid_pattern "/maintenance") "/maintenance/" = (false, None)
  /\ regexp_MatchString (cid_pattern "/maintenance") "abc123" = (false, None)
  /\ regexp_MatchString (cid_pattern "/user") "/user/current" = (true, None).
Proof. repeat split; reflexivity. Qed.

Example Maintenance_document_example :
  document {| Maintenance_Severities := iface_string "1,2"; Maintenance_CID := "/maintenance/1234";
              Maintenance_Item := ""; Maintenance_Notes := "upgrade"; Maintenance_Type := "account";
              Maintenance_Tags := Some []; Maintenance_Start := 10; Maintenance_Stop := 0 |}
  = inl (JObject [("severities", JString "1,2"); ("_cid", JString "/maintenance/1234");
                  ("notes", JString "upgrade"); ("type", JString "account"); ("start", JNumber 10)]).
Proof. reflexivity. Qed.

Example Annotation_document_example :
  document NewAnnotation
  = inl (JObject [("category", JString ""); ("description", JString ""); ("title", JString "");
                  ("rel_metrics", JNull); ("start", JNumber 0); ("stop", JNumber 0)]).
Proof. reflexivity. Qed.

(** ** The order on strings and the sorted keys *)

Lemma string_compare_trans (s1 : string) :
  forall s2 s3, String.compare s1 s2 <> Gt -> String.compare s2 s3 <> Gt -> String.compare s1 s3 <> Gt.
Proof.
  induction s1 as [|c1 s1 IH]; intros [|c2 s2] [|c3 s3]; simpl; try congruence.
  unfold Ascii.compare.
  destruct (N.compare_spec (N_of_ascii c1) (N_of_ascii c2)),
           (N.compare_spec (N_of_ascii c2) (N_of_ascii c3)),
           (N.compare_spec (N_of_ascii c1) (N_of_ascii c3));
    try congruence; try lia; eauto.
Qed.

#[global] Instance string_le_total : Total string_le.
Proof. intros s1 s2. apply String.leb_total. Qed.

#[global] Instance string_le_antisymm : AntiSymm (=) string_le.
Proof. intros s1 s2. apply String.leb_antisym. Qed.

#[global] Instance string_le_trans : Transitive string_le.
Proof.
  intros s1 s2 s3. unfold string_le, String.leb. intros H12 H23.
  pose proof (string_compare_trans s1 s2 s3) as Ht.
  destruct (String.compare s1 s2), (String.compare s2 s3), (String.compare s1 s3);
    try done; exfalso; apply Ht; congruence.
Qed.

(** Sorting forgets the order in which the keys were collected. *)
Lemma sorted_keys_unique (l1 l2 : list string) :
  l1 ≡ₚ l2 -> merge_sort string_le l1 = merge_sort string_le l2.
Proof.
  intros Hp. apply (Sorted_unique string_le).
  - apply Sorted_merge_sort, _.
  - apply Sorted_merge_sort, _.
  - by rewrite !merge_sort_Permutation.
Qed.

(** ** The filter loops *)

Lemma appended_nil (old : option (list string)) : appended old [] = old.
Proof. done. Qed.

Lemma lookup_add_values (k : string) (vs : list string) :
  forall (q : gmap string (list string)) (k' : string),
    fold_left (fun q val => Values_Add k val q) vs q !! k'
    = if decide (k = k') then appended (q !! k) vs else q !! k'.
Proof.
  induction vs as [|v vs IH]; intros q k'; simpl.
  - by case_decide; subst.
  - rewrite IH. unfold Values_Add. case_decide as Hk.
    + rewrite lookup_insert_eq. destruct vs as [|v' vs]; simpl; [done|].
      by rewrite <- app_assoc.
    + by rewrite lookup_insert_ne.
Qed.

Lemma lookup_add_entries (l : list (string * list string)) :
  forall (q : gmap string (list string)) (k : string),
    NoDup l.*1 ->
    fold_left (fun q '(filter, criteria) =>
      fold_left (fun q val => Values_Add filter val q) criteria q) l q !! k
    = appended (q !! k) (default [] ((list_to_map l : gmap string (list string)) !! k)).
Proof.
  induction l as [|[k0 vs0] l IH]; intros q k Hnd; simpl.
  - by rewrite lookup_empty.
  - apply NoDup_cons in Hnd as [Hk0 Hnd]. rewrite IH by done.
    rewrite lookup_add_values. case_decide as Hk.
    + subst k. rewrite lookup_insert_eq.
      assert (Hnone : (list_to_map l : gmap string (list string)) !! k0 = None)
        by (by apply not_elem_of_list_to_map_1).
      by rewrite Hnone.
    + by rewrite lookup_insert_ne.
Qed.

Lemma lookup_add_filters (range_map : gmap string (list string) -> list (string * list string))
    (f q : gmap string (list string)) (k : string) :
  visits_each_entry_once range_map ->
  add_filters range_map f q !! k = appended (q !! k) (default [] (f !! k)).
Proof.
  intros Hr. unfold add_filters.
  rewrite lookup_add_entries.
  - f_equal. f_equal. f_equal.
    rewrite <- (list_to_map_to_list f) at 2.
    apply list_to_map_proper; [|apply Hr].
    rewrite (Hr f). apply NoDup_fst_map_to_list.
  - rewrite (Hr f). apply NoDup_fst_map_to_list.
Qed.

(** The map the loops build does not depend on the order of the visit. *)
Lemma add_filters_range (r1 r2 : gmap string (list string) -> list (string * list string))
    (f q : gmap string (list string)) :
  visits_each_entry_once r1 -> visits_each_entry_once r2 ->
  add_filters r1 f q = add_filters r2 f q.
Proof.
  intros H1 H2. apply map_eq. intros k. by rewrite !lookup_add_filters.
Qed.

(** Nor does the text the encoder writes. *)
Lemma Values_Encode_range (r1 r2 : gmap string (list string) -> list (string * list string))
    (v : gmap string (list string)) :
  visits_each_entry_once r1 -> visits_each_entry_once r2 ->
  Values_Encode r1 v = Values_Encode r2 v.
Proof.
  intros H1 H2. unfold Values_Encode.
  rewrite (sorted_keys_unique (r1 v).*1 (r2 v).*1); [done|].
  by rewrite (H1 v), (H2 v).
Qed.

(** ** The text the encoder writes *)

(** One turn of the inner loop of the encoder. *)
Lemma encode_values_pairs (k : string) (vs : list string) :
  forall buf : string,
    fold_left (fun buf val =>
      (if Nat.ltb 0 (String.length buf) then buf +:+ "&" else buf)
      +:+ QueryEscape k +:+ "=" +:+ QueryEscape val) vs buf
    = fold_left (fun buf pair =>
        (if Nat.ltb 0 (String.length buf) then buf +:+ "&" else buf) +:+ pair)
        (query_pair k <$> vs) buf.
Proof. induction vs as [|v vs IH]; intros buf; [done|]. simpl fold_left. by rewrite IH. Qed.

Lemma encode_keys_pairs (values : string -> list string) (keys : list string) :
  forall buf : string,
    fold_left (fun buf k =>
      fold_left (fun buf val =>
        (if Nat.ltb 0 (String.length buf) then buf +:+ "&" else buf)
        +:+ QueryEscape k +:+ "=" +:+ QueryEscape val) (values k) buf) keys buf
    = fold_left (fun buf pair =>
        (if Nat.ltb 0 (String.length buf) then buf +:+ "&" else buf) +:+ pair)
        (query_pairs keys values) buf.
Proof.
  induction keys as [|k keys IH]; intros buf; [done|].
  unfold query_pairs. simpl fold_left. simpl flat_map.
  rewrite fold_left_app, <- encode_values_pairs. apply IH.
Qed.

Lemma query_pair_not_empty (k v : string) : query_pair k v <> "".
Proof.
  unfold query_pair. intros E. apply (f_equal String.length) in E.
  rewrite !String_length_append in E. simpl in E. lia.
Qed.

(** Pairs written after a text that is not empty each come after an [&]. *)
Lemma join_pairs_after (pairs : list string) :
  forall buf : string,
    buf <> "" ->
    fold_left (fun buf pair =>
      (if Nat.ltb 0 (String.length buf) then buf +:+ "&" else buf) +:+ pair) pairs buf
    = match pairs with
      | [] => buf
      | _ :: _ => buf +:+ "&" +:+ String.concat "&" pairs
      end.
Proof.
  induction pairs as [|p pairs IH]; intros buf Hbuf; [done|].
  simpl fold_left.
  assert (Hlt : Nat.ltb 0 (String.length buf) = true).
  { apply Nat.ltb_lt. destruct buf; [done | simpl; lia]. }
  rewrite Hlt. rewrite IH.
  - destruct pairs as [|p' pairs]; [by rewrite append_assoc|].
    change (String.concat "&" (p :: p' :: pairs))
      with (p +:+ "&" +:+ String.concat "&" (p' :: pairs)).
    by rewrite !append_assoc.
  - intros E. apply (f_equal String.length) in E.
    rewrite !String_length_append in E. simpl in E. lia.
Qed.

(** Pairs, none of them empty, written from the start are joined by [&]. *)
Lemma join_pairs (pairs : list string) :
  Forall (fun p => p <> "") pairs ->
  fold_left (fun buf pair =>
    (if Nat.ltb 0 (String.length buf) then buf +:+ "&" else buf) +:+ pair) pairs ""
  = String.concat "&" pairs.
Proof.
  destruct pairs as [|p pairs]; [done|]. intros Hne.
  apply Forall_cons in Hne as [Hp _].
  simpl fold_left. rewrite join_pairs_after by done.
  by destruct pairs.
Qed.

Lemma query_pairs_not_empty (keys : list string) (values : string -> list string) :
  Forall (fun p => p <> "") (query_pairs keys values).
Proof.
  apply Forall_forall. intros p Hp. unfold query_pairs in Hp.
  apply list_elem_of_In, in_flat_map in Hp as (k & _ & Hp).
  apply list_elem_of_In, list_elem_of_fmap in Hp as (v & -> & _).
  apply query_pair_not_empty.
Qed.

(** Keys without a value write nothing. *)
Lemma query_pairs_filter (values : string -> list string) (keys : list string) :
  query_pairs (filter (fun k => values k <> []) keys) values = query_pairs keys values.
Proof.
  unfold query_pairs. induction keys as [|k keys IH]; [done|].
  rewrite filter_cons. case_decide as Hk; simpl flat_map; [by rewrite IH|].
  by rewrite Hk.
Qed.

Lemma query_pairs_ext (values1 values2 : string -> list string) (keys : list string) :
  (forall k, values1 k = values2 k) -> query_pairs keys values1 = query_pairs keys values2.
Proof.
  intros He. unfold query_pairs. induction keys as [|k keys IH]; [done|].
  simpl. by rewrite He, IH.
Qed.

Lemma keys_in_order_ext (values1 values2 : string -> list string) (keys : list string) :
  (forall k, values1 k = values2 k) -> keys_in_order values1 keys -> keys_in_order values2 keys.
Proof.
  intros He (Hs & Hn & Hk). split_and!; [done | done |].
  intros k. by rewrite <- He.
Qed.

Lemma sorted_filter (P : string -> Prop) `{!forall k, Decision (P k)} (keys : list string) :
  StronglySorted string_le keys -> StronglySorted string_le (filter P keys).
Proof.
  induction 1 as [|k keys Hs IH Hk]; [constructor|].
  rewrite filter_cons. case_decide; [|done]. constructor; [done|].
  apply Forall_forall. intros k' Hk'. apply list_elem_of_filter in Hk' as [_ Hk'].
  by apply (proj1 (Forall_forall _ _) Hk).
Qed.

(** The sorted keys of a map, those without a value left out, are the keys
    in order; and they are the only list that is. *)
Lemma sorted_keys_in_order (q : gmap string (list string)) :
  keys_in_order (held_values q)
    (filter (fun k => held_values q k <> []) (merge_sort string_le (map_to_list q).*1)).
Proof.
  assert (Hss : StronglySorted string_le (merge_sort string_le (map_to_list q).*1)).
  { apply StronglySorted_merge_sort; apply _. }
  split_and!.
  - apply StronglySorted_Sorted. by apply sorted_filter.
  - apply NoDup_filter. rewrite merge_sort_Permutation. apply NoDup_fst_map_to_list.
  - intros k. rewrite list_elem_of_filter, merge_sort_Permutation. split; [by intros [? _]|].
    intros Hk. split; [done|]. unfold held_values in Hk.
    destruct (q !! k) as [vs|] eqn:Hq; [|done].
    apply list_elem_of_fmap. exists (k, vs). split; [done|]. by apply elem_of_map_to_list.
Qed.

Lemma keys_in_order_unique (values : string -> list string) (keys1 keys2 : list string) :
  keys_in_order values keys1 -> keys_in_order values keys2 -> keys1 = keys2.
Proof.
  intros (Hs1 & Hn1 & Hk1) (Hs2 & Hn2 & Hk2).
  apply (Sorted_unique string_le); [done | done |].
  apply NoDup_Permutation; [done | done |].
  intros k. by rewrite Hk1, Hk2.
Qed.

(** What the encoder writes: the pairs of the keys in order, joined by
    [&]. *)
Lemma Values_Encode_query_string
    (range_map : gmap string (list string) -> list (string * list string))
    (q : gmap string (list string)) (keys : list string) :
  visits_each_entry_once range_map ->
  keys_in_order (held_values q) keys ->
  Values_Encode range_map q = query_string keys (held_values q).
Proof.
  intros Hr Hkeys.
  rewrite (keys_in_order_unique _ _ _ Hkeys (sorted_keys_in_order q)).
  unfold query_string. rewrite query_pairs_filter.
  unfold Values_Encode. destruct (Nat.eqb (size q) 0) eqn:Hs.
  - apply Nat.eqb_eq, map_size_empty_inv in Hs. subst q. by rewrite map_to_list_empty.
  - cbv zeta. rewrite (sorted_keys_unique (range_map q).*1 (map_to_list q).*1) by (by rewrite (Hr q)).
    change (fun buf k => fold_left _ (default [] (q !! k)) buf)
      with (fun buf k =>
              fold_left (fun buf val =>
                (if Nat.ltb 0 (String.length buf) then buf +:+ "&" else buf)
                +:+ QueryEscape k +:+ "=" +:+ QueryEscape val) (held_values q k) buf).
    rewrite (encode_keys_pairs (held_values q)). apply join_pairs, query_pairs_not_empty.
Qed.

(** ** The values a Search builds *)

(** The values a Search builds, key by key. *)
Lemma lookup_search_values (range_map : gmap string (list string) -> list (string * list string))
    (searchCriteria : option string) (filterCriteria : option (gmap string (list string))) (k : string) :
  visits_each_entry_once range_map ->
  search_values range_map searchCriteria filterCriteria !! k
  = appended
      (match searchCriteria with
       | Some s => if negb (String.eqb s "") && String.eqb k "search" then Some [s] else None
       | None => None
       end)
      (match filterCriteria with
       | Some f => default [] (f !! k)
       | None => []
       end).
Proof.
  intros Hr. unfold search_values.
  assert (Hq : forall q : gmap string (list string),
    match filterCriteria with
    | Some f => if Nat.ltb 0 (size f) then add_filters range_map f q else q
    | None => q
    end !! k
    = appended (q !! k) (match filterCriteria with Some f => default [] (f !! k) | None => [] end)).
  { intros q. destruct filterCriteria as [f|]; [|done].
    destruct (Nat.ltb 0 (size f)) eqn:Hs; [by apply lookup_add_filters|].
    apply Nat.ltb_ge in Hs. assert (f = ∅) as -> by (apply map_size_empty_inv; lia).
    by rewrite lookup_empty. }
  rewrite Hq. f_equal.
  destruct searchCriteria as [s|]; [|by rewrite lookup_empty].
  destruct (String.eqb s "") eqn:Hs; cbn [negb andb]; [by rewrite lookup_empty|].
  unfold Values_Set. destruct (String.eqb k "search") eqn:Hk.
  - apply String.eqb_eq in Hk as ->. by rewrite lookup_insert_eq.
  - apply String.eqb_neq in Hk. rewrite lookup_insert_ne by done. by rewrite lookup_empty.
Qed.

(** Under every key the values built are the values asked for. *)
Lemma held_search_values (range_map : gmap string (list string) -> list (string * list string))
    (searchCriteria : option string) (filterCriteria : option (gmap string (list string))) (k : string) :
  visits_each_entry_once range_map ->
  held_values (search_values range_map searchCriteria filterCriteria) k
  = asked_values searchCriteria filterCriteria k.
Proof.
  intros Hr. unfold held_values, asked_values. rewrite lookup_search_values by done.
  destruct (match filterCriteria with Some f => default [] (f !! k) | None => [] end) as [|v vs];
    destruct searchCriteria as [s|]; cbn [appended default]; try done;
    destruct (negb (String.eqb s "") && String.eqb k "search"); cbn [default app];
    by rewrite ?app_nil_r.
Qed.

(** There is a list of the keys asked for, in order. *)
Lemma asked_keys_in_order (searchCriteria : option string)
    (filterCriteria : option (gmap string (list string))) :
  exists keys, keys_in_order (asked_values searchCriteria filterCriteria) keys.
Proof.
  eexists. apply (keys_in_order_ext (held_values (search_values map_to_list searchCriteria filterCriteria))).
  - intros k. apply held_search_values. by intros m.
  - apply sorted_keys_in_order.
Qed.

(** What the encoder writes for a Search. *)
Lemma search_query_string (range_map : gmap string (list string) -> list (string * list string))
    (searchCriteria : option string) (filterCriteria : option (gmap string (list string)))
    (keys : list string) :
  visits_each_entry_once range_map ->
  keys_in_order (asked_values searchCriteria filterCriteria) keys ->
  Values_Encode range_map (search_values range_map searchCriteria filterCriteria)
  = query_string keys (asked_values searchCriteria filterCriteria).
Proof.
  intros Hr Hkeys.
  rewrite (Values_Encode_query_string range_map _ keys Hr).
  - unfold query_string. f_equal. apply query_pairs_ext. intros k. by apply held_search_values.
  - apply (keys_in_order_ext (asked_values searchCriteria filterCriteria)); [|done].
    intros k. symmetry. by apply held_search_values.
Qed.

(** ** The client methods *)

(** Unfolding a method down to the transport. *)
Ltac unfold_method :=
  unfold returns_untouched, sends_just,
    API_Get, API_Put, API_Post, API_Delete, request, debug_Printf, json_Marshal,
    mbind, mret, M_bind, M_ret.

(** Running a method: case analysis on every test the method makes on the
    way, in the order in which it makes them; [transport] is the
    transport in use. *)
Ltac run_method transport :=
  unfold_method;
  repeat first
    [ progress cbn [fst snd sent service Debug Log]
    | match goal with
      | |- context [regexp_MatchString ?p ?s] => destruct (regexp_MatchString p s) as [[|] [?|]] eqn:?
      | |- context [document ?c] => destruct (document c) as [?|?] eqn:?
      | |- context [Debug ?a] => destruct (Debug a) eqn:?
      | |- context [transport ?c ?w] => destruct (transport c w) as [[?|?] ?] eqn:?
      | |- context [json_Unmarshal ?b] => destruct (json_Unmarshal b) as [?|?] eqn:?
      end ].

Section ClientFacts.
Context {bytes World : Type}.
Variable transport : Call bytes -> World -> (bytes + error) * World.
Variable json_render : JSON -> bytes.
Context `{!Decodable bytes Maintenance, !Decodable bytes (slice Maintenance),
          !Decodable bytes Annotation, !Decodable bytes (slice Annotation),
          !Decodable bytes User, !Decodable bytes (slice User)}.
Variable config : Config.

Implicit Types (a : API bytes World) (cid : CIDType).

(** *** The validating prologue is the resolver *)

Lemma FetchMaintenanceWindow_resolve cid a :
  match resolve "maintenance window" cid (MaintenancePrefix config) (MaintenanceCIDRegex config) with
  | inr e => returns_untouched (FetchMaintenanceWindow transport config cid) a (None, Some e)
  | inl path => sends_just (FetchMaintenanceWindow transport config cid) a (HTTP_Get path)
  end.
Proof.
  unfold resolve, normalize, FetchMaintenanceWindow, Sprintf_slash.
  destruct cid as [id|]; [|done].
  destruct (String.eqb id ""); [done|].
  destruct (strings_HasPrefix id (MaintenancePrefix config)); cbn [negb];
    run_method transport; done.
Qed.
Lemma DeleteMaintenanceWindowByCID_resolve cid a :
  match resolve "maintenance window" cid (MaintenancePrefix config) (MaintenanceCIDRegex config) with
  | inr e => returns_untouched (DeleteMaintenanceWindowByCID transport config cid) a (false, Some e)
  | inl path => sends_just (DeleteMaintenanceWindowByCID transport config cid) a (HTTP_Delete path)
  end.
Proof.
  unfold resolve, normalize, DeleteMaintenanceWindowByCID, Sprintf_slash.
  destruct cid as [id|]; [|done].
  destruct (String.eqb id ""); [done|].
  destruct (strings_HasPrefix id (MaintenancePrefix config)); cbn [negb];
    run_method transport; done.
Qed.

Lemma FetchAnnotation_resolve cid a :
  match resolve "annotation" cid (AnnotationPrefix config) (AnnotationCIDRegex config) with
  | inr e => returns_untouched (FetchAnnotation transport config cid) a (None, Some e)
  | inl path => sends_just (FetchAnnotation transport config cid) a (HTTP_Get path)
  end.
Proof.
  unfold resolve, normalize, FetchAnnotation, Sprintf_slash.
  destruct cid as [id|]; [|done].
  destruct (String.eqb id ""); [done|].
  destruct (strings_HasPrefix id (AnnotationPrefix config)); cbn [negb];
    run_method transport; done.
Qed.

Lemma DeleteAnnotationByCID_resolve cid a :
  match resolve "annotation" cid (AnnotationPrefix config) (AnnotationCIDRegex config) with
  | inr e => returns_untouched (DeleteAnnotationByCID transport config cid) a (false, Some e)
  | inl path => sends_just (DeleteAnnotationByCID transport config cid) a (HTTP_Delete path)
  end.
Proof.
  unfold resolve, normalize, DeleteAnnotationByCID, Sprintf_slash.
  destruct cid as [id|]; [|done].
  destruct (String.eqb id ""); [done|].
  destruct (strings_HasPrefix id (AnnotationPrefix config)); cbn [negb];
    run_method transport; done.
Qed.

(** [FetchUser] has the same prologue for an identifier that is there. *)
Lemma FetchUser_resolve (id : string) a :
  id <> "" ->
  match resolve "user" (Some id) (UserPrefix config) (UserCIDRegex config) with
  | inr e => returns_untouched (FetchUser transport config (Some id)) a (None, Some e)
  | inl path => sends_just (FetchUser transport config (Some id)) a (HTTP_Get path)
  end.
Proof.
  intros Hid. apply String.eqb_neq in Hid.
  unfold resolve, normalize, FetchUser, Sprintf_slash. rewrite Hid.
  destruct (strings_HasPrefix id (UserPrefix config)); cbn [negb];
    run_method transport; done.
Qed.

(** What [resolve] answers for an identifier that is there. *)
Lemma resolve_nonempty (kind id prefix : string) (pattern : Pattern) :
  id <> "" ->
  resolve kind (Some id) prefix pattern
  = match regexp_MatchString pattern (normalize prefix id) with
    | (_, Some err) => inr err
    | (true, None) => inl (normalize prefix id)
    | (false, None) => inr (InvalidIdentifier kind (normalize prefix id))
    end.
Proof. intros Hid. apply String.eqb_neq in Hid. unfold resolve. by rewrite Hid. Qed.

Lemma normalize_nonempty (prefix id : string) : id <> "" -> normalize prefix id <> "".
Proof.
  unfold normalize. intros Hid. destruct (strings_HasPrefix id prefix); [done|].
  destruct prefix; simpl; [discriminate | discriminate].
Qed.

Lemma normalize_has_prefix (prefix id : string) :
  strings_HasPrefix (normalize prefix id) prefix = true.
Proof.
  unfold normalize. destruct (strings_HasPrefix id prefix) eqn:Hp; [done|].
  apply prefix_append.
Qed.

(** A normalized path is its own normal form. *)
Lemma normalize_idempotent (prefix id : string) :
  normalize prefix (normalize prefix id) = normalize prefix id.
Proof.
  unfold normalize at 1. by rewrite normalize_has_prefix.
Qed.

(** A path that [resolve] returns resolves to itself. *)
Lemma resolve_fixpoint (kind : string) cid (prefix : string) (pattern : Pattern) (path : string) :
  resolve kind cid prefix pattern = inl path ->
  path <> "" /\ normalize prefix path = path /\ resolve kind (Some path) prefix pattern = inl path.
Proof.
  unfold resolve at 1. destruct cid as [id|]; [|done].
  destruct (String.eqb id "") eqn:Hid; [done|]. apply String.eqb_neq in Hid.
  destruct (regexp_MatchString pattern (normalize prefix id)) as [[|] [e|]] eqn:Hm; try done.
  intros [= <-].
  pose proof (normalize_nonempty prefix id Hid) as Hne.
  split; [done|]. split; [apply normalize_idempotent|].
  rewrite resolve_nonempty by done. by rewrite normalize_idempotent, Hm.
Qed.

(** *** Update matches the identifier of the record as it is *)

Lemma UpdateMaintenanceWindow_checks (cfg : Maintenance) a :
  match regexp_MatchString (MaintenanceCIDRegex config) (Maintenance_CID cfg) with
  | (_, Some err) =>
      returns_untouched (UpdateMaintenanceWindow transport json_render config (Some cfg)) a (None, Some err)
  | (false, None) =>
      returns_untouched (UpdateMaintenanceWindow transport json_render config (Some cfg)) a
        (None, Some (InvalidIdentifier "maintenance window" (Maintenance_CID cfg)))
  | (true, None) =>
      match document cfg with
      | inr err =>
          returns_untouched (UpdateMaintenanceWindow transport json_render config (Some cfg)) a (None, Some err)
      | inl doc =>
          sent (snd (UpdateMaintenanceWindow transport json_render config (Some cfg) a))
          = sent a ++ [HTTP_Put (Maintenance_CID cfg) (json_render doc)]
      end
  end.
Proof. unfold UpdateMaintenanceWindow. run_method transport; done. Qed.

Lemma UpdateAnnotation_checks (cfg : Annotation) a :
  match regexp_MatchString (AnnotationCIDRegex config) (Annotation_CID cfg) with
  | (_, Some err) =>
      returns_untouched (UpdateAnnotation transport json_render config (Some cfg)) a (None, Some err)
  | (false, None) =>
      returns_untouched (UpdateAnnotation transport json_render config (Some cfg)) a
        (None, Some (InvalidIdentifier "annotation" (Annotation_CID cfg)))
  | (true, None) =>
      match document cfg with
      | inr err =>
          returns_untouched (UpdateAnnotation transport json_render config (Some cfg)) a (None, Some err)
      | inl doc =>
          sent (snd (UpdateAnnotation transport json_render config (Some cfg) a))
          = sent a ++ [HTTP_Put (Annotation_CID cfg) (json_render doc)]
      end
  end.
Proof. unfold UpdateAnnotation. run_method transport; done. Qed.

Lemma UpdateUser_checks (cfg : User) a :
  match regexp_MatchString (UserCIDRegex config) (User_CID cfg) with
  | (_, Some err) =>
      returns_untouched (UpdateUser transport json_render config (Some cfg)) a (None, Some err)
  | (false, None) =>
      returns_untouched (UpdateUser transport json_render config (Some cfg)) a
        (None, Some (InvalidIdentifier "user" (User_CID cfg)))
  | (true, None) =>
      match document cfg with
      | inr err =>
          returns_untouched (UpdateUser transport json_render config (Some cfg)) a (None, Some err)
      | inl doc =>
          sent (snd (UpdateUser transport json_render config (Some cfg) a))
          = sent a ++ [HTTP_Put (User_CID cfg) (json_render doc)]
      end
  end.
Proof. unfold UpdateUser. run_method transport; done. Qed.

(** The path the code builds is the normal form of the identifier. *)
Lemma code_path_normalize (prefix id : string) :
  (if negb (strings_HasPrefix id prefix) then Sprintf_slash prefix id else id) = normalize prefix id.
Proof. unfold normalize, Sprintf_slash. by destruct (strings_HasPrefix id prefix). Qed.

Lemma normalize_eqb_empty (prefix id : string) :
  id <> "" -> String.eqb (normalize prefix id) "" = false.
Proof. intros Hid. by apply String.eqb_neq, normalize_nonempty. Qed.

(** *** A method does the same for an identifier and for its normal form *)

Lemma FetchMaintenanceWindow_normalize (id : string) a :
  id <> "" ->
  FetchMaintenanceWindow transport config (Some (normalize (MaintenancePrefix config) id)) a
  = FetchMaintenanceWindow transport config (Some id) a.
Proof.
  intros Hid. unfold FetchMaintenanceWindow.
  rewrite normalize_eqb_empty by done. apply String.eqb_neq in Hid. rewrite Hid.
  by rewrite !code_path_normalize, normalize_idempotent.
Qed.

Lemma DeleteMaintenanceWindowByCID_normalize (id : string) a :
  id <> "" ->
  DeleteMaintenanceWindowByCID transport config (Some (normalize (MaintenancePrefix config) id)) a
  = DeleteMaintenanceWindowByCID transport config (Some id) a.
Proof.
  intros Hid. unfold DeleteMaintenanceWindowByCID.
  rewrite normalize_eqb_empty by done. apply String.eqb_neq in Hid. rewrite Hid.
  by rewrite !code_path_normalize, normalize_idempotent.
Qed.

Lemma FetchAnnotation_normalize (id : string) a :
  id <> "" ->
  FetchAnnotation transport config (Some (normalize (AnnotationPrefix config) id)) a
  = FetchAnnotation transport config (Some id) a.
Proof.
  intros Hid. unfold FetchAnnotation.
  rewrite normalize_eqb_empty by done. apply String.eqb_neq in Hid. rewrite Hid.
  by rewrite !code_path_normalize, normalize_idempotent.
Qed.

Lemma DeleteAnnotationByCID_normalize (id : string) a :
  id <> "" ->
  DeleteAnnotationByCID transport config (Some (normalize (AnnotationPrefix config) id)) a
  = DeleteAnnotationByCID transport config (Some id) a.
Proof.
  intros Hid. unfold DeleteAnnotationByCID.
  rewrite normalize_eqb_empty by done. apply String.eqb_neq in Hid. rewrite Hid.
  by rewrite !code_path_normalize, normalize_idempotent.
Qed.

Lemma FetchUser_normalize (id : string) a :
  id <> "" ->
  FetchUser transport config (Some (normalize (UserPrefix config) id)) a
  = FetchUser transport config (Some id) a.
Proof.
  intros Hid. unfold FetchUser.
  rewrite normalize_eqb_empty by done. apply String.eqb_neq in Hid. rewrite Hid.
  by rewrite !code_path_normalize, normalize_idempotent.
Qed.

(** *** What the methods answer to a match, a mismatch and a matcher error *)

Lemma resolve_cases (kind id prefix : string) (pattern : Pattern) :
  id <> "" ->
  match regexp_MatchString pattern (normalize prefix id) with
  | (_, Some err) => resolve kind (Some id) prefix pattern = inr err
  | (true, None) => resolve kind (Some id) prefix pattern = inl (normalize prefix id)
  | (false, None) =>
      resolve kind (Some id) prefix pattern = inr (InvalidIdentifier kind (normalize prefix id))
  end.
Proof.
  intros Hid. rewrite resolve_nonempty by done.
  by destruct (regexp_MatchString pattern (normalize prefix id)) as [[|] [e|]].
Qed.

Lemma resolve_mismatch (kind id prefix : string) (pattern : Pattern) :
  id <> "" ->
  regexp_MatchString pattern (normalize prefix id) = (false, None) ->
  resolve kind (Some id) prefix pattern = inr (InvalidIdentifier kind (normalize prefix id)).
Proof. intros Hid Hm. rewrite resolve_nonempty by done. by rewrite Hm. Qed.

Lemma resolve_match (kind id prefix : string) (pattern : Pattern) :
  id <> "" ->
  regexp_MatchString pattern (normalize prefix id) = (true, None) ->
  resolve kind (Some id) prefix pattern = inl (normalize prefix id).
Proof. intros Hid Hm. rewrite resolve_nonempty by done. by rewrite Hm. Qed.

(** [FetchUser] without an identifier reads the sentinel path, when the
    pattern accepts it. *)
Lemma FetchUser_sentinel a :
  regexp_MatchString (UserCIDRegex config) (UserPrefix config +:+ "/current") = (true, None) ->
  (sends_just (FetchUser transport config None) a (HTTP_Get (UserPrefix config +:+ "/current"))
   /\ sends_just (FetchUser transport config (Some "")) a (HTTP_Get (UserPrefix config +:+ "/current")))
  /\ fst (FetchUser transport config None a)
     = match fst (transport (HTTP_Get (UserPrefix config +:+ "/current")) (service a)) with
       | inr err => (None, Some (errors_Wrap err "fetching user"))
       | inl result =>
           match json_Unmarshal result with
           | inr err => (None, Some (errors_Wrap err "parsing user"))
           | inl user => (Some user, None)
           end
       end.
Proof.
  intros E. unfold FetchUser. cbn [String.eqb]. cbv zeta. rewrite E.
  split_and!; run_method transport; done.
Qed.

(** The sentinel of [FetchUser] is a path that starts with the prefix. *)
Lemma FetchUser_current a :
  FetchUser transport config None a
  = FetchUser transport config (Some (UserPrefix config +:+ "/current")) a
  /\ FetchUser transport config (Some "") a
     = FetchUser transport config (Some (UserPrefix config +:+ "/current")) a.
Proof.
  assert (He : String.eqb (UserPrefix config +:+ "/current") "" = false).
  { apply String.eqb_neq. by destruct (UserPrefix config). }
  assert (Hp : strings_HasPrefix (UserPrefix config +:+ "/current") (UserPrefix config) = true)
    by apply prefix_append.
  unfold FetchUser. cbn [String.eqb]. rewrite He, Hp. done.
Qed.

(** *** Create, Delete and the collection reads *)

Lemma CreateMaintenanceWindow_run (cfg : Maintenance) a :
  match document cfg with
  | inr err =>
      returns_untouched (CreateMaintenanceWindow transport json_render config (Some cfg)) a (None, Some err)
  | inl doc =>
      sends_just (CreateMaintenanceWindow transport json_render config (Some cfg)) a
        (HTTP_Post (MaintenancePrefix config) (json_render doc))
      /\ fst (CreateMaintenanceWindow transport json_render config (Some cfg) a)
         = match fst (transport (HTTP_Post (MaintenancePrefix config) (json_render doc)) (service a)) with
           | inr err => (None, Some (errors_Wrap err "creating maintenance window"))
           | inl result =>
               match json_Unmarshal result with
               | inr err => (None, Some (errors_Wrap err "parsing maintenance window"))
               | inl window => (Some window, None)
               end
           end
  end.
Proof. unfold CreateMaintenanceWindow. run_method transport; done. Qed.

Lemma CreateAnnotation_run (cfg : Annotation) a :
  match document cfg with
  | inr err =>
      returns_untouched (CreateAnnotation transport json_render config (Some cfg)) a (None, Some err)
  | inl doc =>
      sends_just (CreateAnnotation transport json_render config (Some cfg)) a
        (HTTP_Post (AnnotationPrefix config) (json_render doc))
      /\ fst (CreateAnnotation transport json_render config (Some cfg) a)
         = match fst (transport (HTTP_Post (AnnotationPrefix config) (json_render doc)) (service a)) with
           | inr err => (None, Some (errors_Wrap err "creating annotation"))
           | inl result =>
               match json_Unmarshal result with
               | inr err => (None, Some (errors_Wrap err "parsing annotation"))
               | inl annotation => (Some annotation, None)
               end
           end
  end.
Proof. unfold CreateAnnotation. run_method transport; done. Qed.

Lemma DeleteMaintenanceWindowByCID_result cid a :
  fst (DeleteMaintenanceWindowByCID transport config cid a)
  = match resolve "maintenance window" cid (MaintenancePrefix config) (MaintenanceCIDRegex config) with
    | inr e => (false, Some e)
    | inl path =>
        match fst (transport (HTTP_Delete path) (service a)) with
        | inr err => (false, Some (errors_Wrap err "deleting maintenance window"))
        | inl _ => (true, None)
        end
    end.
Proof.
  unfold resolve, normalize, DeleteMaintenanceWindowByCID, Sprintf_slash.
  destruct cid as [id|]; [|done].
  destruct (String.eqb id ""); [done|].
  destruct (strings_HasPrefix id (MaintenancePrefix config)); cbn [negb];
    run_method transport; done.
Qed.

Lemma DeleteAnnotationByCID_result cid a :
  fst (DeleteAnnotationByCID transport config cid a)
  = match resolve "annotation" cid (AnnotationPrefix config) (AnnotationCIDRegex config) with
    | inr e => (false, Some e)
    | inl path =>
        match fst (transport (HTTP_Delete path) (service a)) with
        | inr err => (false, Some (errors_Wrap err "deleting annotation"))
        | inl _ => (true, None)
        end
    end.
Proof.
  unfold resolve, normalize, DeleteAnnotationByCID, Sprintf_slash.
  destruct cid as [id|]; [|done].
  destruct (String.eqb id ""); [done|].
  destruct (strings_HasPrefix id (AnnotationPrefix config)); cbn [negb];
    run_method transport; done.
Qed.

(** What [UpdateMaintenanceWindow] returns once the identifier has matched
    and the record is encoded: the error of the transport under the text
    of the parser, the error of the decoder as it is. *)
Lemma UpdateMaintenanceWindow_result (cfg : Maintenance) (doc : JSON) a :
  regexp_MatchString (MaintenanceCIDRegex config) (Maintenance_CID cfg) = (true, None) ->
  document cfg = inl doc ->
  fst (UpdateMaintenanceWindow transport json_render config (Some cfg) a)
  = match fst (transport (HTTP_Put (Maintenance_CID cfg) (json_render doc)) (service a)) with
    | inr err => (None, Some (errors_Wrap err "parsing maintenance window"))
    | inl result =>
        match json_Unmarshal result with
        | inr err => (None, Some err)
        | inl window => (Some window, None)
        end
    end.
Proof.
  intros E D. unfold UpdateMaintenanceWindow, json_Marshal. rewrite E, D.
  run_method transport; done.
Qed.

(** Its sibling wraps both. *)
Lemma UpdateAnnotation_result (cfg : Annotation) (doc : JSON) a :
  regexp_MatchString (AnnotationCIDRegex config) (Annotation_CID cfg) = (true, None) ->
  document cfg = inl doc ->
  fst (UpdateAnnotation transport json_render config (Some cfg) a)
  = match fst (transport (HTTP_Put (Annotation_CID cfg) (json_render doc)) (service a)) with
    | inr err => (None, Some (errors_Wrap err "updating annotation"))
    | inl result =>
        match json_Unmarshal result with
        | inr err => (None, Some (errors_Wrap err "parsing annotation"))
        | inl annotation => (Some annotation, None)
        end
    end.
Proof.
  intros E D. unfold UpdateAnnotation, json_Marshal. rewrite E, D.
  run_method transport; done.
Qed.
(** *** What a delete does, in full *)

Lemma DeleteMaintenanceWindowByCID_deletes cid a :
  deletes_resolved transport (DeleteMaintenanceWindowByCID transport config cid) a
    (resolve "maintenance window" cid (MaintenancePrefix config) (MaintenanceCIDRegex config))
    "deleting maintenance window".
Proof.
  unfold deletes_resolved, never_logs, resolve, normalize, DeleteMaintenanceWindowByCID, Sprintf_slash.
  destruct cid as [id|]; [|done].
  destruct (String.eqb id ""); [done|].
  destruct (strings_HasPrefix id (MaintenancePrefix config)); cbn [negb];
    run_method transport; done.
Qed.

Lemma DeleteAnnotationByCID_deletes cid a :
  deletes_resolved transport (DeleteAnnotationByCID transport config cid) a
    (resolve "annotation" cid (AnnotationPrefix config) (AnnotationCIDRegex config))
    "deleting annotation".
Proof.
  unfold deletes_resolved, never_logs, resolve, normalize, DeleteAnnotationByCID, Sprintf_slash.
  destruct cid as [id|]; [|done].
  destruct (String.eqb id ""); [done|].
  destruct (strings_HasPrefix id (AnnotationPrefix config)); cbn [negb];
    run_method transport; done.
Qed.
End ClientFacts.

(** ** The claims about identifiers *)

Section IdentifierClaims.
Context {bytes World : Type}.
Variable transport : Call bytes -> World -> (bytes + error) * World.
Variable json_render : JSON -> bytes.
Context `{!Decodable bytes Maintenance, !Decodable bytes (slice Maintenance),
          !Decodable bytes Annotation, !Decodable bytes (slice Annotation),
          !Decodable bytes User, !Decodable bytes (slice User)}.
Variable config : Config.

Implicit Types (a : API bytes World) (id : string).

(** C1 (as amended): Update does not resolve the identifier of the record.
    For every non-nil record, [UpdateMaintenanceWindow], [UpdateAnnotation]
    and [UpdateUser] match the record's own identifier against the
    resource's pattern as it is, with no prefix put in front: a mismatch is
    an InvalidIdentifier error that names that identifier, and nothing is
    sent; a match makes the write go to exactly that identifier.  With a
    pattern that accepts only paths starting with the prefix, an identifier
    made of the bare id part alone is therefore rejected. *)
Theorem C1_update_matches_identifier_as_given (m : Maintenance) (n : Annotation) (u : User) a :
  ((regexp_MatchString (MaintenanceCIDRegex config) (Maintenance_CID m) = (false, None) ->
      returns_untouched (UpdateMaintenanceWindow transport json_render config (Some m)) a
        (None, Some (InvalidIdentifier "maintenance window" (Maintenance_CID m))))
   /\ (below_prefix (MaintenancePrefix config) (MaintenanceCIDRegex config) ->
       strings_HasPrefix (Maintenance_CID m) (MaintenancePrefix config) = false ->
       returns_untouched (UpdateMaintenanceWindow transport json_render config (Some m)) a
         (None, Some (InvalidIdentifier "maintenance window" (Maintenance_CID m))))
   /\ (forall doc, regexp_MatchString (MaintenanceCIDRegex config) (Maintenance_CID m) = (true, None) ->
       document m = inl doc ->
       sends_just (UpdateMaintenanceWindow transport json_render config (Some m)) a
         (HTTP_Put (Maintenance_CID m) (json_render doc))))
  /\ ((regexp_MatchString (AnnotationCIDRegex config) (Annotation_CID n) = (false, None) ->
      returns_untouched (UpdateAnnotation transport json_render config (Some n)) a
        (None, Some (InvalidIdentifier "annotation" (Annotation_CID n))))
   /\ (below_prefix (AnnotationPrefix config) (AnnotationCIDRegex config) ->
       strings_HasPrefix (Annotation_CID n) (AnnotationPrefix config) = false ->
       returns_untouched (UpdateAnnotation transport json_render config (Some n)) a
         (None, Some (InvalidIdentifier "annotation" (Annotation_CID n))))
   /\ (forall doc, regexp_MatchString (AnnotationCIDRegex config) (Annotation_CID n) = (true, None) ->
       document n = inl doc ->
       sends_just (UpdateAnnotation transport json_render config (Some n)) a
         (HTTP_Put (Annotation_CID n) (json_render doc))))
  /\ ((regexp_MatchString (UserCIDRegex config) (User_CID u) = (false, None) ->
      returns_untouched (UpdateUser transport json_render config (Some u)) a
        (None, Some (InvalidIdentifier "user" (User_CID u))))
   /\ (below_prefix (UserPrefix config) (UserCIDRegex config) ->
       strings_HasPrefix (User_CID u) (UserPrefix config) = false ->
       returns_untouched (UpdateUser transport json_render config (Some u)) a
         (None, Some (InvalidIdentifier "user" (User_CID u))))
   /\ (forall doc, regexp_MatchString (UserCIDRegex config) (User_CID u) = (true, None) ->
       document u = inl doc ->
       sends_just (UpdateUser transport json_render config (Some u)) a
         (HTTP_Put (User_CID u) (json_render doc)))).
Proof.
  pose proof (UpdateMaintenanceWindow_checks transport json_render config m a) as Hm.
  pose proof (UpdateAnnotation_checks transport json_render config n a) as Hn.
  pose proof (UpdateUser_checks transport json_render config u a) as Hu.
  repeat split.
  - intros E. by rewrite E in Hm.
  - intros Hb Hp. by rewrite (Hb _ Hp) in Hm.
  - intros doc E D. by rewrite E, D in Hm.
  - intros E. by rewrite E in Hn.
  - intros Hb Hp. by rewrite (Hb _ Hp) in Hn.
  - intros doc E D. by rewrite E, D in Hn.
  - intros E. by rewrite E in Hu.
  - intros Hb Hp. by rewrite (Hb _ Hp) in Hu.
  - intros doc E D. by rewrite E, D in Hu.
Qed.

(** C4: for every non-empty raw identifier given to an identifier-based
    Fetch or Delete, the path examined is the identifier itself when it
    starts with the resource prefix and [prefix/identifier] otherwise; a
    match sends the request to that path, a mismatch is an
    InvalidIdentifier error naming it.  With the maintenance constants:
    [abc123] and [/maintenance/abc123] both go to [/maintenance/abc123],
    the empty identifier is a MissingIdentifier error and [abc 123] an
    InvalidIdentifier error. *)
Theorem C4_cid_resolution a :
  (forall id, id <> "" ->
     (forall prefix, strings_HasPrefix id prefix = false -> normalize prefix id = prefix +:+ "/" +:+ id)
     /\ (forall prefix, strings_HasPrefix id prefix = true -> normalize prefix id = id)
     /\ match regexp_MatchString (MaintenanceCIDRegex config) (normalize (MaintenancePrefix config) id) with
        | (_, Some err) =>
            returns_untouched (FetchMaintenanceWindow transport config (Some id)) a (None, Some err)
            /\ returns_untouched (DeleteMaintenanceWindowByCID transport config (Some id)) a (false, Some err)
        | (true, None) =>
            sends_just (FetchMaintenanceWindow transport config (Some id)) a
              (HTTP_Get (normalize (MaintenancePrefix config) id))
            /\ sends_just (DeleteMaintenanceWindowByCID transport config (Some id)) a
                 (HTTP_Delete (normalize (MaintenancePrefix config) id))
        | (false, None) =>
            returns_untouched (FetchMaintenanceWindow transport config (Some id)) a
              (None, Some (InvalidIdentifier "maintenance window" (normalize (MaintenancePrefix config) id)))
            /\ returns_untouched (DeleteMaintenanceWindowByCID transport config (Some id)) a
                 (false, Some (InvalidIdentifier "maintenance window" (normalize (MaintenancePrefix config) id)))
        end
     /\ match regexp_MatchString (AnnotationCIDRegex config) (normalize (AnnotationPrefix config) id) with
        | (_, Some err) =>
            returns_untouched (FetchAnnotation transport config (Some id)) a (None, Some err)
            /\ returns_untouched (DeleteAnnotationByCID transport config (Some id)) a (false, Some err)
        | (true, None) =>
            sends_just (FetchAnnotation transport config (Some id)) a
              (HTTP_Get (normalize (AnnotationPrefix config) id))
            /\ sends_just (DeleteAnnotationByCID transport config (Some id)) a
                 (HTTP_Delete (normalize (AnnotationPrefix config) id))
        | (false, None) =>
            returns_untouched (FetchAnnotation transport config (Some id)) a
              (None, Some (InvalidIdentifier "annotation" (normalize (AnnotationPrefix config) id)))
            /\ returns_untouched (DeleteAnnotationByCID transport config (Some id)) a
                 (false, Some (InvalidIdentifier "annotation" (normalize (AnnotationPrefix config) id)))
        end
     /\ match regexp_MatchString (UserCIDRegex config) (normalize (UserPrefix config) id) with
        | (_, Some err) => returns_untouched (FetchUser transport config (Some id)) a (None, Some err)
        | (true, None) =>
            sends_just (FetchUser transport config (Some id)) a (HTTP_Get (normalize (UserPrefix config) id))
        | (false, None) =>
            returns_untouched (FetchUser transport config (Some id)) a
              (None, Some (InvalidIdentifier "user" (normalize (UserPrefix config) id)))
        end)
  /\ (sends_just (FetchMaintenanceWindow transport spec_config (Some "abc123")) a
        (HTTP_Get "/maintenance/abc123")
      /\ sends_just (FetchMaintenanceWindow transport spec_config (Some "/maintenance/abc123")) a
           (HTTP_Get "/maintenance/abc123")
      /\ returns_untouched (FetchMaintenanceWindow transport spec_config (Some "")) a
           (None, Some (MissingIdentifier "maintenance window"))
      /\ returns_untouched (FetchMaintenanceWindow transport spec_config (Some "abc 123")) a
           (None, Some (InvalidIdentifier "maintenance window" "/maintenance/abc 123")))
  /\ (sends_just (DeleteMaintenanceWindowByCID transport spec_config (Some "abc123")) a
        (HTTP_Delete "/maintenance/abc123")
      /\ sends_just (DeleteMaintenanceWindowByCID transport spec_config (Some "/maintenance/abc123")) a
           (HTTP_Delete "/maintenance/abc123")
      /\ returns_untouched (DeleteMaintenanceWindowByCID transport spec_config (Some "")) a
           (false, Some (MissingIdentifier "maintenance window"))
      /\ returns_untouched (DeleteMaintenanceWindowByCID transport spec_config (Some "abc 123")) a
           (false, Some (InvalidIdentifier "maintenance window" "/maintenance/abc 123"))).
Proof.
  split; [|split].
  - intros id Hid.
    split; [intros prefix Hp; unfold normalize; by rewrite Hp|].
    split; [intros prefix Hp; unfold normalize; by rewrite Hp|].
    pose proof (FetchMaintenanceWindow_resolve transport config (Some id) a) as Hfm.
    pose proof (DeleteMaintenanceWindowByCID_resolve transport config (Some id) a) as Hdm.
    pose proof (FetchAnnotation_resolve transport config (Some id) a) as Hfa.
    pose proof (DeleteAnnotationByCID_resolve transport config (Some id) a) as Hda.
    pose proof (FetchUser_resolve transport config id a Hid) as Hfu.
    rewrite resolve_nonempty in Hfm, Hdm, Hfa, Hda, Hfu by done.
    split; [|split].
    + by destruct (regexp_MatchString (MaintenanceCIDRegex config) _) as [[|] [e|]].
    + by destruct (regexp_MatchString (AnnotationCIDRegex config) _) as [[|] [e|]].
    + by destruct (regexp_MatchString (UserCIDRegex config) _) as [[|] [e|]].
  - split_and!.
    + apply (FetchMaintenanceWindow_resolve transport spec_config (Some "abc123") a).
    + apply (FetchMaintenanceWindow_resolve transport spec_config (Some "/maintenance/abc123") a).
    + apply (FetchMaintenanceWindow_resolve transport spec_config (Some "") a).
    + apply (FetchMaintenanceWindow_resolve transport spec_config (Some "abc 123") a).
  - split_and!.
    + apply (DeleteMaintenanceWindowByCID_resolve transport spec_config (Some "abc123") a).
    + apply (DeleteMaintenanceWindowByCID_resolve transport spec_config (Some "/maintenance/abc123") a).
    + apply (DeleteMaintenanceWindowByCID_resolve transport spec_config (Some "") a).
    + apply (DeleteMaintenanceWindowByCID_resolve transport spec_config (Some "abc 123") a).
Qed.

(** C5: an identifier whose normalized form does not match the pattern of
    its resource gets an InvalidIdentifier error that carries the offending
    path, from Fetch, Delete and Update alike, and nothing is handed to the
    transport.  Update examines the identifier of the record as it is, so
    the same holds for it whenever that identifier does not match, and,
    with a pattern that accepts only paths starting with the prefix,
    whenever its normalized form does not match.  In particular Update of
    a record whose identifier is empty is an InvalidIdentifier error with
    no request sent. *)
Theorem C5_mismatch_is_invalid_identifier a :
  (forall id, id <> "" ->
     regexp_MatchString (MaintenanceCIDRegex config) (normalize (MaintenancePrefix config) id) = (false, None) ->
     returns_untouched (FetchMaintenanceWindow transport config (Some id)) a
       (None, Some (InvalidIdentifier "maintenance window" (normalize (MaintenancePrefix config) id)))
     /\ returns_untouched (DeleteMaintenanceWindowByCID transport config (Some id)) a
          (false, Some (InvalidIdentifier "maintenance window" (normalize (MaintenancePrefix config) id))))
  /\ (forall id, id <> "" ->
     regexp_MatchString (AnnotationCIDRegex config) (normalize (AnnotationPrefix config) id) = (false, None) ->
     returns_untouched (FetchAnnotation transport config (Some id)) a
       (None, Some (InvalidIdentifier "annotation" (normalize (AnnotationPrefix config) id)))
     /\ returns_untouched (DeleteAnnotationByCID transport config (Some id)) a
          (false, Some (InvalidIdentifier "annotation" (normalize (AnnotationPrefix config) id))))
  /\ (forall id, id <> "" ->
     regexp_MatchString (UserCIDRegex config) (normalize (UserPrefix config) id) = (false, None) ->
     returns_untouched (FetchUser transport config (Some id)) a
       (None, Some (InvalidIdentifier "user" (normalize (UserPrefix config) id))))
  /\ (forall m : Maintenance,
     regexp_MatchString (MaintenanceCIDRegex config) (Maintenance_CID m) = (false, None)
     \/ (below_prefix (MaintenancePrefix config) (MaintenanceCIDRegex config)
         /\ regexp_MatchString (MaintenanceCIDRegex config)
              (normalize (MaintenancePrefix config) (Maintenance_CID m)) = (false, None)) ->
     returns_untouched (UpdateMaintenanceWindow transport json_render config (Some m)) a
       (None, Some (InvalidIdentifier "maintenance window" (Maintenance_CID m))))
  /\ (forall n : Annotation,
     regexp_MatchString (AnnotationCIDRegex config) (Annotation_CID n) = (false, None)
     \/ (below_prefix (AnnotationPrefix config) (AnnotationCIDRegex config)
         /\ regexp_MatchString (AnnotationCIDRegex config)
              (normalize (AnnotationPrefix config) (Annotation_CID n)) = (false, None)) ->
     returns_untouched (UpdateAnnotation transport json_render config (Some n)) a
       (None, Some (InvalidIdentifier "annotation" (Annotation_CID n))))
  /\ (forall u : User,
     regexp_MatchString (UserCIDRegex config) (User_CID u) = (false, None)
     \/ (below_prefix (UserPrefix config) (UserCIDRegex config)
         /\ regexp_MatchString (UserCIDRegex config)
              (normalize (UserPrefix config) (User_CID u)) = (false, None)) ->
     returns_untouched (UpdateUser transport json_render config (Some u)) a
       (None, Some (InvalidIdentifier "user" (User_CID u))))
  /\ (forall m : Maintenance, Maintenance_CID m = "" ->
     returns_untouched (UpdateMaintenanceWindow transport json_render spec_config (Some m)) a
       (None, Some (InvalidIdentifier "maintenance window" "")))
  /\ (forall n : Annotation, Annotation_CID n = "" ->
     returns_untouched (UpdateAnnotation transport json_render spec_config (Some n)) a
       (None, Some (InvalidIdentifier "annotation" "")))
  /\ (forall u : User, User_CID u = "" ->
     returns_untouched (UpdateUser transport json_render spec_config (Some u)) a
       (None, Some (InvalidIdentifier "user" ""))).
Proof.
  assert (Hraw : forall prefix pattern cid,
    regexp_MatchString pattern cid = (false, None)
    \/ (below_prefix prefix pattern /\ regexp_MatchString pattern (normalize prefix cid) = (false, None)) ->
    regexp_MatchString pattern cid = (false, None)).
  { intros prefix pattern cid [E | [Hb E]]; [done|].
    unfold normalize in E. destruct (strings_HasPrefix cid prefix) eqn:Hp; [done|].
    by apply Hb. }
  split_and!.
  - intros id Hid E.
    pose proof (FetchMaintenanceWindow_resolve transport config (Some id) a) as Hf.
    pose proof (DeleteMaintenanceWindowByCID_resolve transport config (Some id) a) as Hd.
    by rewrite resolve_mismatch in Hf, Hd.
  - intros id Hid E.
    pose proof (FetchAnnotation_resolve transport config (Some id) a) as Hf.
    pose proof (DeleteAnnotationByCID_resolve transport config (Some id) a) as Hd.
    by rewrite resolve_mismatch in Hf, Hd.
  - intros id Hid E.
    pose proof (FetchUser_resolve transport config id a Hid) as Hf.
    by rewrite resolve_mismatch in Hf.
  - intros m E%Hraw.
    pose proof (UpdateMaintenanceWindow_checks transport json_render config m a) as Hm.
    by rewrite E in Hm.
  - intros n E%Hraw.
    pose proof (UpdateAnnotation_checks transport json_render config n a) as Hn.
    by rewrite E in Hn.
  - intros u E%Hraw.
    pose proof (UpdateUser_checks transport json_render config u a) as Hu.
    by rewrite E in Hu.
  - intros m E.
    pose proof (UpdateMaintenanceWindow_checks transport json_render spec_config m a) as Hm.
    by rewrite E in Hm.
  - intros n E.
    pose proof (UpdateAnnotation_checks transport json_render spec_config n a) as Hn.
    by rewrite E in Hn.
  - intros u E.
    pose proof (UpdateUser_checks transport json_render spec_config u a) as Hu.
    by rewrite E in Hu.
Qed.

(** C6: without an identifier (nil, or the empty string) the Fetch and the
    Delete-by-identifier of maintenance windows and of annotations return a
    MissingIdentifier error and hand nothing to the transport, whereas
    [FetchUser] goes on with the sentinel path, [/user/current] with the
    user prefix [/user], and issues the read against it. *)
Theorem C6_missing_identifier a :
  (returns_untouched (FetchMaintenanceWindow transport config None) a
     (None, Some (MissingIdentifier "maintenance window"))
   /\ returns_untouched (FetchMaintenanceWindow transport config (Some "")) a
        (None, Some (MissingIdentifier "maintenance window"))
   /\ returns_untouched (DeleteMaintenanceWindowByCID transport config None) a
        (false, Some (MissingIdentifier "maintenance window"))
   /\ returns_untouched (DeleteMaintenanceWindowByCID transport config (Some "")) a
        (false, Some (MissingIdentifier "maintenance window")))
  /\ (returns_untouched (FetchAnnotation transport config None) a
        (None, Some (MissingIdentifier "annotation"))
      /\ returns_untouched (FetchAnnotation transport config (Some "")) a
           (None, Some (MissingIdentifier "annotation"))
      /\ returns_untouched (DeleteAnnotationByCID transport config None) a
           (false, Some (MissingIdentifier "annotation"))
      /\ returns_untouched (DeleteAnnotationByCID transport config (Some "")) a
           (false, Some (MissingIdentifier "annotation")))
  /\ (FetchUser transport config None a
        = FetchUser transport config (Some (UserPrefix config +:+ "/current")) a
      /\ FetchUser transport config (Some "") a
         = FetchUser transport config (Some (UserPrefix config +:+ "/current")) a)
  /\ (sends_just (FetchUser transport spec_config None) a (HTTP_Get "/user/current")
      /\ sends_just (FetchUser transport spec_config (Some "")) a (HTTP_Get "/user/current")
      /\ fst (FetchUser transport spec_config None a)
         = match fst (transport (HTTP_Get "/user/current") (service a)) with
           | inr err => (None, Some (errors_Wrap err "fetching user"))
           | inl result =>
               match json_Unmarshal result with
               | inr err => (None, Some (errors_Wrap err "parsing user"))
               | inl user => (Some user, None)
               end
           end).
Proof.
  assert (E : regexp_MatchString (UserCIDRegex spec_config) (UserPrefix spec_config +:+ "/current")
              = (true, None)) by reflexivity.
  pose proof (FetchUser_sentinel transport spec_config a E) as [[Hs1 Hs2] Hr].
  split_and!; try done;
    first [apply (FetchUser_current transport config a) | exact Hs1 | exact Hs2 | exact Hr].
Qed.

(** C9: resolution is idempotent.  An identifier without the prefix gets
    [prefix/] in front once, one with the prefix is left as it is, and the
    normal form is its own normal form; so a path that [resolve] returns
    resolves to itself, and every identifier-based method does for the
    resolved path exactly what it does for the identifier it came from. *)
Theorem C9_resolution_idempotent id a :
  id <> "" ->
  (forall prefix,
     (strings_HasPrefix id prefix = false -> normalize prefix id = prefix +:+ "/" +:+ id)
     /\ (strings_HasPrefix id prefix = true -> normalize prefix id = id)
     /\ normalize prefix (normalize prefix id) = normalize prefix id)
  /\ (forall kind prefix pattern path,
        resolve kind (Some id) prefix pattern = inl path ->
        resolve kind (Some path) prefix pattern = inl path)
  /\ (forall path,
        resolve "maintenance window" (Some id) (MaintenancePrefix config) (MaintenanceCIDRegex config)
        = inl path ->
        FetchMaintenanceWindow transport config (Some path) a
        = FetchMaintenanceWindow transport config (Some id) a
        /\ DeleteMaintenanceWindowByCID transport config (Some path) a
           = DeleteMaintenanceWindowByCID transport config (Some id) a
        /\ sends_just (FetchMaintenanceWindow transport config (Some path)) a (HTTP_Get path)
        /\ sends_just (DeleteMaintenanceWindowByCID transport config (Some path)) a (HTTP_Delete path))
  /\ (forall path,
        resolve "annotation" (Some id) (AnnotationPrefix config) (AnnotationCIDRegex config) = inl path ->
        FetchAnnotation transport config (Some path) a = FetchAnnotation transport config (Some id) a
        /\ DeleteAnnotationByCID transport config (Some path) a
           = DeleteAnnotationByCID transport config (Some id) a
        /\ sends_just (FetchAnnotation transport config (Some path)) a (HTTP_Get path)
        /\ sends_just (DeleteAnnotationByCID transport config (Some path)) a (HTTP_Delete path))
  /\ (forall path,
        resolve "user" (Some id) (UserPrefix config) (UserCIDRegex config) = inl path ->
        FetchUser transport config (Some path) a = FetchUser transport config (Some id) a
        /\ sends_just (FetchUser transport config (Some path)) a (HTTP_Get path)).
Proof.
  intros Hid.
  assert (Hpath : forall kind prefix pattern path,
    resolve kind (Some id) prefix pattern = inl path -> path = normalize prefix id).
  { intros kind prefix pattern path. rewrite resolve_nonempty by done.
    destruct (regexp_MatchString pattern (normalize prefix id)) as [[|] [e|]]; congruence. }
  split_and!.
  - intros prefix. split_and!.
    + intros Hp. unfold normalize. by rewrite Hp.
    + intros Hp. unfold normalize. by rewrite Hp.
    + apply normalize_idempotent.
  - intros kind prefix pattern path Hr. by apply resolve_fixpoint in Hr as (_ & _ & ?).
  - intros path Hr. pose proof (resolve_fixpoint _ _ _ _ _ Hr) as (Hne & _ & Hr').
    pose proof (FetchMaintenanceWindow_resolve transport config (Some path) a) as Hf.
    pose proof (DeleteMaintenanceWindowByCID_resolve transport config (Some path) a) as Hd.
    rewrite Hr' in Hf, Hd. apply Hpath in Hr as ->.
    split_and!; [by apply FetchMaintenanceWindow_normalize
                | by apply DeleteMaintenanceWindowByCID_normalize | done | done].
  - intros path Hr. pose proof (resolve_fixpoint _ _ _ _ _ Hr) as (Hne & _ & Hr').
    pose proof (FetchAnnotation_resolve transport config (Some path) a) as Hf.
    pose proof (DeleteAnnotationByCID_resolve transport config (Some path) a) as Hd.
    rewrite Hr' in Hf, Hd. apply Hpath in Hr as ->.
    split_and!; [by apply FetchAnnotation_normalize
                | by apply DeleteAnnotationByCID_normalize | done | done].
  - intros path Hr. pose proof (resolve_fixpoint _ _ _ _ _ Hr) as (Hne & _ & Hr').
    pose proof (FetchUser_resolve transport config path a Hne) as Hf.
    rewrite Hr' in Hf. apply Hpath in Hr as ->.
    split_and!; [by apply FetchUser_normalize | done].
Qed.
End IdentifierClaims.

(** ** The identifier in an encoded record *)

(** The encoded maintenance window carries the identifier of the record
    under [_cid], unless that identifier is empty. *)
Lemma Maintenance_document_cid (cfg : Maintenance) (doc : JSON) :
  document cfg = inl doc ->
  member "_cid" doc
  = if String.eqb (Maintenance_CID cfg) "" then None else Some (JString (Maintenance_CID cfg)).
Proof.
  unfold document, Maintenance_Encodable, Maintenance_document.
  destruct (Interface_document (Maintenance_Severities cfg)) as [sev|e]; [|discriminate].
  intros [= <-]. unfold member, field_omitempty.
  destruct (Maintenance_Severities cfg), (String.eqb (Maintenance_CID cfg) "");
    destruct (String.eqb (Maintenance_Item cfg) ""), (String.eqb (Maintenance_Notes cfg) ""),
      (String.eqb (Maintenance_Type cfg) ""), (Nat.eqb (len (Maintenance_Tags cfg)) 0),
      (N.eqb (Maintenance_Start cfg) 0), (N.eqb (Maintenance_Stop cfg) 0); reflexivity.
Qed.

(** So does the encoded annotation. *)
Lemma Annotation_document_cid (cfg : Annotation) (doc : JSON) :
  document cfg = inl doc ->
  member "_cid" doc
  = if String.eqb (Annotation_CID cfg) "" then None else Some (JString (Annotation_CID cfg)).
Proof.
  unfold document, Annotation_Encodable, Annotation_document.
  intros [= <-]. unfold member, field_omitempty, field.
  destruct (String.eqb (Annotation_CID cfg) ""), (String.eqb (Annotation_LastModifiedBy cfg) ""),
    (N.eqb (Annotation_LastModified cfg) 0), (N.eqb (Annotation_Created cfg) 0); reflexivity.
Qed.

(** ** The claims about the operations *)

Section OperationClaims.
Context {bytes World : Type}.
Variable transport : Call bytes -> World -> (bytes + error) * World.
Variable json_render : JSON -> bytes.
Context `{!Decodable bytes Maintenance, !Decodable bytes (slice Maintenance),
          !Decodable bytes Annotation, !Decodable bytes (slice Annotation),
          !Decodable bytes User, !Decodable bytes (slice User)}.
Variable config : Config.

Implicit Types (a : API bytes World) (cid : CIDType).

(** C3 (as amended): Create rejects a nil record with an InvalidConfig
    error before anything is handed to the transport.  For a record that
    is there, the body of the request is the encoding of the whole record
    as the caller gave it: it carries the record's identifier under [_cid]
    whenever that identifier is not empty, and leaves the member out only
    when it is empty.  The write goes to the bare collection prefix, and
    the decoded reply of the service is the result.  A record that cannot
    be encoded is answered with the encoder's error, and nothing is sent. *)
Theorem C3_create_sends_record_as_given a :
  (returns_untouched (CreateMaintenanceWindow transport json_render config None) a
     (None, Some (InvalidConfig "maintenance window"))
   /\ returns_untouched (CreateAnnotation transport json_render config None) a
        (None, Some (InvalidConfig "annotation")))
  /\ (forall (m : Maintenance) (doc : JSON),
        document m = inl doc ->
        sends_just (CreateMaintenanceWindow transport json_render config (Some m)) a
          (HTTP_Post (MaintenancePrefix config) (json_render doc))
        /\ member "_cid" doc
           = (if String.eqb (Maintenance_CID m) "" then None else Some (JString (Maintenance_CID m)))
        /\ (forall result w window,
              transport (HTTP_Post (MaintenancePrefix config) (json_render doc)) (service a)
              = (inl result, w) ->
              json_Unmarshal result = inl window ->
              fst (CreateMaintenanceWindow transport json_render config (Some m) a) = (Some window, None)))
  /\ (forall (m : Maintenance) (err : error),
        document m = inr err ->
        returns_untouched (CreateMaintenanceWindow transport json_render config (Some m)) a
          (None, Some err))
  /\ (forall (n : Annotation) (doc : JSON),
        document n = inl doc ->
        sends_just (CreateAnnotation transport json_render config (Some n)) a
          (HTTP_Post (AnnotationPrefix config) (json_render doc))
        /\ member "_cid" doc
           = (if String.eqb (Annotation_CID n) "" then None else Some (JString (Annotation_CID n)))
        /\ (forall result w annotation,
              transport (HTTP_Post (AnnotationPrefix config) (json_render doc)) (service a)
              = (inl result, w) ->
              json_Unmarshal result = inl annotation ->
              fst (CreateAnnotation transport json_render config (Some n) a) = (Some annotation, None))).
Proof.
  split_and!; try done.
  - intros m doc D.
    pose proof (CreateMaintenanceWindow_run transport json_render config m a) as Hrun.
    rewrite D in Hrun. destruct Hrun as [Hs Hr].
    split_and!; [done | by apply Maintenance_document_cid |].
    intros result w window Ht Hu. by rewrite Hr, Ht; cbn [fst]; rewrite Hu.
  - intros m err D.
    pose proof (CreateMaintenanceWindow_run transport json_render config m a) as Hrun.
    by rewrite D in Hrun.
  - intros n doc D.
    pose proof (CreateAnnotation_run transport json_render config n a) as Hrun.
    rewrite D in Hrun. destruct Hrun as [Hs Hr].
    split_and!; [done | by apply Annotation_document_cid |].
    intros result w annotation Ht Hu. by rewrite Hr, Ht; cbn [fst]; rewrite Hu.
Qed.

(** C8: for every non-nil record, Delete-by-record is Delete-by-identifier
    on the record's own identifier: the two runs are equal, so they hand
    the same request to the transport and return the same pair.  And
    Delete-by-identifier returns true exactly when the identifier resolves
    and the delete of the transport on the resolved path succeeds.  What the
    two do is then spelled out: when the identifier (of the record, for
    Delete-by-record) resolves to a path, the one request handed to the
    transport is the delete of that path, the service is left as the
    transport left it, and the pair returned is [(true, nil)] if the
    transport answered and [false] with its error, wrapped, if it failed;
    when the identifier does not resolve, nothing is sent and the refusal
    of the resolver is returned with [false]. *)
Theorem C8_delete_by_record_is_delete_by_identifier a :
  (forall m : Maintenance,
     DeleteMaintenanceWindow transport config (Some m) a
     = DeleteMaintenanceWindowByCID transport config (Some (Maintenance_CID m)) a)
  /\ (forall n : Annotation,
     DeleteAnnotation transport config (Some n) a
     = DeleteAnnotationByCID transport config (Some (Annotation_CID n)) a)
  /\ (forall cid,
     fst (fst (DeleteMaintenanceWindowByCID transport config cid a)) = true
     <-> exists path body w,
           resolve "maintenance window" cid (MaintenancePrefix config) (MaintenanceCIDRegex config)
           = inl path
           /\ transport (HTTP_Delete path) (service a) = (inl body, w))
  /\ (forall cid,
     fst (fst (DeleteAnnotationByCID transport config cid a)) = true
     <-> exists path body w,
           resolve "annotation" cid (AnnotationPrefix config) (AnnotationCIDRegex config) = inl path
           /\ transport (HTTP_Delete path) (service a) = (inl body, w))
  /\ (forall cid,
     fst (fst (DeleteMaintenanceWindowByCID transport config cid a)) = true
     <-> snd (fst (DeleteMaintenanceWindowByCID transport config cid a)) = None)
  /\ (forall cid,
     fst (fst (DeleteAnnotationByCID transport config cid a)) = true
     <-> snd (fst (DeleteAnnotationByCID transport config cid a)) = None)
  /\ (forall cid,
     deletes_resolved transport (DeleteMaintenanceWindowByCID transport config cid) a
       (resolve "maintenance window" cid (MaintenancePrefix config) (MaintenanceCIDRegex config))
       "deleting maintenance window")
  /\ (forall cid,
     deletes_resolved transport (DeleteAnnotationByCID transport config cid) a
       (resolve "annotation" cid (AnnotationPrefix config) (AnnotationCIDRegex config))
       "deleting annotation")
  /\ (forall m : Maintenance,
     deletes_resolved transport (DeleteMaintenanceWindow transport config (Some m)) a
       (resolve "maintenance window" (Some (Maintenance_CID m))
          (MaintenancePrefix config) (MaintenanceCIDRegex config))
       "deleting maintenance window")
  /\ (forall n : Annotation,
     deletes_resolved transport (DeleteAnnotation transport config (Some n)) a
       (resolve "annotation" (Some (Annotation_CID n))
          (AnnotationPrefix config) (AnnotationCIDRegex config))
       "deleting annotation").
Proof.
  split_and!;
    [done | done | | | | | intros cid; apply DeleteMaintenanceWindowByCID_deletes
    | intros cid; apply DeleteAnnotationByCID_deletes
    | intros m; apply (DeleteMaintenanceWindowByCID_deletes transport config (Some (Maintenance_CID m)))
    | intros n; apply (DeleteAnnotationByCID_deletes transport config (Some (Annotation_CID n))) ].
  - intros cid. rewrite DeleteMaintenanceWindowByCID_result.
    destruct (resolve _ cid _ _) as [path|e]; cbn [fst].
    + destruct (transport (HTTP_Delete path) (service a)) as [[body|err] w] eqn:Ht; cbn [fst].
      * split; [intros _; by exists path, body, w | done].
      * split; [done | intros (p & b & w' & [= <-] & Ht'); congruence].
    + split; [done | by intros (p & b & w' & ? & _)].
  - intros cid. rewrite DeleteAnnotationByCID_result.
    destruct (resolve _ cid _ _) as [path|e]; cbn [fst].
    + destruct (transport (HTTP_Delete path) (service a)) as [[body|err] w] eqn:Ht; cbn [fst].
      * split; [intros _; by exists path, body, w | done].
      * split; [done | intros (p & b & w' & [= <-] & Ht'); congruence].
    + split; [done | by intros (p & b & w' & ? & _)].
  - intros cid. rewrite DeleteMaintenanceWindowByCID_result.
    destruct (resolve _ cid _ _) as [path|e]; cbn [fst snd]; [|done].
    by destruct (fst (transport (HTTP_Delete path) (service a))).
  - intros cid. rewrite DeleteAnnotationByCID_result.
    destruct (resolve _ cid _ _) as [path|e]; cbn [fst snd]; [|done].
    by destruct (fst (transport (HTTP_Delete path) (service a))).
Qed.

(** *** Search *)

Lemma Values_Encode_empty (range_map : gmap string (list string) -> list (string * list string)) :
  Values_Encode range_map ∅ = "".
Proof. unfold Values_Encode. by rewrite map_size_empty. Qed.

(** C7: Search with an empty query (nil or the empty string) and an empty
    filter set (nil or a map without entries) is FetchAll: the two runs
    are equal, so the same request goes to the bare collection prefix and
    the same decoded result comes back.  [SearchUsers] has no query; with
    an empty filter set it is [FetchUsers]. *)
Theorem C7_empty_search_is_fetch_all
    (range_map : gmap string (list string) -> list (string * list string)) a :
  (SearchMaintenanceWindows transport config range_map None None a
     = FetchMaintenanceWindows transport config a
   /\ SearchMaintenanceWindows transport config range_map (Some "") None a
      = FetchMaintenanceWindows transport config a
   /\ SearchMaintenanceWindows transport config range_map None (Some ∅) a
      = FetchMaintenanceWindows transport config a
   /\ SearchMaintenanceWindows transport config range_map (Some "") (Some ∅) a
      = FetchMaintenanceWindows transport config a)
  /\ (SearchAnnotations transport config range_map None None a
        = FetchAnnotations transport config a
      /\ SearchAnnotations transport config range_map (Some "") None a
         = FetchAnnotations transport config a
      /\ SearchAnnotations transport config range_map None (Some ∅) a
         = FetchAnnotations transport config a
      /\ SearchAnnotations transport config range_map (Some "") (Some ∅) a
         = FetchAnnotations transport config a)
  /\ (SearchUsers transport config range_map None a = FetchUsers transport config a
      /\ SearchUsers transport config range_map (Some ∅) a = FetchUsers transport config a)
  /\ sends_just (FetchMaintenanceWindows transport config) a (HTTP_Get (MaintenancePrefix config))
  /\ sends_just (FetchAnnotations transport config) a (HTTP_Get (AnnotationPrefix config))
  /\ sends_just (FetchUsers transport config) a (HTTP_Get (UserPrefix config)).
Proof.
  assert (Hlt : Nat.ltb 0 (size (∅ : gmap string (list string))) = false)
    by (by rewrite map_size_empty).
  unfold SearchMaintenanceWindows, SearchAnnotations, SearchUsers.
  cbn [String.eqb negb]. rewrite Hlt, Values_Encode_empty. cbn [String.eqb].
  split_and!; try done.
  - unfold FetchMaintenanceWindows. run_method transport; done.
  - unfold FetchAnnotations. run_method transport; done.
  - unfold FetchUsers. run_method transport; done.
Qed.

(** The one request of a Search, with the text the encoder wrote. *)
Lemma Search_request
    (range_map : gmap string (list string) -> list (string * list string))
    (searchCriteria : option string) (filterCriteria : option (gmap string (list string))) a :
  sends_just (SearchMaintenanceWindows transport config range_map searchCriteria filterCriteria) a
    (HTTP_Get (search_url (MaintenancePrefix config)
                 (Values_Encode range_map (search_values range_map searchCriteria filterCriteria))))
  /\ sends_just (SearchAnnotations transport config range_map searchCriteria filterCriteria) a
       (HTTP_Get (search_url (AnnotationPrefix config)
                    (Values_Encode range_map (search_values range_map searchCriteria filterCriteria))))
  /\ sends_just (SearchUsers transport config range_map filterCriteria) a
       (HTTP_Get (search_url (UserPrefix config)
                    (Values_Encode range_map (search_values range_map None filterCriteria)))).
Proof.
  unfold SearchMaintenanceWindows, SearchAnnotations, SearchUsers, search_url.
  fold (search_values range_map searchCriteria filterCriteria).
  fold (search_values range_map None filterCriteria).
  split_and!.
  - destruct (String.eqb (Values_Encode range_map (search_values range_map searchCriteria filterCriteria)) "");
      [unfold FetchMaintenanceWindows|]; run_method transport; done.
  - destruct (String.eqb (Values_Encode range_map (search_values range_map searchCriteria filterCriteria)) "");
      [unfold FetchAnnotations|]; run_method transport; done.
  - destruct (String.eqb (Values_Encode range_map (search_values range_map None filterCriteria)) "");
      [unfold FetchUsers|]; run_method transport; done.
Qed.

(** C10: the request of a Search is a function of the query and of the
    filter mapping alone.  Whatever the order in which the filter mapping
    (and, inside the encoder, the map of query values) happens to be
    visited, each entry once, the run is the same, and the one request is
    the read of [search_url]: the collection prefix, and after it the query
    string made of the pairs [key=value], escaped and joined by [&], the
    keys that have a value in ascending order, each once, and under each key
    the values asked for in their order: the query first, under [search],
    then the values of the filter as the caller gave them.  The text the
    encoder writes for any map of values is that query string of the map,
    and the map a Search builds holds under every key the values asked
    for. *)
Theorem C10_search_request_is_deterministic
    (range1 range2 : gmap string (list string) -> list (string * list string))
    (searchCriteria : option string) (filterCriteria : option (gmap string (list string))) a :
  visits_each_entry_once range1 ->
  visits_each_entry_once range2 ->
  (SearchMaintenanceWindows transport config range1 searchCriteria filterCriteria a
     = SearchMaintenanceWindows transport config range2 searchCriteria filterCriteria a
   /\ SearchAnnotations transport config range1 searchCriteria filterCriteria a
      = SearchAnnotations transport config range2 searchCriteria filterCriteria a
   /\ SearchUsers transport config range1 filterCriteria a
      = SearchUsers transport config range2 filterCriteria a)
  /\ (forall q : gmap string (list string),
        Values_Encode range1 q = Values_Encode range2 q)
  /\ (forall (f q : gmap string (list string)) (k : string),
        add_filters range1 f q !! k = appended (q !! k) (default [] (f !! k))
        /\ add_filters range2 f q !! k = appended (q !! k) (default [] (f !! k)))
  /\ (forall (q : gmap string (list string)) (keys : list string),
        keys_in_order (held_values q) keys ->
        Values_Encode range1 q = query_string keys (held_values q)
        /\ Values_Encode range2 q = query_string keys (held_values q))
  /\ (forall k : string,
        held_values (search_values range1 searchCriteria filterCriteria) k
        = asked_values searchCriteria filterCriteria k
        /\ held_values (search_values range2 searchCriteria filterCriteria) k
           = asked_values searchCriteria filterCriteria k)
  /\ (exists keys, keys_in_order (asked_values searchCriteria filterCriteria) keys)
  /\ (forall keys : list string,
        keys_in_order (asked_values searchCriteria filterCriteria) keys ->
        sends_just (SearchMaintenanceWindows transport config range1 searchCriteria filterCriteria) a
          (HTTP_Get (search_url (MaintenancePrefix config)
                       (query_string keys (asked_values searchCriteria filterCriteria))))
        /\ sends_just (SearchMaintenanceWindows transport config range2 searchCriteria filterCriteria) a
             (HTTP_Get (search_url (MaintenancePrefix config)
                          (query_string keys (asked_values searchCriteria filterCriteria))))
        /\ sends_just (SearchAnnotations transport config range1 searchCriteria filterCriteria) a
             (HTTP_Get (search_url (AnnotationPrefix config)
                          (query_string keys (asked_values searchCriteria filterCriteria))))
        /\ sends_just (SearchAnnotations transport config range2 searchCriteria filterCriteria) a
             (HTTP_Get (search_url (AnnotationPrefix config)
                          (query_string keys (asked_values searchCriteria filterCriteria)))))
  /\ (exists keys, keys_in_order (asked_values None filterCriteria) keys)
  /\ (forall keys : list string,
        keys_in_order (asked_values None filterCriteria) keys ->
        sends_just (SearchUsers transport config range1 filterCriteria) a
          (HTTP_Get (search_url (UserPrefix config)
                       (query_string keys (asked_values None filterCriteria))))
        /\ sends_just (SearchUsers transport config range2 filterCriteria) a
             (HTTP_Get (search_url (UserPrefix config)
                          (query_string keys (asked_values None filterCriteria))))).
Proof.
  intros H1 H2.
  assert (Hq : forall (f : option (gmap string (list string))) (q : gmap string (list string)),
    match f with
    | Some f => if Nat.ltb 0 (size f) then add_filters range1 f q else q
    | None => q
    end
    = match f with
      | Some f => if Nat.ltb 0 (size f) then add_filters range2 f q else q
      | None => q
      end).
  { intros [f|] q; [|done]. destruct (Nat.ltb 0 (size f)); [|done].
    by apply add_filters_range. }
  pose proof (Search_request range1 searchCriteria filterCriteria a) as (Hm1 & Ha1 & Hu1).
  pose proof (Search_request range2 searchCriteria filterCriteria a) as (Hm2 & Ha2 & Hu2).
  split_and!.
  - unfold SearchMaintenanceWindows. rewrite Hq.
    by rewrite !(Values_Encode_range range1 range2).
  - unfold SearchAnnotations. rewrite Hq.
    by rewrite !(Values_Encode_range range1 range2).
  - unfold SearchUsers. rewrite Hq.
    by rewrite !(Values_Encode_range range1 range2).
  - intros q. by apply Values_Encode_range.
  - intros f q k. by rewrite !lookup_add_filters.
  - intros q keys Hkeys. by rewrite !(Values_Encode_query_string _ q keys).
  - intros k. by rewrite !held_search_values.
  - apply asked_keys_in_order.
  - intros keys Hkeys.
    rewrite (search_query_string range1 _ _ keys) in Hm1, Ha1 by done.
    rewrite (search_query_string range2 _ _ keys) in Hm2, Ha2 by done.
    done.
  - apply asked_keys_in_order.
  - intros keys Hkeys.
    rewrite (search_query_string range1 _ _ keys) in Hu1 by done.
    rewrite (search_query_string range2 _ _ keys) in Hu2 by done.
    done.
Qed.
End OperationClaims.

(** ** The claims on the scripted service *)

Lemma range_forward_visits : visits_each_entry_once range_forward.
Proof. intros m. reflexivity. Qed.

Lemma range_backward_visits : visits_each_entry_once range_backward.
Proof. intros m. unfold range_backward. apply reverse_Permutation. Qed.

(** C1, where the claim fails: the resolver turns the bare identifier
    [abc123] into [/maintenance/abc123] and accepts it, but Update takes the
    identifier as it is and rejects it, and so do the Update of annotations
    and of users, with nothing sent. *)
Lemma C1_counterexample_bare_identifier :
  resolve "maintenance window" (Some "abc123")
    (MaintenancePrefix spec_config) (MaintenanceCIDRegex spec_config) = inl "/maintenance/abc123"
  /\ UpdateMaintenanceWindow scripted_transport on_the_wire spec_config (Some (window_of "abc123"))
       (scripted_api [inl (JObject [])])
     = ((None, Some (InvalidIdentifier "maintenance window" "abc123")), scripted_api [inl (JObject [])])
  /\ UpdateAnnotation scripted_transport on_the_wire spec_config (Some (annotation_of "abc123"))
       (scripted_api [inl (JObject [])])
     = ((None, Some (InvalidIdentifier "annotation" "abc123")), scripted_api [inl (JObject [])])
  /\ UpdateUser scripted_transport on_the_wire spec_config (Some (user_of "abc123"))
       (scripted_api [inl (JObject [])])
     = ((None, Some (InvalidIdentifier "user" "abc123")), scripted_api [inl (JObject [])]).
Proof. split_and!; reflexivity. Qed.

Lemma C1_witness :
  returns_untouched
    (UpdateMaintenanceWindow scripted_transport on_the_wire spec_config (Some (window_of "abc123")))
    (scripted_api [inl (JObject [])])
    (None, Some (InvalidIdentifier "maintenance window" "abc123"))
  /\ sends_just
       (UpdateAnnotation scripted_transport on_the_wire spec_config (Some (annotation_of "/annotation/77")))
       (scripted_api [inl (JObject [])])
       (HTTP_Put "/annotation/77"
          (JObject [("category", JString "deploy"); ("_cid", JString "/annotation/77");
                    ("description", JString ""); ("title", JString "release");
                    ("rel_metrics", JArray [JString "m1"]); ("start", JNumber 5); ("stop", JNumber 6)]))
  /\ returns_untouched
       (UpdateUser scripted_transport on_the_wire spec_config (Some (user_of "")))
       (scripted_api [inl (JObject [])])
       (None, Some (InvalidIdentifier "user" "")).
Proof.
  destruct (C1_update_matches_identifier_as_given scripted_transport on_the_wire spec_config
              (window_of "abc123") (annotation_of "/annotation/77") (user_of "")
              (scripted_api [inl (JObject [])]))
    as ((_ & Hm & _) & (_ & _ & Hn) & (Hu & _ & _)).
  split_and!.
  - apply Hm; [apply cid_pattern_below_prefix | reflexivity].
  - apply (Hn _ eq_refl eq_refl).
  - apply Hu. reflexivity.
Defined.

(** C2, where the code fails the claim: a reply that does not decode comes
    back from [UpdateMaintenanceWindow] as the bare error of the decoder,
    and a failed write comes back under the text of the parser; on the same
    replies [UpdateAnnotation] wraps the decoder's error under "parsing
    annotation" and the transport's under "updating annotation". *)
Theorem C2_update_maintenance_window_errors :
  fst (UpdateMaintenanceWindow scripted_transport on_the_wire spec_config
         (Some (window_of "/maintenance/1234")) (scripted_api [inl (JString "oops")]))
  = (None, Some (Foreign "json: cannot unmarshal into Go value of type apiclient.Maintenance"))
  /\ fst (UpdateAnnotation scripted_transport on_the_wire spec_config
            (Some (annotation_of "/annotation/77")) (scripted_api [inl (JString "oops")]))
     = (None, Some (errors_Wrap
                      (Foreign "json: cannot unmarshal into Go value of type apiclient.Annotation")
                      "parsing annotation"))
  /\ fst (UpdateMaintenanceWindow scripted_transport on_the_wire spec_config
            (Some (window_of "/maintenance/1234")) (scripted_api [inr (Foreign "503 Service Unavailable")]))
     = (None, Some (errors_Wrap (Foreign "503 Service Unavailable") "parsing maintenance window"))
  /\ fst (UpdateAnnotation scripted_transport on_the_wire spec_config
            (Some (annotation_of "/annotation/77")) (scripted_api [inr (Foreign "503 Service Unavailable")]))
     = (None, Some (errors_Wrap (Foreign "503 Service Unavailable") "updating annotation")).
Proof. split_and!; reflexivity. Qed.

(** C3, where the claim fails: the body of a Create carries the identifier
    the caller put in the record. *)
Lemma C3_counterexample_body_carries_identifier :
  sent (snd (CreateMaintenanceWindow scripted_transport on_the_wire spec_config
               (Some (window_of "/maintenance/1234"))
               (scripted_api [inl (JObject [("_cid", JString "/maintenance/77")])])))
  = [HTTP_Post "/maintenance"
       (JObject [("severities", JString "1,2"); ("_cid", JString "/maintenance/1234");
                 ("notes", JString "upgrade"); ("type", JString "account"); ("start", JNumber 10)])]
  /\ sent (snd (CreateAnnotation scripted_transport on_the_wire spec_config
                  (Some (annotation_of "/annotation/1234"))
                  (scripted_api [inl (JObject [("_cid", JString "/annotation/77")])])))
     = [HTTP_Post "/annotation"
          (JObject [("category", JString "deploy"); ("_cid", JString "/annotation/1234");
                    ("description", JString ""); ("title", JString "release");
                    ("rel_metrics", JArray [JString "m1"]); ("start", JNumber 5); ("stop", JNumber 6)])].
Proof. split; reflexivity. Qed.

Lemma C3_witness :
  sends_just
    (CreateMaintenanceWindow scripted_transport on_the_wire spec_config (Some (window_of "")))
    (scripted_api [inl (JObject [("_cid", JString "/maintenance/77")])])
    (HTTP_Post "/maintenance"
       (JObject [("severities", JString "1,2"); ("notes", JString "upgrade");
                 ("type", JString "account"); ("start", JNumber 10)]))
  /\ fst (CreateMaintenanceWindow scripted_transport on_the_wire spec_config (Some (window_of ""))
            (scripted_api [inl (JObject [("_cid", JString "/maintenance/77")])]))
     = (Some {| Maintenance_Severities := iface_nil; Maintenance_CID := "/maintenance/77";
                Maintenance_Item := ""; Maintenance_Notes := ""; Maintenance_Type := "";
                Maintenance_Tags := None; Maintenance_Start := 0; Maintenance_Stop := 0 |}, None)
  /\ returns_untouched
       (CreateMaintenanceWindow scripted_transport on_the_wire spec_config
          (Some {| Maintenance_Severities := iface_unsupported "chan int"; Maintenance_CID := "";
                   Maintenance_Item := ""; Maintenance_Notes := ""; Maintenance_Type := "";
                   Maintenance_Tags := None; Maintenance_Start := 0; Maintenance_Stop := 0 |}))
       (scripted_api [inl (JObject [("_cid", JString "/maintenance/77")])])
       (None, Some (Foreign "json: unsupported type: chan int")).
Proof.
  destruct (C3_create_sends_record_as_given scripted_transport on_the_wire spec_config
              (scripted_api [inl (JObject [("_cid", JString "/maintenance/77")])]))
    as (_ & Hm & He & _).
  destruct (Hm (window_of "") _ eq_refl) as (Hs & _ & Hr).
  split_and!; [exact Hs | exact (Hr _ _ _ eq_refl eq_refl) |].
  exact (He {| Maintenance_Severities := iface_unsupported "chan int"; Maintenance_CID := "";
               Maintenance_Item := ""; Maintenance_Notes := ""; Maintenance_Type := "";
               Maintenance_Tags := None; Maintenance_Start := 0; Maintenance_Stop := 0 |}
            (Foreign "json: unsupported type: chan int") eq_refl).
Defined.

Lemma C4_witness :
  sends_just (FetchMaintenanceWindow scripted_transport spec_config (Some "abc123"))
    (scripted_api [inl (JObject [("_cid", JString "/maintenance/abc123")])])
    (HTTP_Get "/maintenance/abc123")
  /\ sends_just (DeleteMaintenanceWindowByCID scripted_transport spec_config (Some "abc123"))
       (scripted_api [inl (JObject [("_cid", JString "/maintenance/abc123")])])
       (HTTP_Delete "/maintenance/abc123")
  /\ normalize "/maintenance" "abc123" = "/maintenance/abc123"
  /\ normalize "/maintenance" "/maintenance/abc123" = "/maintenance/abc123".
Proof.
  destruct (C4_cid_resolution scripted_transport spec_config
              (scripted_api [inl (JObject [("_cid", JString "/maintenance/abc123")])]))
    as (Hgen & _ & _).
  destruct (Hgen "abc123" ltac:(discriminate)) as (Hbare & _ & Hm & _).
  destruct (Hgen "/maintenance/abc123" ltac:(discriminate)) as (_ & Hfull & _).
  split_and!.
  - exact (proj1 Hm).
  - exact (proj2 Hm).
  - exact (Hbare "/maintenance" eq_refl).
  - exact (Hfull "/maintenance" eq_refl).
Defined.

Lemma C5_witness :
  returns_untouched (FetchMaintenanceWindow scripted_transport spec_config (Some "abc 123"))
    (scripted_api [inl (JObject [])])
    (None, Some (InvalidIdentifier "maintenance window" "/maintenance/abc 123"))
  /\ returns_untouched (FetchUser scripted_transport spec_config (Some "no such user"))
       (scripted_api [inl (JObject [])])
       (None, Some (InvalidIdentifier "user" "/user/no such user"))
  /\ returns_untouched
       (UpdateAnnotation scripted_transport on_the_wire spec_config (Some (annotation_of "7 7")))
       (scripted_api [inl (JObject [])])
       (None, Some (InvalidIdentifier "annotation" "7 7"))
  /\ returns_untouched
       (UpdateMaintenanceWindow scripted_transport on_the_wire spec_config (Some (window_of "")))
       (scripted_api [inl (JObject [])])
       (None, Some (InvalidIdentifier "maintenance window" "")).
Proof.
  destruct (C5_mismatch_is_invalid_identifier scripted_transport on_the_wire spec_config
              (scripted_api [inl (JObject [])]))
    as (Hm & _ & Hu & _ & Hn & _ & He & _).
  split_and!.
  - exact (proj1 (Hm "abc 123" ltac:(discriminate) eq_refl)).
  - exact (Hu "no such user" ltac:(discriminate) eq_refl).
  - apply (Hn (annotation_of "7 7")). right.
    split; [apply cid_pattern_below_prefix | reflexivity].
  - exact (He (window_of "") eq_refl).
Defined.

Lemma C8_witness :
  fst (fst (DeleteMaintenanceWindow scripted_transport spec_config (Some (window_of "1234"))
              (scripted_api [inl JNull])))
  = true
  /\ snd (fst (DeleteMaintenanceWindowByCID scripted_transport spec_config (Some "1234")
                 (scripted_api [inl JNull])))
     = None
  /\ sent (snd (DeleteMaintenanceWindow scripted_transport spec_config (Some (window_of "1234"))
                  (scripted_api [inl JNull])))
     = [HTTP_Delete "/maintenance/1234"]
  /\ service (snd (DeleteMaintenanceWindow scripted_transport spec_config (Some (window_of "1234"))
                     (scripted_api [inl JNull; inl (JString "next")])))
     = [inl (JString "next")]
  /\ DeleteAnnotation scripted_transport spec_config (Some (annotation_of "7 7"))
       (scripted_api [inl JNull])
     = ((false, Some (InvalidIdentifier "annotation" "/annotation/7 7")), scripted_api [inl JNull]).
Proof.
  destruct (C8_delete_by_record_is_delete_by_identifier scripted_transport spec_config
              (scripted_api [inl JNull]))
    as (Hrec & _ & Htrue & _ & Herr & _ & _ & _ & Hsent & Hrefused).
  destruct (C8_delete_by_record_is_delete_by_identifier scripted_transport spec_config
              (scripted_api [inl JNull; inl (JString "next")]))
    as (_ & _ & _ & _ & _ & _ & _ & _ & Hservice & _).
  assert (Hok : fst (fst (DeleteMaintenanceWindowByCID scripted_transport spec_config (Some "1234")
                            (scripted_api [inl JNull]))) = true).
  { apply Htrue. exists "/maintenance/1234", JNull, []. split; reflexivity. }
  split_and!.
  - rewrite (Hrec (window_of "1234")). exact Hok.
  - apply Herr. exact Hok.
  - exact (proj1 (Hsent (window_of "1234"))).
  - exact (proj1 (proj2 (Hservice (window_of "1234")))).
  - exact (Hrefused (annotation_of "7 7")).
Defined.

Lemma C9_witness :
  resolve "maintenance window" (Some "/maintenance/abc123")
    (MaintenancePrefix spec_config) (MaintenanceCIDRegex spec_config) = inl "/maintenance/abc123"
  /\ FetchMaintenanceWindow scripted_transport spec_config (Some "/maintenance/abc123")
       (scripted_api [inl (JObject [])])
     = FetchMaintenanceWindow scripted_transport spec_config (Some "abc123")
         (scripted_api [inl (JObject [])])
  /\ normalize "/user" (normalize "/user" "current") = normalize "/user" "current".
Proof.
  destruct (C9_resolution_idempotent scripted_transport spec_config "abc123"
              (scripted_api [inl (JObject [])]) ltac:(discriminate))
    as (_ & Hres & Hm & _).
  destruct (C9_resolution_idempotent scripted_transport spec_config "current"
              (scripted_api [inl (JObject [])]) ltac:(discriminate))
    as (Hnorm & _).
  split_and!.
  - exact (Hres "maintenance window" (MaintenancePrefix spec_config) (MaintenanceCIDRegex spec_config)
             "/maintenance/abc123" eq_refl).
  - exact (proj1 (Hm "/maintenance/abc123" eq_refl)).
  - exact (proj2 (proj2 (Hnorm "/user"))).
Defined.

Lemma C10_witness :
  SearchMaintenanceWindows scripted_transport spec_config range_forward (Some "foo bar")
    (Some {[ "b" := ["2"; "1"]; "a" := ["x/y"] ]}) (scripted_api [inl JNull])
  = SearchMaintenanceWindows scripted_transport spec_config range_backward (Some "foo bar")
      (Some {[ "b" := ["2"; "1"]; "a" := ["x/y"] ]}) (scripted_api [inl JNull])
  /\ keys_in_order (asked_values (Some "foo bar") (Some {[ "b" := ["2"; "1"]; "a" := ["x/y"] ]}))
       ["a"; "b"; "search"]
  /\ sent (snd (SearchMaintenanceWindows scripted_transport spec_config range_backward (Some "foo bar")
                  (Some {[ "b" := ["2"; "1"]; "a" := ["x/y"] ]}) (scripted_api [inl JNull])))
     = [HTTP_Get "/maintenance?a=x%2Fy&b=2&b=1&search=foo+bar"]
  /\ Values_Encode range_backward {[ "b" := ["2"; "1"]; "a" := ["x/y"]; "c" := [] ]}
     = "a=x%2Fy&b=2&b=1".
Proof.
  destruct (C10_search_request_is_deterministic scripted_transport spec_config
              range_forward range_backward (Some "foo bar")
              (Some {[ "b" := ["2"; "1"]; "a" := ["x/y"] ]}) (scripted_api [inl JNull])
              range_forward_visits range_backward_visits)
    as (Hrun & _ & _ & Hencode & _ & _ & Hrequest & _).
  assert (Hkeys : keys_in_order
                    (asked_values (Some "foo bar") (Some {[ "b" := ["2"; "1"]; "a" := ["x/y"] ]}))
                    ["a"; "b"; "search"]).
  { split_and!.
    - repeat constructor.
    - apply (bool_decide_unpack _). by vm_compute.
    - intros k. unfold asked_values. split.
      + rewrite !elem_of_cons.
        intros [-> | [-> | [-> | Hk]]]; [by vm_compute | by vm_compute | by vm_compute |].
        by apply elem_of_nil in Hk.
      + destruct (decide (k = "a")) as [-> | Ha]; [intros _; repeat constructor|].
        destruct (decide (k = "b")) as [-> | Hb]; [intros _; repeat constructor|].
        destruct (decide (k = "search")) as [-> | Hs]; [intros _; repeat constructor|].
        apply String.eqb_neq in Hs. rewrite Hs.
        rewrite lookup_insert_ne, lookup_singleton_ne by done. done. }
  assert (Hkeys' : keys_in_order (held_values {[ "b" := ["2"; "1"]; "a" := ["x/y"]; "c" := [] ]})
                     ["a"; "b"]).
  { split_and!.
    - repeat constructor.
    - apply (bool_decide_unpack _). by vm_compute.
    - intros k. unfold held_values. split.
      + rewrite !elem_of_cons.
        intros [-> | [-> | Hk]]; [by vm_compute | by vm_compute |].
        by apply elem_of_nil in Hk.
      + destruct (decide (k = "a")) as [-> | Ha]; [intros _; repeat constructor|].
        destruct (decide (k = "b")) as [-> | Hb]; [intros _; repeat constructor|].
        destruct (decide (k = "c")) as [-> | Hc]; [by vm_compute|].
        rewrite !lookup_insert_ne, lookup_singleton_ne by done. done. }
  split_and!.
  - exact (proj1 Hrun).
  - exact Hkeys.
  - destruct (Hrequest _ Hkeys) as (_ & Hsent & _).
    unfold sends_just in Hsent. rewrite Hsent. by vm_compute.
  - rewrite (proj2 (Hencode _ _ Hkeys')). by vm_compute.
Defined.

(** ** Runs on the scripted service *)

(** The two orders do visit the filter differently, and the request is the
    same: keys sorted, the values of [b] in the order given, the query under
    [search]. *)
Example search_request_example :
  range_forward {[ "b" := ["2"; "1"]; "a" := ["x/y"] ]}
  <> range_backward {[ "b" := ["2"; "1"]; "a" := ["x/y"] ]}
  /\ sent (snd (SearchMaintenanceWindows scripted_transport spec_config range_forward (Some "foo bar")
                  (Some {[ "b" := ["2"; "1"]; "a" := ["x/y"] ]}) (scripted_api [inl JNull])))
     = [HTTP_Get "/maintenance?a=x%2Fy&b=2&b=1&search=foo+bar"]
  /\ sent (snd (SearchMaintenanceWindows scripted_transport spec_config range_backward (Some "foo bar")
                  (Some {[ "b" := ["2"; "1"]; "a" := ["x/y"] ]}) (scripted_api [inl JNull])))
     = [HTTP_Get "/maintenance?a=x%2Fy&b=2&b=1&search=foo+bar"].
Proof. split_and!; [by vm_compute | by vm_compute | by vm_compute]. Qed.

(** A filter under the key [search] goes after the query. *)
Example search_key_example :
  sent (snd (SearchAnnotations scripted_transport spec_config range_forward (Some "q")
               (Some {[ "search" := ["z"] ]}) (scripted_api [inl JNull])))
  = [HTTP_Get "/annotation?search=q&search=z"].
Proof. by vm_compute. Qed.

(** A filter whose keys have no values asks for everything, like FetchAll. *)
Example search_no_values_example :
  sent (snd (SearchUsers scripted_transport spec_config range_forward
               (Some {[ "f_email" := [] ]}) (scripted_api [inl JNull])))
  = [HTTP_Get "/user"].
Proof. by vm_compute. Qed.

(** A fetch writes the debug line when debugging is on. *)
Example fetch_debug_example :
  Log (snd (FetchUser scripted_transport spec_config None
              {| Debug := true; Log := []; service := [inl (JObject [("_cid", JString "/user/3")])];
                 sent := [] |}))
  = [("fetch user, received JSON: %s", JObject [("_cid", JString "/user/3")])].
Proof. reflexivity. Qed.

(** A record that cannot be encoded never reaches the transport. *)
Example create_unsupported_example :
  CreateMaintenanceWindow scripted_transport on_the_wire spec_config
    (Some {| Maintenance_Severities := iface_unsupported "chan int"; Maintenance_CID := "";
             Maintenance_Item := ""; Maintenance_Notes := ""; Maintenance_Type := "";
             Maintenance_Tags := None; Maintenance_Start := 0; Maintenance_Stop := 0 |})
    (scripted_api [])
  = ((None, Some (Foreign "json: unsupported type: chan int")), scripted_api []).
Proof. reflexivity. Qed.

(** * Further properties of the three files *)

(** Every path through a method: the cases of its arguments, then the tests
    it makes on the way. *)
Ltac explore transport :=
  unfold SearchMaintenanceWindows, SearchAnnotations, SearchUsers,
    DeleteMaintenanceWindow, DeleteAnnotation;
  unfold FetchMaintenanceWindow, FetchMaintenanceWindows, UpdateMaintenanceWindow,
    CreateMaintenanceWindow, DeleteMaintenanceWindowByCID,
    FetchAnnotation, FetchAnnotations, UpdateAnnotation, CreateAnnotation, DeleteAnnotationByCID,
    FetchUser, FetchUsers, UpdateUser;
  repeat match goal with
         | |- context [match ?x with Some _ => _ | None => _ end] => is_var x; destruct x
         | |- context [String.eqb ?x ""] => destruct (String.eqb x "") eqn:?
         | |- context [strings_HasPrefix ?x ?p] => destruct (strings_HasPrefix x p) eqn:?
         | |- context [Nat.ltb 0 (size ?f)] => destruct (Nat.ltb 0 (size f)) eqn:?
         | _ => progress cbn [negb]
         end;
  unfold_method;
  repeat first
    [ progress cbn [fst snd sent service Debug Log]
    | match goal with
      | |- context [regexp_MatchString ?p ?s] => destruct (regexp_MatchString p s) as [[|] [?|]] eqn:?
      | |- context [document ?c] => destruct (document c) as [?|?] eqn:?
      | |- context [Debug ?a] => is_var a; destruct (Debug a) eqn:?
      | |- context [transport ?c (service ?a)] =>
          is_var a; destruct (transport c (service a)) as [[?|?] ?] eqn:?
      | |- context [json_Unmarshal ?b] => destruct (json_Unmarshal b) as [?|?] eqn:?
      end ].

(** A list is not itself with one more element. *)
Lemma not_sent_more {A : Type} (l : list A) (x : A) : l <> l ++ [x].
Proof.
  intros E. apply (f_equal length) in E. rewrite length_app in E. simpl in E. lia.
Qed.

(** Closing a case of a run: the request in a hypothesis is the one sent. *)
Ltac settle :=
  intros;
  repeat match goal with
         | H : String.eqb _ _ = _ |- _ => clear H
         | H : Nat.ltb _ _ = _ |- _ => clear H
         end;
  repeat match goal with
         | H : ?l = ?l ++ [_] |- _ => destruct (not_sent_more _ _ H)
         | H : ?l ++ [_] = ?l |- _ => symmetry in H; destruct (not_sent_more _ _ H)
         | H : ?l ++ [_] = ?l ++ [_] |- _ => apply app_inv_head in H; injection H as ?
         end;
  repeat first
    [ progress simplify_eq
    | progress cbn [fst snd Call_path Call_body Call_verb] in *
    | match goal with
      | H : ?t = _, H' : context [?t] |- _ =>
          lazymatch t with
          | json_Unmarshal _ => idtac
          | regexp_MatchString _ _ => idtac
          | document _ => idtac
          | _ _ (service _) => idtac
          end;
          rewrite H in H'
      end ];
  try done.

Section MethodInvariants.
Context {bytes World : Type}.
Variable transport : Call bytes -> World -> (bytes + error) * World.
Variable json_render : JSON -> bytes.
Context `{!Decodable bytes Maintenance, !Decodable bytes (slice Maintenance),
          !Decodable bytes Annotation, !Decodable bytes (slice Annotation),
          !Decodable bytes User, !Decodable bytes (slice User)}.
Variable config : Config.
Variable range_map : gmap string (list string) -> list (string * list string).
Variable cid : option string.
Variable window : option Maintenance.
Variable annotation : option Annotation.
Variable user : option User.
Variable searchCriteria : option string.
Variable filterCriteria : option (gmap string (list string)).

Implicit Types (a : API bytes World).

(** X1: whatever its arguments, a method hands the transport at most one
    request, and of one verb only: a read for Fetch, FetchAll and Search, a
    put for Update, a post for Create, a delete for Delete.  The requests
    sent before are kept, and the remote service is changed by that one
    request alone. *)
Theorem X1_one_request_at_most a :
  (one_request_at_most transport GET (FetchMaintenanceWindow transport config cid) a
   /\ one_request_at_most transport GET (FetchMaintenanceWindows transport config) a
   /\ one_request_at_most transport GET
        (SearchMaintenanceWindows transport config range_map searchCriteria filterCriteria) a
   /\ one_request_at_most transport GET (FetchAnnotation transport config cid) a
   /\ one_request_at_most transport GET (FetchAnnotations transport config) a
   /\ one_request_at_most transport GET
        (SearchAnnotations transport config range_map searchCriteria filterCriteria) a
   /\ one_request_at_most transport GET (FetchUser transport config cid) a
   /\ one_request_at_most transport GET (FetchUsers transport config) a
   /\ one_request_at_most transport GET (SearchUsers transport config range_map filterCriteria) a)
  /\ (one_request_at_most transport PUT (UpdateMaintenanceWindow transport json_render config window) a
      /\ one_request_at_most transport PUT (UpdateAnnotation transport json_render config annotation) a
      /\ one_request_at_most transport PUT (UpdateUser transport json_render config user) a)
  /\ (one_request_at_most transport POST (CreateMaintenanceWindow transport json_render config window) a
      /\ one_request_at_most transport POST (CreateAnnotation transport json_render config annotation) a)
  /\ (one_request_at_most transport DELETE (DeleteMaintenanceWindow transport config window) a
      /\ one_request_at_most transport DELETE (DeleteMaintenanceWindowByCID transport config cid) a
      /\ one_request_at_most transport DELETE (DeleteAnnotation transport config annotation) a
      /\ one_request_at_most transport DELETE (DeleteAnnotationByCID transport config cid) a).
Proof.
  unfold one_request_at_most.
  split_and!; explore transport;
    lazymatch goal with
    | |- (?l = ?l /\ _) \/ _ => left; split; reflexivity
    | |- _ =>
        right; eexists; split; [|split]; [| reflexivity |];
        [ reflexivity | match goal with H : transport _ _ = _ |- _ => by rewrite H end ]
    end.
Qed.

(** X2: every method returns either a value and no error, or no value and
    an error; a Delete returns either true and no error, or false and an
    error. *)
Theorem X2_value_or_error a :
  (value_or_error (fst (FetchMaintenanceWindow transport config cid a))
   /\ value_or_error (fst (FetchMaintenanceWindows transport config a))
   /\ value_or_error (fst (UpdateMaintenanceWindow transport json_render config window a))
   /\ value_or_error (fst (CreateMaintenanceWindow transport json_render config window a))
   /\ value_or_error
        (fst (SearchMaintenanceWindows transport config range_map searchCriteria filterCriteria a)))
  /\ (value_or_error (fst (FetchAnnotation transport config cid a))
      /\ value_or_error (fst (FetchAnnotations transport config a))
      /\ value_or_error (fst (UpdateAnnotation transport json_render config annotation a))
      /\ value_or_error (fst (CreateAnnotation transport json_render config annotation a))
      /\ value_or_error
           (fst (SearchAnnotations transport config range_map searchCriteria filterCriteria a)))
  /\ (value_or_error (fst (FetchUser transport config cid a))
      /\ value_or_error (fst (FetchUsers transport config a))
      /\ value_or_error (fst (UpdateUser transport json_render config user a))
      /\ value_or_error (fst (SearchUsers transport config range_map filterCriteria a)))
  /\ (done_or_error (fst (DeleteMaintenanceWindow transport config window a))
      /\ done_or_error (fst (DeleteMaintenanceWindowByCID transport config cid a))
      /\ done_or_error (fst (DeleteAnnotation transport config annotation a))
      /\ done_or_error (fst (DeleteAnnotationByCID transport config cid a))).
Proof.
  unfold value_or_error, done_or_error.
  split_and!; explore transport;
    first [ left; eexists; reflexivity | right; eexists; reflexivity | left; reflexivity ].
Qed.

(** X3: when the transport fails on the request a method sent, the method
    returns no value and the transport's error under a text of its own, the
    cause kept.  The text names the operation, with these exceptions read
    off the code: [FetchMaintenanceWindow] says "maitenance",
    [UpdateMaintenanceWindow] says "parsing", and a Search that found
    nothing to ask for speaks as the FetchAll it runs. *)
Theorem X3_transport_errors_are_wrapped a :
  (on_transport_error transport (FetchMaintenanceWindow transport config cid) a
     (fun err => (None, Some (errors_Wrap err "fetching maitenance window")))
   /\ on_transport_error transport (FetchMaintenanceWindows transport config) a
        (fun err => (None, Some (errors_Wrap err "fetching maintenance windows")))
   /\ on_transport_error transport (UpdateMaintenanceWindow transport json_render config window) a
        (fun err => (None, Some (errors_Wrap err "parsing maintenance window")))
   /\ on_transport_error transport (CreateMaintenanceWindow transport json_render config window) a
        (fun err => (None, Some (errors_Wrap err "creating maintenance window")))
   /\ on_transport_error transport (DeleteMaintenanceWindow transport config window) a
        (fun err => (false, Some (errors_Wrap err "deleting maintenance window")))
   /\ on_transport_error transport (DeleteMaintenanceWindowByCID transport config cid) a
        (fun err => (false, Some (errors_Wrap err "deleting maintenance window")))
   /\ on_transport_error transport
        (SearchMaintenanceWindows transport config range_map searchCriteria filterCriteria) a
        (fun err =>
           (None, Some (errors_Wrap err
              (if String.eqb (Values_Encode range_map (search_values range_map searchCriteria filterCriteria)) ""
               then "fetching maintenance windows" else "searching maintenance windows")))))
  /\ (on_transport_error transport (FetchAnnotation transport config cid) a
        (fun err => (None, Some (errors_Wrap err "fetching annotation")))
      /\ on_transport_error transport (FetchAnnotations transport config) a
           (fun err => (None, Some (errors_Wrap err "fetching annotations")))
      /\ on_transport_error transport (UpdateAnnotation transport json_render config annotation) a
           (fun err => (None, Some (errors_Wrap err "updating annotation")))
      /\ on_transport_error transport (CreateAnnotation transport json_render config annotation) a
           (fun err => (None, Some (errors_Wrap err "creating annotation")))
      /\ on_transport_error transport (DeleteAnnotation transport config annotation) a
           (fun err => (false, Some (errors_Wrap err "deleting annotation")))
      /\ on_transport_error transport (DeleteAnnotationByCID transport config cid) a
           (fun err => (false, Some (errors_Wrap err "deleting annotation")))
      /\ on_transport_error transport
           (SearchAnnotations transport config range_map searchCriteria filterCriteria) a
           (fun err =>
              (None, Some (errors_Wrap err
                 (if String.eqb (Values_Encode range_map (search_values range_map searchCriteria filterCriteria)) ""
                  then "fetching annotations" else "searching annotations")))))
  /\ (on_transport_error transport (FetchUser transport config cid) a
        (fun err => (None, Some (errors_Wrap err "fetching user")))
      /\ on_transport_error transport (FetchUsers transport config) a
           (fun err => (None, Some (errors_Wrap err "fetching users")))
      /\ on_transport_error transport (UpdateUser transport json_render config user) a
           (fun err => (None, Some (errors_Wrap err "updating user")))
      /\ on_transport_error transport (SearchUsers transport config range_map filterCriteria) a
           (fun err =>
              (None, Some (errors_Wrap err
                 (if String.eqb (Values_Encode range_map (search_values range_map None filterCriteria)) ""
                  then "fetching users" else "searching users"))))).
Proof.
  unfold on_transport_error, sends_just, search_values.
  split_and!; explore transport; settle.
Qed.

(** X4: when the reply to its request does not decode, a method returns no
    value and the decoder's error under a text that names the parsing, the
    cause kept; [UpdateMaintenanceWindow] alone returns the decoder's error
    as it is.  [SearchUsers] says "parsing user" for a search and "parsing
    users" when it runs [FetchUsers]. *)
Theorem X4_decode_errors a :
  (on_undecodable transport (FetchMaintenanceWindow transport config cid) a
     (fun err => (None, Some (errors_Wrap err "parsing maintenance window")))
   /\ on_undecodable transport (FetchMaintenanceWindows transport config) a
        (fun err => (None, Some (errors_Wrap err "parsing maintenance windows")))
   /\ on_undecodable transport (UpdateMaintenanceWindow transport json_render config window) a
        (fun err => (None, Some err))
   /\ on_undecodable transport (CreateMaintenanceWindow transport json_render config window) a
        (fun err => (None, Some (errors_Wrap err "parsing maintenance window")))
   /\ on_undecodable transport
        (SearchMaintenanceWindows transport config range_map searchCriteria filterCriteria) a
        (fun err => (None, Some (errors_Wrap err "parsing maintenance windows"))))
  /\ (on_undecodable transport (FetchAnnotation transport config cid) a
        (fun err => (None, Some (errors_Wrap err "parsing annotation")))
      /\ on_undecodable transport (FetchAnnotations transport config) a
           (fun err => (None, Some (errors_Wrap err "parsing annotations")))
      /\ on_undecodable transport (UpdateAnnotation transport json_render config annotation) a
           (fun err => (None, Some (errors_Wrap err "parsing annotation")))
      /\ on_undecodable transport (CreateAnnotation transport json_render config annotation) a
           (fun err => (None, Some (errors_Wrap err "parsing annotation")))
      /\ on_undecodable transport
           (SearchAnnotations transport config range_map searchCriteria filterCriteria) a
           (fun err => (None, Some (errors_Wrap err "parsing annotations"))))
  /\ (on_undecodable transport (FetchUser transport config cid) a
        (fun err => (None, Some (errors_Wrap err "parsing user")))
      /\ on_undecodable transport (FetchUsers transport config) a
           (fun err => (None, Some (errors_Wrap err "parsing users")))
      /\ on_undecodable transport (UpdateUser transport json_render config user) a
           (fun err => (None, Some (errors_Wrap err "parsing user")))
      /\ on_undecodable transport (SearchUsers transport config range_map filterCriteria) a
           (fun err =>
              (None, Some (errors_Wrap err
                 (if String.eqb (Values_Encode range_map (search_values range_map None filterCriteria)) ""
                  then "parsing users" else "parsing user"))))).
Proof.
  unfold on_undecodable, sends_just, search_values.
  split_and!; explore transport; settle.
Qed.

(** X5: when the reply to its request decodes, a method returns the decoded
    value and no error; a Delete returns true and no error on any reply,
    whatever its body. *)
Theorem X5_reply_is_returned a :
  (returns_decoded transport (FetchMaintenanceWindow transport config cid) a
   /\ returns_decoded transport (FetchMaintenanceWindows transport config) a
   /\ returns_decoded transport (UpdateMaintenanceWindow transport json_render config window) a
   /\ returns_decoded transport (CreateMaintenanceWindow transport json_render config window) a
   /\ returns_decoded transport
        (SearchMaintenanceWindows transport config range_map searchCriteria filterCriteria) a)
  /\ (returns_decoded transport (FetchAnnotation transport config cid) a
      /\ returns_decoded transport (FetchAnnotations transport config) a
      /\ returns_decoded transport (UpdateAnnotation transport json_render config annotation) a
      /\ returns_decoded transport (CreateAnnotation transport json_render config annotation) a
      /\ returns_decoded transport
           (SearchAnnotations transport config range_map searchCriteria filterCriteria) a)
  /\ (returns_decoded transport (FetchUser transport config cid) a
      /\ returns_decoded transport (FetchUsers transport config) a
      /\ returns_decoded transport (UpdateUser transport json_render config user) a
      /\ returns_decoded transport (SearchUsers transport config range_map filterCriteria) a)
  /\ (on_reply transport (DeleteMaintenanceWindow transport config window) a (fun _ => (true, None))
      /\ on_reply transport (DeleteMaintenanceWindowByCID transport config cid) a (fun _ => (true, None))
      /\ on_reply transport (DeleteAnnotation transport config annotation) a (fun _ => (true, None))
      /\ on_reply transport (DeleteAnnotationByCID transport config cid) a (fun _ => (true, None))).
Proof.
  unfold returns_decoded, on_reply, sends_just.
  split_and!; explore transport; settle.
Qed.

(** X6: no method changes the debug flag.  With debugging off nothing is
    logged, and a run that sends nothing logs nothing; FetchAll, Search and
    Delete never log, debugging or not. *)
Theorem X6_logging_is_bounded a :
  (quiet_unless_debugging (FetchMaintenanceWindow transport config cid) a
   /\ quiet_unless_debugging (UpdateMaintenanceWindow transport json_render config window) a
   /\ quiet_unless_debugging (CreateMaintenanceWindow transport json_render config window) a
   /\ quiet_unless_debugging (FetchAnnotation transport config cid) a
   /\ quiet_unless_debugging (UpdateAnnotation transport json_render config annotation) a
   /\ quiet_unless_debugging (CreateAnnotation transport json_render config annotation) a
   /\ quiet_unless_debugging (FetchUser transport config cid) a
   /\ quiet_unless_debugging (UpdateUser transport json_render config user) a)
  /\ (never_logs (FetchMaintenanceWindows transport config) a
      /\ never_logs (SearchMaintenanceWindows transport config range_map searchCriteria filterCriteria) a
      /\ never_logs (DeleteMaintenanceWindow transport config window) a
      /\ never_logs (DeleteMaintenanceWindowByCID transport config cid) a
      /\ never_logs (FetchAnnotations transport config) a
      /\ never_logs (SearchAnnotations transport config range_map searchCriteria filterCriteria) a
      /\ never_logs (DeleteAnnotation transport config annotation) a
      /\ never_logs (DeleteAnnotationByCID transport config cid) a
      /\ never_logs (FetchUsers transport config) a
      /\ never_logs (SearchUsers transport config range_map filterCriteria) a).
Proof.
  unfold quiet_unless_debugging, never_logs.
  split_and!; explore transport; settle.
Qed.

(** X7: with debugging on, an Update or a Create that sends its request
    logs exactly the body it sends, whatever the transport then answers; a
    Fetch that sends its request logs exactly the reply it got, before it
    decodes it, and nothing when the transport failed. *)
Theorem X7_what_is_logged a :
  (logs_body_sent (UpdateMaintenanceWindow transport json_render config window) a
     "update maintenance window, sending JSON: %s"
   /\ logs_body_sent (CreateMaintenanceWindow transport json_render config window) a
        "create maintenance window, sending JSON: %s"
   /\ logs_body_sent (UpdateAnnotation transport json_render config annotation) a
        "update annotation, sending JSON: %s"
   /\ logs_body_sent (CreateAnnotation transport json_render config annotation) a
        "create annotation, sending JSON: %s"
   /\ logs_body_sent (UpdateUser transport json_render config user) a
        "update user, sending JSON: %s")
  /\ (logs_reply_received transport (FetchMaintenanceWindow transport config cid) a
        "fetch maintenance window, received JSON: %s"
      /\ logs_reply_received transport (FetchAnnotation transport config cid) a
           "fetch annotation, received JSON: %s"
      /\ logs_reply_received transport (FetchUser transport config cid) a
           "fetch user, received JSON: %s").
Proof.
  unfold logs_body_sent, logs_reply_received, sends_just.
  split_and!; explore transport; settle.
  all: match goal with H : transport _ _ = _ |- _ => by rewrite H end.
Qed.

(** X8: no request for an identifier leaves the client unchecked.  The path
    of every request sent by a Fetch, an Update or a Delete is one the
    pattern of the resource accepts; for Fetch and Delete it also starts
    with the prefix of the resource, whatever the pattern. *)
Theorem X8_requests_go_to_accepted_paths a :
  (requests_only (accepted_below (MaintenancePrefix config) (MaintenanceCIDRegex config))
     (FetchMaintenanceWindow transport config cid) a
   /\ requests_only (accepted_below (MaintenancePrefix config) (MaintenanceCIDRegex config))
        (DeleteMaintenanceWindowByCID transport config cid) a
   /\ requests_only (accepted_below (MaintenancePrefix config) (MaintenanceCIDRegex config))
        (DeleteMaintenanceWindow transport config window) a
   /\ requests_only (accepted (MaintenanceCIDRegex config))
        (UpdateMaintenanceWindow transport json_render config window) a)
  /\ (requests_only (accepted_below (AnnotationPrefix config) (AnnotationCIDRegex config))
        (FetchAnnotation transport config cid) a
      /\ requests_only (accepted_below (AnnotationPrefix config) (AnnotationCIDRegex config))
           (DeleteAnnotationByCID transport config cid) a
      /\ requests_only (accepted_below (AnnotationPrefix config) (AnnotationCIDRegex config))
           (DeleteAnnotation transport config annotation) a
      /\ requests_only (accepted (AnnotationCIDRegex config))
           (UpdateAnnotation transport json_render config annotation) a)
  /\ (requests_only (accepted_below (UserPrefix config) (UserCIDRegex config))
        (FetchUser transport config cid) a
      /\ requests_only (accepted (UserCIDRegex config))
           (UpdateUser transport json_render config user) a).
Proof.
  unfold requests_only, accepted_below, accepted, sends_just.
  split_and!; explore transport; settle;
    split; first [ done | apply prefix_append ].
Qed.
End MethodInvariants.

(** ** Records, their identifiers and their bodies *)

(** The encoded user carries the identifier of the record as the other two
    records do. *)
Lemma User_document_cid (cfg : User) (doc : JSON) :
  document cfg = inl doc ->
  member "_cid" doc = if String.eqb (User_CID cfg) "" then None else Some (JString (User_CID cfg)).
Proof.
  unfold document, User_Encodable, User_document.
  intros [= <-]. unfold member, field_omitempty, field.
  destruct (String.eqb (User_CID cfg) ""); reflexivity.
Qed.

Section RecordProperties.
Context {bytes World : Type}.
Variable transport : Call bytes -> World -> (bytes + error) * World.
Variable json_render : JSON -> bytes.
Context `{!Decodable bytes Maintenance, !Decodable bytes (slice Maintenance),
          !Decodable bytes Annotation, !Decodable bytes (slice Annotation),
          !Decodable bytes User, !Decodable bytes (slice User)}.
Variable config : Config.

Implicit Types (a : API bytes World).

(** The request of an Update is the put of the encoded record to the
    identifier of the record. *)
Lemma UpdateMaintenanceWindow_request (m : Maintenance) a (c : Call bytes) :
  sends_just (UpdateMaintenanceWindow transport json_render config (Some m)) a c ->
  exists doc, document m = inl doc /\ c = HTTP_Put (Maintenance_CID m) (json_render doc).
Proof.
  pose proof (UpdateMaintenanceWindow_checks transport json_render config m a) as Hc.
  unfold sends_just, returns_untouched in *. intros Hs.
  destruct (regexp_MatchString _ _) as [[|] [e|]]; try (rewrite Hc in Hs; by destruct (not_sent_more _ _ Hs)).
  destruct (document m) as [doc|e]; [|rewrite Hc in Hs; by destruct (not_sent_more _ _ Hs)].
  exists doc. split; [done|]. rewrite Hc in Hs. by apply app_inv_head in Hs as [= ->].
Qed.

Lemma UpdateAnnotation_request (n : Annotation) a (c : Call bytes) :
  sends_just (UpdateAnnotation transport json_render config (Some n)) a c ->
  exists doc, document n = inl doc /\ c = HTTP_Put (Annotation_CID n) (json_render doc).
Proof.
  pose proof (UpdateAnnotation_checks transport json_render config n a) as Hc.
  unfold sends_just, returns_untouched in *. intros Hs.
  destruct (regexp_MatchString _ _) as [[|] [e|]]; try (rewrite Hc in Hs; by destruct (not_sent_more _ _ Hs)).
  destruct (document n) as [doc|e]; [|rewrite Hc in Hs; by destruct (not_sent_more _ _ Hs)].
  exists doc. split; [done|]. rewrite Hc in Hs. by apply app_inv_head in Hs as [= ->].
Qed.

Lemma UpdateUser_request (u : User) a (c : Call bytes) :
  sends_just (UpdateUser transport json_render config (Some u)) a c ->
  exists doc, document u = inl doc /\ c = HTTP_Put (User_CID u) (json_render doc).
Proof.
  pose proof (UpdateUser_checks transport json_render config u a) as Hc.
  unfold sends_just, returns_untouched in *. intros Hs.
  destruct (regexp_MatchString _ _) as [[|] [e|]]; try (rewrite Hc in Hs; by destruct (not_sent_more _ _ Hs)).
  destruct (document u) as [doc|e]; [|rewrite Hc in Hs; by destruct (not_sent_more _ _ Hs)].
  exists doc. split; [done|]. rewrite Hc in Hs. by apply app_inv_head in Hs as [= ->].
Qed.

(** The request of a Create is the post of the encoded record to the
    collection. *)
Lemma CreateAnnotation_request (n : Annotation) a (c : Call bytes) :
  sends_just (CreateAnnotation transport json_render config (Some n)) a c ->
  exists doc, document n = inl doc /\ c = HTTP_Post (AnnotationPrefix config) (json_render doc).
Proof.
  pose proof (CreateAnnotation_run transport json_render config n a) as Hc.
  unfold sends_just, returns_untouched in *. intros Hs.
  destruct (document n) as [doc|e]; [|rewrite Hc in Hs; by destruct (not_sent_more _ _ Hs)].
  exists doc. split; [done|]. destruct Hc as [Hc _]. rewrite Hc in Hs.
  by apply app_inv_head in Hs as [= ->].
Qed.

(** X9: Delete-by-record resolves the identifier of the record, Update does
    not.  For a record whose identifier lacks the prefix and matches once
    the prefix is put in front, and a pattern that accepts only paths that
    start with the prefix, Delete-by-record sends the delete to the prefixed
    path, while Update of the same record is an InvalidIdentifier error with
    nothing sent. *)
Theorem X9_delete_resolves_update_does_not (m : Maintenance) (n : Annotation) a :
  (below_prefix (MaintenancePrefix config) (MaintenanceCIDRegex config) ->
   Maintenance_CID m <> "" ->
   strings_HasPrefix (Maintenance_CID m) (MaintenancePrefix config) = false ->
   regexp_MatchString (MaintenanceCIDRegex config)
     (MaintenancePrefix config +:+ "/" +:+ Maintenance_CID m) = (true, None) ->
   sends_just (DeleteMaintenanceWindow transport config (Some m)) a
     (HTTP_Delete (MaintenancePrefix config +:+ "/" +:+ Maintenance_CID m))
   /\ returns_untouched (UpdateMaintenanceWindow transport json_render config (Some m)) a
        (None, Some (InvalidIdentifier "maintenance window" (Maintenance_CID m))))
  /\ (below_prefix (AnnotationPrefix config) (AnnotationCIDRegex config) ->
      Annotation_CID n <> "" ->
      strings_HasPrefix (Annotation_CID n) (AnnotationPrefix config) = false ->
      regexp_MatchString (AnnotationCIDRegex config)
        (AnnotationPrefix config +:+ "/" +:+ Annotation_CID n) = (true, None) ->
      sends_just (DeleteAnnotation transport config (Some n)) a
        (HTTP_Delete (AnnotationPrefix config +:+ "/" +:+ Annotation_CID n))
      /\ returns_untouched (UpdateAnnotation transport json_render config (Some n)) a
           (None, Some (InvalidIdentifier "annotation" (Annotation_CID n)))).
Proof.
  split.
  - intros Hb Hne Hp Hm. split.
    + pose proof (DeleteMaintenanceWindowByCID_resolve transport config (Some (Maintenance_CID m)) a) as Hd.
      rewrite resolve_nonempty in Hd by done. unfold normalize in Hd. rewrite Hp, Hm in Hd. exact Hd.
    + pose proof (UpdateMaintenanceWindow_checks transport json_render config m a) as Hu.
      by rewrite (Hb _ Hp) in Hu.
  - intros Hb Hne Hp Hm. split.
    + pose proof (DeleteAnnotationByCID_resolve transport config (Some (Annotation_CID n)) a) as Hd.
      rewrite resolve_nonempty in Hd by done. unfold normalize in Hd. rewrite Hp, Hm in Hd. exact Hd.
    + pose proof (UpdateAnnotation_checks transport json_render config n a) as Hu.
      by rewrite (Hb _ Hp) in Hu.
Qed.

(** X10: an Update that sends its request puts the encoding of the whole
    record to the record's own identifier, and the identifier the body
    carries under [_cid] is the path of the request (an empty identifier is
    left out of the body). *)
Theorem X10_update_path_is_the_identifier_in_the_body
    (m : Maintenance) (n : Annotation) (u : User) a (c : Call bytes) :
  (sends_just (UpdateMaintenanceWindow transport json_render config (Some m)) a c ->
   exists doc,
     document m = inl doc /\ c = HTTP_Put (Maintenance_CID m) (json_render doc)
     /\ member "_cid" doc = (if String.eqb (Call_path c) "" then None else Some (JString (Call_path c))))
  /\ (sends_just (UpdateAnnotation transport json_render config (Some n)) a c ->
      exists doc,
        document n = inl doc /\ c = HTTP_Put (Annotation_CID n) (json_render doc)
        /\ member "_cid" doc = (if String.eqb (Call_path c) "" then None else Some (JString (Call_path c))))
  /\ (sends_just (UpdateUser transport json_render config (Some u)) a c ->
      exists doc,
        document u = inl doc /\ c = HTTP_Put (User_CID u) (json_render doc)
        /\ member "_cid" doc = (if String.eqb (Call_path c) "" then None else Some (JString (Call_path c)))).
Proof.
  split_and!; intros Hs.
  - destruct (UpdateMaintenanceWindow_request m a c Hs) as (doc & Hd & ->).
    exists doc. split_and!; [done | done |]. by apply Maintenance_document_cid.
  - destruct (UpdateAnnotation_request n a c Hs) as (doc & Hd & ->).
    exists doc. split_and!; [done | done |]. by apply Annotation_document_cid.
  - destruct (UpdateUser_request u a c Hs) as (doc & Hd & ->).
    exists doc. split_and!; [done | done |]. by apply User_document_cid.
Qed.

(** X11: the body of every write of an annotation carries [category],
    [description], [title], [rel_metrics], [start] and [stop] with the values
    of the record, empty or zero as they may be (a nil list of metrics as
    null); the body of every Update of a user carries [contact_info],
    [email], [firstname] and [lastname]. *)
Theorem X11_members_always_sent (n : Annotation) (u : User) a (c : Call bytes) :
  (sends_just (CreateAnnotation transport json_render config (Some n)) a c
   \/ sends_just (UpdateAnnotation transport json_render config (Some n)) a c ->
   exists doc,
     Call_body c = Some (json_render doc)
     /\ member "category" doc = Some (JString (Annotation_Category n))
     /\ member "description" doc = Some (JString (Annotation_Description n))
     /\ member "title" doc = Some (JString (Annotation_Title n))
     /\ member "rel_metrics" doc = Some (encode_strings (Annotation_RelatedMetrics n))
     /\ member "start" doc = Some (JNumber (Annotation_Start n))
     /\ member "stop" doc = Some (JNumber (Annotation_Stop n)))
  /\ (sends_just (UpdateUser transport json_render config (Some u)) a c ->
      exists doc,
        Call_body c = Some (json_render doc)
        /\ member "contact_info" doc = Some (UserContactInfo_document (User_ContactInfo u))
        /\ member "email" doc = Some (JString (User_Email u))
        /\ member "firstname" doc = Some (JString (User_Firstname u))
        /\ member "lastname" doc = Some (JString (User_Lastname u))).
Proof.
  split.
  - intros Hs.
    assert (exists doc, document n = inl doc /\ Call_body c = Some (json_render doc)) as (doc & Hd & Hb).
    { destruct Hs as [Hs | Hs].
      - destruct (CreateAnnotation_request n a c Hs) as (doc & Hd & ->). by exists doc.
      - destruct (UpdateAnnotation_request n a c Hs) as (doc & Hd & ->). by exists doc. }
    exists doc. split; [done|].
    unfold document, Annotation_Encodable, Annotation_document in Hd. injection Hd as <-.
    unfold member, field_omitempty, field.
    destruct (String.eqb (Annotation_CID n) ""), (String.eqb (Annotation_LastModifiedBy n) ""),
      (N.eqb (Annotation_LastModified n) 0), (N.eqb (Annotation_Created n) 0);
      split_and!; reflexivity.
  - intros Hs. destruct (UpdateUser_request u a c Hs) as (doc & Hd & ->).
    exists doc. split; [done|].
    unfold document, User_Encodable, User_document in Hd. injection Hd as <-.
    unfold member, field_omitempty, field.
    destruct (String.eqb (User_CID u) ""); split_and!; reflexivity.
Qed.

(** A fresh record has no identifier.  Delete-by-record of what
    [NewMaintenanceWindow] or [NewAnnotation] returns is a MissingIdentifier
    error with nothing sent; Create of the fresh maintenance window posts the
    empty object, every member of it being left out when empty, and Create
    of the fresh annotation posts its six members that are always sent. *)
Lemma fresh_records_have_no_identifier a :
  returns_untouched (DeleteMaintenanceWindow transport config (Some NewMaintenanceWindow)) a
    (false, Some (MissingIdentifier "maintenance window"))
  /\ returns_untouched (DeleteAnnotation transport config (Some NewAnnotation)) a
       (false, Some (MissingIdentifier "annotation"))
  /\ sends_just (CreateMaintenanceWindow transport json_render config (Some NewMaintenanceWindow)) a
       (HTTP_Post (MaintenancePrefix config) (json_render (JObject [])))
  /\ sends_just (CreateAnnotation transport json_render config (Some NewAnnotation)) a
       (HTTP_Post (AnnotationPrefix config)
          (json_render (JObject [("category", JString ""); ("description", JString "");
                                 ("title", JString ""); ("rel_metrics", JNull);
                                 ("start", JNumber 0); ("stop", JNumber 0)]))).
Proof.
  split_and!.
  - reflexivity.
  - reflexivity.
  - apply (CreateMaintenanceWindow_run transport json_render config NewMaintenanceWindow a).
  - apply (CreateAnnotation_run transport json_render config NewAnnotation a).
Qed.

Lemma CreateMaintenanceWindow_request (m : Maintenance) a (c : Call bytes) :
  sends_just (CreateMaintenanceWindow transport json_render config (Some m)) a c ->
  exists doc, document m = inl doc /\ c = HTTP_Post (MaintenancePrefix config) (json_render doc).
Proof.
  pose proof (CreateMaintenanceWindow_run transport json_render config m a) as Hc.
  unfold sends_just, returns_untouched in *. intros Hs.
  destruct (document m) as [doc|e]; [|rewrite Hc in Hs; by destruct (not_sent_more _ _ Hs)].
  exists doc. split; [done|]. destruct Hc as [Hc _]. rewrite Hc in Hs.
  by apply app_inv_head in Hs as [= ->].
Qed.

(** X14: in the body of every write of a maintenance window each member is
    there exactly when its field is not empty: a text that is empty, a tag
    list of length 0 and a start or stop of 0 are never sent, so a zero
    value cannot be told from an absent one; severities are left out only
    when nil, and an empty string of severities is sent. *)
Theorem X14_maintenance_members_sent_when_not_empty (m : Maintenance) a (c : Call bytes) :
  sends_just (CreateMaintenanceWindow transport json_render config (Some m)) a c
  \/ sends_just (UpdateMaintenanceWindow transport json_render config (Some m)) a c ->
  exists doc,
    Call_body c = Some (json_render doc)
    /\ member "severities" doc
       = match Maintenance_Severities m with
         | iface_nil => None
         | iface_string s => Some (JString s)
         | iface_strings l => Some (encode_strings l)
         | iface_unsupported _ => None
         end
    /\ member "item" doc
       = (if String.eqb (Maintenance_Item m) "" then None else Some (JString (Maintenance_Item m)))
    /\ member "notes" doc
       = (if String.eqb (Maintenance_Notes m) "" then None else Some (JString (Maintenance_Notes m)))
    /\ member "type" doc
       = (if String.eqb (Maintenance_Type m) "" then None else Some (JString (Maintenance_Type m)))
    /\ member "tags" doc
       = (if Nat.eqb (len (Maintenance_Tags m)) 0 then None
          else Some (encode_strings (Maintenance_Tags m)))
    /\ member "start" doc
       = (if N.eqb (Maintenance_Start m) 0 then None else Some (JNumber (Maintenance_Start m)))
    /\ member "stop" doc
       = (if N.eqb (Maintenance_Stop m) 0 then None else Some (JNumber (Maintenance_Stop m))).
Proof.
  intros Hs.
  assert (exists doc, document m = inl doc /\ Call_body c = Some (json_render doc)) as (doc & Hd & Hb).
  { destruct Hs as [Hs | Hs].
    - destruct (CreateMaintenanceWindow_request m a c Hs) as (doc & Hd & ->). by exists doc.
    - destruct (UpdateMaintenanceWindow_request m a c Hs) as (doc & Hd & ->). by exists doc. }
  exists doc. split; [done|].
  unfold document, Maintenance_Encodable, Maintenance_document in Hd.
  destruct (Interface_document (Maintenance_Severities m)) as [sev|e] eqn:Hsev; [|discriminate].
  injection Hd as <-. unfold member, field_omitempty.
  destruct (Maintenance_Severities m); try discriminate; injection Hsev as <-;
    destruct (String.eqb (Maintenance_CID m) ""), (String.eqb (Maintenance_Item m) ""),
      (String.eqb (Maintenance_Notes m) ""), (String.eqb (Maintenance_Type m) ""),
      (Nat.eqb (len (Maintenance_Tags m)) 0), (N.eqb (Maintenance_Start m) 0),
      (N.eqb (Maintenance_Stop m) 0); split_and!; reflexivity.
Qed.
End RecordProperties.

(** ** What a Search asks for *)

(** One more pair makes the buffer of the encoder non-empty, and the buffer
    never shrinks. *)
Lemma encode_values_length (keyEscaped : string) (vs : list string) :
  forall buf : string,
    String.length buf
    <= String.length
         (fold_left (fun buf val =>
            (if Nat.ltb 0 (String.length buf) then buf +:+ "&" else buf)
            +:+ keyEscaped +:+ "=" +:+ QueryEscape val) vs buf)
    /\ (vs <> [] ->
        0 < String.length
              (fold_left (fun buf val =>
                 (if Nat.ltb 0 (String.length buf) then buf +:+ "&" else buf)
                 +:+ keyEscaped +:+ "=" +:+ QueryEscape val) vs buf)).
Proof.
  induction vs as [|v vs IH]; intros buf; simpl fold_left; [split; [lia | done]|].
  destruct (IH ((if Nat.ltb 0 (String.length buf) then buf +:+ "&" else buf)
                +:+ keyEscaped +:+ "=" +:+ QueryEscape v)) as [Hle _].
  rewrite !String_length_append in Hle. simpl String.length in Hle.
  assert (String.length buf
          <= String.length (if Nat.ltb 0 (String.length buf) then buf +:+ "&" else buf)).
  { destruct (Nat.ltb 0 (String.length buf)); [rewrite String_length_append|]; lia. }
  split; [lia | intros _; lia].
Qed.

Lemma encode_keys_length (q : gmap string (list string)) (keys : list string) :
  forall buf : string,
    String.length buf
    <= String.length
         (fold_left (fun buf k =>
            let vs := default [] (q !! k) in
            let keyEscaped := QueryEscape k in
            fold_left (fun buf val =>
              (if Nat.ltb 0 (String.length buf) then buf +:+ "&" else buf)
              +:+ keyEscaped +:+ "=" +:+ QueryEscape val) vs buf) keys buf)
    /\ (forall k, k ∈ keys -> default [] (q !! k) <> [] ->
        0 < String.length
              (fold_left (fun buf k =>
                 let vs := default [] (q !! k) in
                 let keyEscaped := QueryEscape k in
                 fold_left (fun buf val =>
                   (if Nat.ltb 0 (String.length buf) then buf +:+ "&" else buf)
                   +:+ keyEscaped +:+ "=" +:+ QueryEscape val) vs buf) keys buf)).
Proof.
  induction keys as [|k0 keys IH]; intros buf; simpl fold_left.
  - split; [lia | intros k Hk; by apply elem_of_nil in Hk].
  - cbv zeta.
    destruct (encode_values_length (QueryEscape k0) (default [] (q !! k0)) buf) as [Hle Hpos].
    destruct (IH (fold_left (fun buf val =>
                    (if Nat.ltb 0 (String.length buf) then buf +:+ "&" else buf)
                    +:+ QueryEscape k0 +:+ "=" +:+ QueryEscape val) (default [] (q !! k0)) buf))
      as [Hle' Hpos'].
    split; [exact (Nat.le_trans _ _ _ Hle Hle')|].
    intros k Hk Hvs. apply elem_of_cons in Hk as [-> | Hk].
    + exact (Nat.lt_le_trans _ _ _ (Hpos Hvs) Hle').
    + by apply (Hpos' k).
Qed.

(** The encoder writes nothing exactly when no key has a value. *)
Lemma Values_Encode_empty_iff (range_map : gmap string (list string) -> list (string * list string))
    (q : gmap string (list string)) :
  visits_each_entry_once range_map ->
  Values_Encode range_map q = "" <-> no_filter_values q.
Proof.
  intros Hr. unfold Values_Encode. split.
  - intros He k vs Hk. destruct vs as [|v vs]; [done|]. exfalso.
    destruct (Nat.eqb (size q) 0) eqn:Hs.
    + apply Nat.eqb_eq, map_size_empty_inv in Hs. subst q. by rewrite lookup_empty in Hk.
    + destruct (encode_keys_length q (merge_sort string_le (range_map q).*1) "") as [_ Hpos].
      assert (Hin : k ∈ merge_sort string_le (range_map q).*1).
      { rewrite merge_sort_Permutation, (Hr q). apply list_elem_of_fmap.
        exists (k, v :: vs). split; [done|]. by apply elem_of_map_to_list. }
      assert (Hne : default [] (q !! k) <> []) by (by rewrite Hk).
      pose proof (Hpos k Hin Hne) as Hp. cbv zeta in Hp, He. rewrite He in Hp.
      simpl in Hp. lia.
  - intros Hno. destruct (Nat.eqb (size q) 0); [done|].
    generalize (merge_sort string_le (range_map q).*1). intros keys.
    induction keys as [|k keys IH]; [done|]. simpl fold_left. cbv zeta.
    destruct (q !! k) as [vs|] eqn:Hk; [rewrite (Hno k vs Hk)|]; exact IH.
Qed.

(** Filters without values add nothing. *)
Lemma add_filters_no_values (range_map : gmap string (list string) -> list (string * list string))
    (f q : gmap string (list string)) :
  visits_each_entry_once range_map -> no_filter_values f -> add_filters range_map f q = q.
Proof.
  intros Hr Hno. apply map_eq. intros k. rewrite lookup_add_filters by done.
  destruct (f !! k) as [vs|] eqn:Hk; [by rewrite (Hno k vs Hk)|done].
Qed.

Lemma search_values_nothing (range_map : gmap string (list string) -> list (string * list string))
    (searchCriteria : option string) (filterCriteria : option (gmap string (list string))) :
  visits_each_entry_once range_map ->
  no_filter_values (search_values range_map searchCriteria filterCriteria)
  <-> asks_nothing searchCriteria filterCriteria.
Proof.
  intros Hr. unfold no_filter_values at 1. split.
  - intros Hno. split.
    + destruct searchCriteria as [s|]; [|by left]. right. f_equal.
      destruct (String.eqb s "") eqn:Hs; [by apply String.eqb_eq|]. exfalso.
      pose proof (lookup_search_values range_map (Some s) filterCriteria "search" Hr) as Hl.
      cbv beta iota in Hl. rewrite Hs in Hl.
      change (String.eqb "search" "search") with true in Hl. cbn [negb andb] in Hl.
      destruct (match filterCriteria with Some f => default [] (f !! "search") | None => [] end)
        as [|v vs]; cbn [appended default] in Hl; by apply Hno in Hl.
    + intros f -> k vs Hk. destruct vs as [|v vs]; [done|]. exfalso.
      pose proof (lookup_search_values range_map searchCriteria (Some f) k Hr) as Hl.
      cbv beta iota in Hl. rewrite Hk in Hl. cbn [appended default] in Hl.
      apply Hno in Hl. by apply app_nil in Hl as [_ ?].
  - intros [Hs Hf] k vs. rewrite lookup_search_values by done.
    assert (match searchCriteria with
            | Some s => if negb (String.eqb s "") && String.eqb k "search" then Some [s] else None
            | None => None
            end = None) as -> by (by destruct Hs as [-> | ->]).
    destruct filterCriteria as [f|]; [|done].
    destruct (f !! k) as [ws|] eqn:Hk; [|done].
    rewrite (Hf f eq_refl k ws Hk). done.
Qed.

(** One key with one value is written as one pair. *)
Lemma Values_Encode_singleton (range_map : gmap string (list string) -> list (string * list string))
    (k v : string) :
  visits_each_entry_once range_map ->
  Values_Encode range_map {[ k := [v] ]} = QueryEscape k +:+ "=" +:+ QueryEscape v.
Proof.
  intros Hr. unfold Values_Encode. rewrite map_size_singleton. cbn [Nat.eqb].
  pose proof (Hr {[ k := [v] ]}) as Hp. rewrite map_to_list_singleton in Hp.
  apply Permutation_singleton_r in Hp. rewrite Hp.
  cbn [fmap list_fmap fst]. change (merge_sort string_le [k]) with [k].
  cbn [fold_left]. rewrite lookup_singleton_eq. reflexivity.
Qed.

Section SearchProperties.
Context {bytes World : Type}.
Variable transport : Call bytes -> World -> (bytes + error) * World.
Context `{!Decodable bytes (slice Maintenance), !Decodable bytes (slice Annotation),
          !Decodable bytes (slice User)}.
Variable config : Config.
Variable range_map : gmap string (list string) -> list (string * list string).

Implicit Types (a : API bytes World).

(** X12: a Search runs FetchAll exactly when it asks for nothing, that is
    when the query is nil or empty and no key of the filter has a value (an
    empty list of values counts for nothing); it is then FetchAll in every
    respect.  Otherwise the encoded query is not empty and the one request
    is the read of the collection prefix with that query. *)
Theorem X12_search_runs_fetch_all_exactly_when_it_asks_nothing
    (searchCriteria : option string) (filterCriteria : option (gmap string (list string))) a :
  visits_each_entry_once range_map ->
  (Values_Encode range_map (search_values range_map searchCriteria filterCriteria) = ""
   <-> asks_nothing searchCriteria filterCriteria)
  /\ (asks_nothing searchCriteria filterCriteria ->
      SearchMaintenanceWindows transport config range_map searchCriteria filterCriteria a
      = FetchMaintenanceWindows transport config a
      /\ SearchAnnotations transport config range_map searchCriteria filterCriteria a
         = FetchAnnotations transport config a)
  /\ (asks_nothing None filterCriteria ->
      SearchUsers transport config range_map filterCriteria a = FetchUsers transport config a)
  /\ (~ asks_nothing searchCriteria filterCriteria ->
      sends_just (SearchMaintenanceWindows transport config range_map searchCriteria filterCriteria) a
        (HTTP_Get (URL_String (MaintenancePrefix config)
                     (Values_Encode range_map (search_values range_map searchCriteria filterCriteria))))
      /\ sends_just (SearchAnnotations transport config range_map searchCriteria filterCriteria) a
           (HTTP_Get (URL_String (AnnotationPrefix config)
                        (Values_Encode range_map (search_values range_map searchCriteria filterCriteria)))))
  /\ (~ asks_nothing None filterCriteria ->
      sends_just (SearchUsers transport config range_map filterCriteria) a
        (HTTP_Get (URL_String (UserPrefix config)
                     (Values_Encode range_map (search_values range_map None filterCriteria))))).
Proof.
  intros range_map_visits.
  assert (Hiff : forall s f,
    Values_Encode range_map (search_values range_map s f) = "" <-> asks_nothing s f).
  { intros s f. rewrite Values_Encode_empty_iff by done. by apply search_values_nothing. }
  assert (Hyes : forall s f, asks_nothing s f ->
    String.eqb (Values_Encode range_map (search_values range_map s f)) "" = true).
  { intros s f H. by apply String.eqb_eq, Hiff. }
  assert (Hnot : forall s f, ~ asks_nothing s f ->
    String.eqb (Values_Encode range_map (search_values range_map s f)) "" = false).
  { intros s f H. apply String.eqb_neq. intros E. by apply H, Hiff. }
  split_and!.
  - apply Hiff.
  - intros H. apply Hyes in H. unfold SearchMaintenanceWindows, SearchAnnotations.
    fold (search_values range_map searchCriteria filterCriteria). by rewrite H.
  - intros H. apply Hyes in H. unfold SearchUsers.
    fold (search_values range_map None filterCriteria). by rewrite H.
  - intros H. apply Hnot in H. unfold SearchMaintenanceWindows, SearchAnnotations.
    fold (search_values range_map searchCriteria filterCriteria). rewrite H.
    split; run_method transport; done.
  - intros H. apply Hnot in H. unfold SearchUsers.
    fold (search_values range_map None filterCriteria). rewrite H.
    run_method transport; done.
Qed.

(** X13: a Search with a query and nothing in the filter reads the
    collection prefix with the single parameter [search], the query escaped
    as a query component. *)
Theorem X13_search_by_query_alone
    (s : string) (filterCriteria : option (gmap string (list string))) a :
  visits_each_entry_once range_map ->
  s <> "" ->
  (forall f, filterCriteria = Some f -> no_filter_values f) ->
  sends_just (SearchMaintenanceWindows transport config range_map (Some s) filterCriteria) a
    (HTTP_Get (URL_String (MaintenancePrefix config) ("search=" +:+ QueryEscape s)))
  /\ sends_just (SearchAnnotations transport config range_map (Some s) filterCriteria) a
       (HTTP_Get (URL_String (AnnotationPrefix config) ("search=" +:+ QueryEscape s))).
Proof.
  intros range_map_visits Hs Hf.
  assert (Hq : search_values range_map (Some s) filterCriteria = {[ "search" := [s] ]}).
  { unfold search_values. apply String.eqb_neq in Hs. rewrite Hs. cbn [negb].
    unfold Values_Set. rewrite insert_empty.
    destruct filterCriteria as [f|]; [|done].
    destruct (Nat.ltb 0 (size f)); [|done]. apply add_filters_no_values; [done | by apply Hf]. }
  assert (He : Values_Encode range_map (search_values range_map (Some s) filterCriteria)
               = "search=" +:+ QueryEscape s).
  { rewrite Hq, Values_Encode_singleton by done. reflexivity. }
  unfold SearchMaintenanceWindows, SearchAnnotations.
  fold (search_values range_map (Some s) filterCriteria). rewrite He.
  change (String.eqb ("search=" +:+ QueryEscape s) "") with false. cbv iota.
  split; run_method transport; done.
Qed.
End SearchProperties.

(** ** The further properties on the scripted service *)

Lemma X3_witness :
  fst (UpdateMaintenanceWindow scripted_transport on_the_wire spec_config
         (Some (window_of "/maintenance/1234")) (scripted_api [inr (Foreign "503 Service Unavailable")]))
  = (None, Some (errors_Wrap (Foreign "503 Service Unavailable") "parsing maintenance window"))
  /\ fst (SearchMaintenanceWindows scripted_transport spec_config range_forward None None
            (scripted_api [inr (Foreign "503 Service Unavailable")]))
     = (None, Some (errors_Wrap (Foreign "503 Service Unavailable") "fetching maintenance windows"))
  /\ fst (DeleteAnnotationByCID scripted_transport spec_config (Some "77")
            (scripted_api [inr (Foreign "503 Service Unavailable")]))
     = (false, Some (errors_Wrap (Foreign "503 Service Unavailable") "deleting annotation")).
Proof.
  destruct (X3_transport_errors_are_wrapped scripted_transport on_the_wire spec_config range_forward
              (Some "77") (Some (window_of "/maintenance/1234")) None None None None
              (scripted_api [inr (Foreign "503 Service Unavailable")]))
    as ((_ & _ & Hu & _ & _ & _ & Hs) & (_ & _ & _ & _ & _ & Hd & _) & _).
  split_and!.
  - exact (Hu (HTTP_Put "/maintenance/1234"
                 (JObject [("severities", JString "1,2"); ("_cid", JString "/maintenance/1234");
                           ("notes", JString "upgrade"); ("type", JString "account");
                           ("start", JNumber 10)]))
              (Foreign "503 Service Unavailable") eq_refl eq_refl).
  - exact (Hs (HTTP_Get "/maintenance") (Foreign "503 Service Unavailable") eq_refl eq_refl).
  - exact (Hd (HTTP_Delete "/annotation/77") (Foreign "503 Service Unavailable") eq_refl eq_refl).
Defined.

Lemma X4_witness :
  fst (UpdateMaintenanceWindow scripted_transport on_the_wire spec_config
         (Some (window_of "/maintenance/1234")) (scripted_api [inl (JString "oops")]))
  = (None, Some (Foreign "json: cannot unmarshal into Go value of type apiclient.Maintenance"))
  /\ fst (FetchUser scripted_transport spec_config (Some "3") (scripted_api [inl (JString "oops")]))
     = (None, Some (errors_Wrap (Foreign "json: cannot unmarshal into Go value of type apiclient.User")
                      "parsing user")).
Proof.
  destruct (X4_decode_errors scripted_transport on_the_wire spec_config range_forward
              (Some "3") (Some (window_of "/maintenance/1234")) None None None None
              (scripted_api [inl (JString "oops")]))
    as ((_ & _ & Hu & _) & _ & (Hf & _)).
  split.
  - exact (Hu (HTTP_Put "/maintenance/1234"
                 (JObject [("severities", JString "1,2"); ("_cid", JString "/maintenance/1234");
                           ("notes", JString "upgrade"); ("type", JString "account");
                           ("start", JNumber 10)]))
              (JString "oops") _ eq_refl eq_refl eq_refl).
  - exact (Hf (HTTP_Get "/user/3") (JString "oops") _ eq_refl eq_refl eq_refl).
Defined.

Lemma X5_witness :
  fst (FetchAnnotation scripted_transport spec_config (Some "77")
         (scripted_api [inl (JObject [("_cid", JString "/annotation/77"); ("title", JString "release")])]))
  = (Some {| Annotation_Category := ""; Annotation_CID := "/annotation/77";
             Annotation_Description := ""; Annotation_LastModifiedBy := "";
             Annotation_Title := "release"; Annotation_RelatedMetrics := None;
             Annotation_LastModified := 0; Annotation_Created := 0;
             Annotation_Start := 0; Annotation_Stop := 0 |}, None)
  /\ fst (DeleteAnnotation scripted_transport spec_config (Some (annotation_of "77"))
            (scripted_api [inl (JObject [("_cid", JString "/annotation/77"); ("title", JString "release")])]))
     = (true, None).
Proof.
  destruct (X5_reply_is_returned scripted_transport on_the_wire spec_config range_forward
              (Some "77") None (Some (annotation_of "77")) None None None
              (scripted_api [inl (JObject [("_cid", JString "/annotation/77"); ("title", JString "release")])]))
    as (_ & (Hf & _) & _ & (_ & _ & Hd & _)).
  split.
  - exact (Hf (HTTP_Get "/annotation/77") _ _ eq_refl eq_refl eq_refl).
  - exact (Hd (HTTP_Delete "/annotation/77") _ eq_refl eq_refl).
Defined.

Lemma X6_witness :
  Log (snd (UpdateUser scripted_transport on_the_wire spec_config (Some (user_of "/user/3"))
              (scripted_api [inl (JObject [])])))
  = []
  /\ Log (snd (FetchUser scripted_transport spec_config (Some "no such user")
                 {| Debug := true; Log := []; service := [inl (JObject [])]; sent := [] |}))
     = [].
Proof.
  destruct (X6_logging_is_bounded scripted_transport on_the_wire spec_config range_forward
              None None None (Some (user_of "/user/3")) None None (scripted_api [inl (JObject [])]))
    as ((_ & _ & _ & _ & _ & _ & _ & (_ & Hu & _)) & _).
  destruct (X6_logging_is_bounded scripted_transport on_the_wire spec_config range_forward
              (Some "no such user") None None None None None
              {| Debug := true; Log := []; service := [inl (JObject [])]; sent := [] |})
    as ((_ & _ & _ & _ & _ & _ & (_ & _ & Hf) & _) & _).
  split; [exact (Hu eq_refl) | exact (Hf eq_refl)].
Defined.

Lemma X7_witness :
  Log (snd (UpdateUser scripted_transport on_the_wire spec_config (Some (user_of "/user/3"))
              {| Debug := true; Log := []; service := [inr (Foreign "503 Service Unavailable")];
                 sent := [] |}))
  = [("update user, sending JSON: %s",
      JObject [("_cid", JString "/user/3"); ("contact_info", JObject []);
               ("email", JString "a@example.com"); ("firstname", JString "A");
               ("lastname", JString "B")])]
  /\ Log (snd (FetchUser scripted_transport spec_config (Some "3")
                 {| Debug := true; Log := []; service := [inl (JString "oops")]; sent := [] |}))
     = [("fetch user, received JSON: %s", JString "oops")].
Proof.
  destruct (X7_what_is_logged scripted_transport on_the_wire spec_config
              None None None (Some (user_of "/user/3"))
              {| Debug := true; Log := []; service := [inr (Foreign "503 Service Unavailable")];
                 sent := [] |})
    as ((_ & _ & _ & _ & Hu) & _).
  destruct (X7_what_is_logged scripted_transport on_the_wire spec_config
              (Some "3") None None None
              {| Debug := true; Log := []; service := [inl (JString "oops")]; sent := [] |})
    as (_ & (_ & _ & Hf)).
  split.
  - exact (Hu eq_refl (HTTP_Put "/user/3" _) _ eq_refl eq_refl).
  - exact (Hf eq_refl (HTTP_Get "/user/3") eq_refl).
Defined.

Lemma X8_witness :
  accepted_below "/maintenance" (cid_pattern "/maintenance") "/maintenance/1234"
  /\ accepted (cid_pattern "/user") "/user/3".
Proof.
  destruct (X8_requests_go_to_accepted_paths scripted_transport on_the_wire spec_config
              (Some "1234") None None (Some (user_of "/user/3")) (scripted_api [inl (JObject [])]))
    as ((Hf & _) & _ & (_ & Hu)).
  split.
  - exact (Hf (HTTP_Get "/maintenance/1234") eq_refl).
  - exact (Hu (HTTP_Put "/user/3" _) eq_refl).
Defined.

Lemma X9_witness :
  sends_just (DeleteMaintenanceWindow scripted_transport spec_config (Some (window_of "1234")))
    (scripted_api [inl JNull]) (HTTP_Delete "/maintenance/1234")
  /\ returns_untouched
       (UpdateMaintenanceWindow scripted_transport on_the_wire spec_config (Some (window_of "1234")))
       (scripted_api [inl JNull]) (None, Some (InvalidIdentifier "maintenance window" "1234")).
Proof.
  destruct (X9_delete_resolves_update_does_not scripted_transport on_the_wire spec_config
              (window_of "1234") (annotation_of "77") (scripted_api [inl JNull])) as [Hm _].
  apply Hm; [apply cid_pattern_below_prefix | discriminate | reflexivity | reflexivity].
Defined.

Lemma X10_witness :
  exists doc,
    document (user_of "/user/3") = inl doc
    /\ HTTP_Put "/user/3"
         (JObject [("_cid", JString "/user/3"); ("contact_info", JObject []);
                   ("email", JString "a@example.com"); ("firstname", JString "A");
                   ("lastname", JString "B")])
       = HTTP_Put "/user/3" (on_the_wire doc)
    /\ member "_cid" doc = Some (JString "/user/3").
Proof.
  destruct (X10_update_path_is_the_identifier_in_the_body scripted_transport on_the_wire spec_config
              (window_of "/maintenance/1234") (annotation_of "/annotation/77") (user_of "/user/3")
              (scripted_api [inl (JObject [])])
              (HTTP_Put "/user/3"
                 (JObject [("_cid", JString "/user/3"); ("contact_info", JObject []);
                           ("email", JString "a@example.com"); ("firstname", JString "A");
                           ("lastname", JString "B")])))
    as (_ & _ & Hu).
  exact (Hu eq_refl).
Defined.

Lemma X11_witness :
  exists doc,
    Some (JObject [("category", JString ""); ("description", JString ""); ("title", JString "");
                   ("rel_metrics", JNull); ("start", JNumber 0); ("stop", JNumber 0)])
    = Some (on_the_wire doc)
    /\ member "category" doc = Some (JString "")
    /\ member "description" doc = Some (JString "")
    /\ member "title" doc = Some (JString "")
    /\ member "rel_metrics" doc = Some JNull
    /\ member "start" doc = Some (JNumber 0)
    /\ member "stop" doc = Some (JNumber 0).
Proof.
  destruct (X11_members_always_sent scripted_transport on_the_wire spec_config
              NewAnnotation (user_of "/user/3") (scripted_api [inl (JObject [])])
              (HTTP_Post "/annotation"
                 (JObject [("category", JString ""); ("description", JString ""); ("title", JString "");
                           ("rel_metrics", JNull); ("start", JNumber 0); ("stop", JNumber 0)])))
    as (Hn & _).
  exact (Hn (or_introl eq_refl)).
Defined.

Lemma no_values_example : no_filter_values {[ "f_email" := [] ]}.
Proof.
  intros k vs Hk. apply lookup_singleton_Some in Hk as [_ <-]. reflexivity.
Qed.

Lemma X12_witness :
  SearchUsers scripted_transport spec_config range_forward (Some {[ "f_email" := [] ]})
    (scripted_api [inl JNull])
  = FetchUsers scripted_transport spec_config (scripted_api [inl JNull])
  /\ sends_just
       (SearchAnnotations scripted_transport spec_config range_forward (Some "q") None)
       (scripted_api [inl JNull])
       (HTTP_Get (URL_String (AnnotationPrefix spec_config)
                    (Values_Encode range_forward (search_values range_forward (Some "q") None)))).
Proof.
  destruct (X12_search_runs_fetch_all_exactly_when_it_asks_nothing scripted_transport spec_config
              range_forward None (Some {[ "f_email" := [] ]}) (scripted_api [inl JNull])
              range_forward_visits)
    as (_ & _ & Hu & _).
  destruct (X12_search_runs_fetch_all_exactly_when_it_asks_nothing scripted_transport spec_config
              range_forward (Some "q") None (scripted_api [inl JNull]) range_forward_visits)
    as (_ & _ & _ & Hs & _).
  split.
  - apply Hu. split; [by left|]. intros f [= <-]. apply no_values_example.
  - apply Hs. intros [[H | H] _]; discriminate.
Defined.

Lemma X13_witness :
  sends_just
    (SearchMaintenanceWindows scripted_transport spec_config range_backward (Some "foo bar")
       (Some {[ "f_email" := [] ]}))
    (scripted_api [inl JNull])
    (HTTP_Get "/maintenance?search=foo+bar").
Proof.
  refine (proj1 (X13_search_by_query_alone scripted_transport spec_config range_backward
                   "foo bar" (Some {[ "f_email" := [] ]}) (scripted_api [inl JNull])
                   range_backward_visits _ _)).
  - discriminate.
  - intros f [= <-]. apply no_values_example.
Defined.

Lemma X14_witness :
  exists doc,
    Some (JObject [("severities", JString "1,2"); ("notes", JString "upgrade");
                   ("type", JString "account"); ("start", JNumber 10)])
    = Some (on_the_wire doc)
    /\ member "severities" doc = Some (JString "1,2")
    /\ member "item" doc = None
    /\ member "notes" doc = Some (JString "upgrade")
    /\ member "type" doc = Some (JString "account")
    /\ member "tags" doc = None
    /\ member "start" doc = Some (JNumber 10)
    /\ member "stop" doc = None.
Proof.
  exact (X14_maintenance_members_sent_when_not_empty scripted_transport on_the_wire spec_config
           (window_of "") (scripted_api [inl (JObject [])])
           (HTTP_Post "/maintenance"
              (JObject [("severities", JString "1,2"); ("notes", JString "upgrade");
                        ("type", JString "account"); ("start", JNumber 10)]))
           (or_introl eq_refl)).
Defined.
